(** * kinaru-sys-admin: the data-access layer, the user screen and the
      mock data, embedded and verified

    Sources embedded here:
    - [src/firebase/firebaseService.tsx]: [isValidEmail], [isValidString],
      the authentication wrappers ([signUpWithEmail], [signInWithEmail],
      [signInWithGoogle], [logout], [onAuthChanged], [sendReset],
      [updateUserDisplayName], [getCurrentUserToken]), the Firestore
      facade ([addDocument], [setDocument], [getDocumentById],
      [getCollection], [updateDocument], [deleteDocumentById],
      [queryCollection], [listenToCollection], [listenToDocument],
      [runBatch], [runFsTransaction]) and the storage wrappers
      ([uploadFile], [getFileURL], [deleteFile]);
    - the user-management screen appended to that file: [fetchUsers],
      [roleMap], [statusMap], [getRoleLabel], [getStatusLabel],
      [handleUserAction] and the submit handler of the add dialog;
    - the mock data module: [mockUsers], [mockTransactions] and
      [mockContracts] with their generation loops.

    The Firestore client is a third-party library.  It is modelled by an
    in-memory document store ([Module Firestore]); the parts of its query
    language that no function of this repository looks into (what a where
    clause selects, how order-by clauses compare two documents) are the
    methods of the class [QueryEngine].  The handle [db] that
    [./firebaseConfig] exports is the [Backend] the calls run against.
    The authentication and storage SDKs are the methods of the classes
    [AuthSdk] and [StorageSdk]. *)

From Stdlib Require Import ZArith Lia String Ascii DecimalString.
From stdpp Require Import gmap list fin_maps sorting.
From Equations Require Import Equations.

Set Warnings "-register-all".
Local Open Scope Z_scope.

(** ** JavaScript values *)

Module JS.

(** A JavaScript string is a sequence of UTF-16 code units. *)
Abbreviation jsstring := (list N).

(** Decoding of the UTF-8 bytes of a literal of this file into code units
    (one, two and three byte sequences: every literal of the program lies in
    the basic plane). *)
Fixpoint utf16 (bytes : list N) : jsstring :=
  match bytes with
  | [] => []
  | b :: rest =>
      if (b <? 128)%N then b :: utf16 rest
      else if (b <? 224)%N then
        match rest with
        | c :: rest' => ((b - 192) * 64 + (c - 128))%N :: utf16 rest'
        | [] => [b]
        end
      else
        match rest with
        | c :: d :: rest' =>
            ((b - 224) * 4096 + (c - 128) * 64 + (d - 128))%N :: utf16 rest'
        | _ => [b]
        end
  end.

Definition js (s : string) : jsstring :=
  utf16 (map N_of_ascii (list_ascii_of_string s)).

(** Decimal digits of a non-negative integer, as a template literal prints
    them. *)
Definition digits (z : Z) : jsstring :=
  js (NilZero.string_of_uint (N.to_uint (Z.to_N z))).

(** [WhiteSpace] and [LineTerminator] code units, the ones
    [String.prototype.trim] strips. *)
Definition is_white_space (c : N) : bool :=
  bool_decide (c ∈ [9; 10; 11; 12; 13; 32; 160; 5760; 8232; 8233; 8239;
                    8287; 12288; 65279]%N)
  || ((8192 <=? c) && (c <=? 8202))%N.

Fixpoint trimStart (s : jsstring) : jsstring :=
  match s with
  | c :: rest => if is_white_space c then trimStart rest else s
  | [] => []
  end.

Definition trimEnd (s : jsstring) : jsstring := rev (trimStart (rev s)).

Definition trim (s : jsstring) : jsstring := trimEnd (trimStart s).

(** Numbers.  The program only inspects integral values (page sizes, role
    and status codes); the other doubles are kept apart so that the tests
    the code makes on them ([Number.isInteger], [<= 0], truthiness, use as
    a property key) have their JavaScript outcome.  Both zeros are [Int 0]. *)
Inductive number :=
| Int (z : Z)
| Frac (whole : Z) (part : positive)
    (* finite and not integral, strictly between [whole] and [whole + 1] *)
| NaN
| Infinity (negative : bool).

Definition isInteger (n : number) : bool :=
  match n with Int _ => true | _ => false end.

(** [n <= 0] *)
Definition le_zero (n : number) : bool :=
  match n with
  | Int z => z <=? 0
  | Frac w _ => w <? 0
  | NaN => false
  | Infinity negative => negative
  end.

Definition number_truthy (n : number) : bool :=
  match n with
  | Int z => negb (z =? 0)
  | NaN => false
  | _ => true
  end.

(** Runtime values.  [JServerTimestamp] is the sentinel returned by
    [serverTimestamp()], [JTimestamp] a stored Firestore timestamp and
    [JFun] a function, known by a handle. *)
Inductive value :=
| JUndefined
| JNull
| JBool (b : bool)
| JNum (n : number)
| JStr (s : jsstring)
| JTimestamp (t : Z)
| JServerTimestamp
| JArr (items : list value)
| JObj (fields : gmap jsstring value)
| JFun (handle : nat).

(** An object literal, as its property map. *)
Abbreviation object := (gmap jsstring value).

Definition truthy (v : value) : bool :=
  match v with
  | JUndefined | JNull => false
  | JBool b => b
  | JNum n => number_truthy n
  | JStr s => negb (bool_decide (s = []))
  | _ => true
  end.

Definition typeof (v : value) : jsstring :=
  match v with
  | JUndefined => js "undefined"
  | JBool _ => js "boolean"
  | JNum _ => js "number"
  | JStr _ => js "string"
  | JFun _ => js "function"
  | _ => js "object"
  end.

(** [a || b] *)
Definition or_else (a b : value) : value := if truthy a then a else b.

(** [a ?? b] *)
Definition nullish (a b : value) : value :=
  match a with JUndefined | JNull => b | _ => a end.

(** [o.k] for an object that is not null or undefined: a missing property,
    and any of the properties read in this program on a primitive, is
    [undefined]. *)
Definition prop (o : value) (k : jsstring) : value :=
  match o with
  | JObj fields => default JUndefined (fields !! k)
  | _ => JUndefined
  end.

(** [o?.k] *)
Definition opt_prop (o : value) (k : jsstring) : value :=
  match o with
  | JUndefined | JNull => JUndefined
  | _ => prop o k
  end.

(** Property read on an object given by its map. *)
Definition field (o : object) (k : jsstring) : value :=
  default JUndefined (o !! k).

(** [{ k: v, ...o }]: the spread properties come last and win. *)
Definition spread_over (k : jsstring) (v : value) (o : object) : object :=
  o ∪ {[ k := v ]}.

(** [!data || typeof data !== "object"] *)
Definition not_an_object (data : value) : bool :=
  negb (truthy data) || negb (bool_decide (typeof data = js "object")).

(** Thrown [Error] objects and completions of a call. *)
Record Error := { message : jsstring }.

Inductive Completion (A : Type) :=
| Return (a : A)
| Throw (e : Error).
Arguments Return {A} a.
Arguments Throw {A} e.

End JS.
Export JS.

(** ** The Firestore client, as an in-memory store *)

Module Firestore.

(** [doc(db, collectionName, id)] *)
Record DocumentReference := { ref_collection : jsstring; ref_id : jsstring }.

(** A [QueryDocumentSnapshot]: [d.id] and [d.data()]. *)
Record Snapshot := { snap_id : jsstring; snap_data : object }.

(** A [DocumentSnapshot]: [exists()] holds when [doc_data] is [Some]. *)
Record DocumentSnapshot := { doc_id : jsstring; doc_data : option object }.

Inductive QueryConstraint :=
| where_ (fieldPath opStr : jsstring) (v : value)
| orderBy (fieldPath directionStr : jsstring)
| limit (n : number)
| startAfter (d : Snapshot).

Record Query := { q_collection : jsstring; q_constraints : list QueryConstraint }.

(** [collection(db, name)] and [query(q, ...constraints)] *)
Definition collection (name : jsstring) : Query :=
  {| q_collection := name; q_constraints := [] |}.

Definition query (q : Query) (cs : list QueryConstraint) : Query :=
  {| q_collection := q_collection q; q_constraints := q_constraints q ++ cs |}.

Definition conditions_of (q : Query) : list (jsstring * jsstring * value) :=
  omap (fun c => match c with where_ f o v => Some (f, o, v) | _ => None end)
       (q_constraints q).

Definition orders_of (q : Query) : list (jsstring * jsstring) :=
  omap (fun c => match c with orderBy f d => Some (f, d) | _ => None end)
       (q_constraints q).

Definition limit_of (q : Query) : option number :=
  last (omap (fun c => match c with limit n => Some n | _ => None end)
             (q_constraints q)).

Definition cursor_of (q : Query) : option Snapshot :=
  last (omap (fun c => match c with startAfter d => Some d | _ => None end)
             (q_constraints q)).

(** The query language proper.  [selects] says whether a document satisfies
    the where clauses (and carries the order-by fields); [precedes] is the
    order the order-by clauses put on documents, ties broken by document
    id, hence a strict order that is total on documents of different ids. *)
Class QueryEngine := {
  selects : list (jsstring * jsstring * value) -> list (jsstring * jsstring) ->
            Snapshot -> bool;
  precedes : list (jsstring * jsstring) -> Snapshot -> Snapshot -> bool;
  precedes_irrefl : forall o a, precedes o a a = false;
  precedes_trans : forall o a b c,
    precedes o a b = true -> precedes o b c = true -> precedes o a c = true;
  precedes_total : forall o a b,
    snap_id a <> snap_id b -> precedes o a b = true \/ precedes o b a = true
}.

(** One write of a batch, or a single write. *)
Inductive Write :=
| WSet (r : DocumentReference) (data : object) (merge : bool)
| WUpdate (r : DocumentReference) (data : object)
| WDelete (r : DocumentReference).

Inductive Request :=
| ReqWrite (w : Write)
| ReqCommit (ws : list Write)
| ReqGet (r : DocumentReference)
| ReqQuery (q : Query)
| ReqListenQuery (q : Query)
| ReqListenDoc (r : DocumentReference).

Record Listener := {
  target : Query + DocumentReference;
  onNext : value;
  onError : value
}.

(** The backend as the client sees it: the stored collections, the server
    clock, the error every request currently fails with (if any), the
    requests sent so far (newest first), the listeners attached, and the
    identifiers [addDoc] will draw. *)
Record Backend := {
  documents : gmap jsstring (gmap jsstring object);
  clock : Z;
  failure : option jsstring;
  requests : list Request;
  listeners : list Listener;
  auto_ids : nat -> jsstring;
  issued : nat
}.

Definition with_documents (st : Backend) docs : Backend :=
  {| documents := docs; clock := clock st; failure := failure st;
     requests := requests st; listeners := listeners st;
     auto_ids := auto_ids st; issued := issued st |}.

Definition with_request (st : Backend) (r : Request) : Backend :=
  {| documents := documents st; clock := clock st; failure := failure st;
     requests := r :: requests st; listeners := listeners st;
     auto_ids := auto_ids st; issued := issued st |}.

Definition with_listener (st : Backend) (l : Listener) : Backend :=
  {| documents := documents st; clock := clock st; failure := failure st;
     requests := requests st; listeners := listeners st ++ [l];
     auto_ids := auto_ids st; issued := issued st |}.

Definition with_issued (st : Backend) : Backend :=
  {| documents := documents st; clock := clock st; failure := failure st;
     requests := requests st; listeners := listeners st;
     auto_ids := auto_ids st; issued := S (issued st) |}.

(** Time passing on the server between two calls. *)
Definition elapse (dt : Z) (st : Backend) : Backend :=
  {| documents := documents st; clock := clock st + dt; failure := failure st;
     requests := requests st; listeners := listeners st;
     auto_ids := auto_ids st; issued := issued st |}.

(** Computations against the backend: [async] functions awaited one after
    the other, and the synchronous listeners. *)
Definition M (A : Type) : Type := Backend -> Completion A * Backend.

Definition ret {A} (a : A) : M A := fun st => (Return a, st).
Definition throw {A} (e : Error) : M A := fun st => (Throw e, st).
Definition bind {A B} (m : M A) (k : A -> M B) : M B :=
  fun st => match m st with
            | (Return a, st') => k a st'
            | (Throw e, st') => (Throw e, st')
            end.
(** [try { m } catch (error) { h error }] *)
Definition try_catch {A} (m : M A) (h : Error -> M A) : M A :=
  fun st => match m st with
            | (Return a, st') => (Return a, st')
            | (Throw e, st') => h e st'
            end.

Notation "'let!' x ':=' m 'in' k" := (bind m (fun x => k))
  (at level 10, x pattern, m at level 100, k at level 200, only parsing).
Notation "'do!' m 'in' k" := (bind m (fun _ => k))
  (at level 10, m at level 100, k at level 200, only parsing).

(** A request goes out, and fails when the backend is failing. *)
Definition send (r : Request) : M unit :=
  fun st =>
    match failure st with
    | Some msg => (Throw {| message := msg |}, with_request st r)
    | None => (Return tt, with_request st r)
    end.

(** The server replaces the [serverTimestamp()] sentinels by its clock. *)
Fixpoint resolve (now : Z) (v : value) : value :=
  match v with
  | JServerTimestamp => JTimestamp now
  | JObj fields => JObj (resolve now <$> fields)
  | JArr items => JArr (map (resolve now) items)
  | _ => v
  end.

(** [{ merge: true }]: the written fields replace the stored ones, maps
    being merged field by field; fields that are not written stay. *)
Fixpoint merge_value (new old : value) {struct new} : value :=
  match new, old with
  | JObj fields, JObj fields' =>
      JObj (union_with (fun a b => Some (merge_value a b)) fields fields')
  | _, _ => new
  end.

Definition merge_fields (new old : object) : object :=
  union_with (fun a b => Some (merge_value a b)) new old.

Definition stored (docs : gmap jsstring (gmap jsstring object))
    (r : DocumentReference) : option object :=
  match docs !! ref_collection r with
  | Some c => c !! ref_id r
  | None => None
  end.

Definition put (docs : gmap jsstring (gmap jsstring object))
    (r : DocumentReference) (o : object) : gmap jsstring (gmap jsstring object) :=
  <[ref_collection r := <[ref_id r := o]> (default ∅ (docs !! ref_collection r))]> docs.

Definition remove (docs : gmap jsstring (gmap jsstring object))
    (r : DocumentReference) : gmap jsstring (gmap jsstring object) :=
  match docs !! ref_collection r with
  | Some c => <[ref_collection r := delete (ref_id r) c]> docs
  | None => docs
  end.

(** What one write does to the stored documents at server time [now]. *)
Definition apply_write (now : Z) (w : Write)
    (docs : gmap jsstring (gmap jsstring object))
    : Completion (gmap jsstring (gmap jsstring object)) :=
  match w with
  | WSet r data merge =>
      let new := resolve now <$> data in
      Return (put docs r
                (match merge, stored docs r with
                 | true, Some old => merge_fields new old
                 | _, _ => new
                 end))
  | WUpdate r data =>
      match stored docs r with
      | Some old => Return (put docs r ((resolve now <$> data) ∪ old))
      | None => Throw {| message := js "No document to update" |}
      end
  | WDelete r => Return (remove docs r)
  end.

Fixpoint apply_writes (now : Z) (ws : list Write)
    (docs : gmap jsstring (gmap jsstring object))
    : Completion (gmap jsstring (gmap jsstring object)) :=
  match ws with
  | [] => Return docs
  | w :: ws' =>
      match apply_write now w docs with
      | Return docs' => apply_writes now ws' docs'
      | Throw e => Throw e
      end
  end.

(** A batch commit is one request; the writes apply together or not at
    all. *)
Definition commit (ws : list Write) : M unit :=
  do! send (ReqCommit ws) in
  fun st =>
    match apply_writes (clock st) ws (documents st) with
    | Return docs => (Return tt, with_documents st docs)
    | Throw e => (Throw e, st)
    end.

Definition write (w : Write) : M unit :=
  do! send (ReqWrite w) in
  fun st =>
    match apply_write (clock st) w (documents st) with
    | Return docs => (Return tt, with_documents st docs)
    | Throw e => (Throw e, st)
    end.

(** The client refuses, before sending anything, data that is not a plain
    object. *)
Definition plain_object (data : value) : M object :=
  match data with
  | JObj fields => ret fields
  | _ => throw {| message := js "Data must be an object" |}
  end.

Definition setDoc (r : DocumentReference) (data : value) (merge : bool) : M unit :=
  let! fields := plain_object data in write (WSet r fields merge).

Definition addDoc (col : Query) (data : value) : M DocumentReference :=
  let! fields := plain_object data in
  fun st =>
    let r := {| ref_collection := q_collection col;
                ref_id := auto_ids st (issued st) |} in
    (do! write (WSet r fields false) in ret r) (with_issued st).

Definition updateDoc (r : DocumentReference) (data : value) : M unit :=
  let! fields := plain_object data in write (WUpdate r fields).

Definition deleteDoc (r : DocumentReference) : M unit := write (WDelete r).

Definition getDoc (r : DocumentReference) : M DocumentSnapshot :=
  do! send (ReqGet r) in
  fun st => (Return {| doc_id := ref_id r; doc_data := stored (documents st) r |}, st).

(** The documents of a collection. *)
Definition snapshots (docs : gmap jsstring (gmap jsstring object))
    (name : jsstring) : list Snapshot :=
  (fun p => {| snap_id := fst p; snap_data := snd p |})
    <$> map_to_list (default ∅ (docs !! name)).

Fixpoint insert_by {A} (lt : A -> A -> bool) (x : A) (l : list A) : list A :=
  match l with
  | [] => [x]
  | y :: l' => if lt x y then x :: l else y :: insert_by lt x l'
  end.

Definition sort_by {A} (lt : A -> A -> bool) (l : list A) : list A :=
  foldr (insert_by lt) [] l.

Section Queries.
Context `{QueryEngine}.

(** The documents a query selects, in query order, before cursor and limit. *)
Definition matching (q : Query) (docs : gmap jsstring (gmap jsstring object))
    : list Snapshot :=
  sort_by (precedes (orders_of q))
    (filter (fun d => selects (conditions_of q) (orders_of q) d = true)
            (snapshots docs (q_collection q))).

(** [startAfter(d)] keeps what comes strictly after [d] in query order,
    [limit(n)] the first [n] of that. *)
Definition after_cursor (q : Query) (hits : list Snapshot) : list Snapshot :=
  match cursor_of q with
  | Some c => filter (fun d => precedes (orders_of q) c d = true) hits
  | None => hits
  end.

Definition page (q : Query) (docs : gmap jsstring (gmap jsstring object))
    : Completion (list Snapshot) :=
  let rest := after_cursor q (matching q docs) in
  match limit_of q with
  | None => Return rest
  | Some (Int n) =>
      if 0 <? n then Return (take (Z.to_nat n) rest)
      else Throw {| message := js "Function limit() requires a positive number" |}
  | Some _ => Throw {| message := js "Function limit() requires a positive number" |}
  end.

Definition getDocs (q : Query) : M (list Snapshot) :=
  fun st =>
    match page q (documents st) with
    | Throw e => (Throw e, st)
    | Return docs => (do! send (ReqQuery q) in ret docs) st
    end.

End Queries.

(** A [WriteBatch] collects writes locally; [set] and [update] refuse data
    that is not a plain object. *)
Definition batch_set (batch : list Write) (r : DocumentReference) (data : value)
    (merge : bool) : Completion (list Write) :=
  match data with
  | JObj fields => Return (batch ++ [WSet r fields merge])
  | _ => Throw {| message := js "Data must be an object" |}
  end.

Definition batch_update (batch : list Write) (r : DocumentReference) (data : value)
    : Completion (list Write) :=
  match data with
  | JObj fields => Return (batch ++ [WUpdate r fields])
  | _ => Throw {| message := js "Data must be an object" |}
  end.

Definition batch_delete (batch : list Write) (r : DocumentReference)
    : Completion (list Write) :=
  Return (batch ++ [WDelete r]).

(** [onSnapshot] attaches a listener and returns the handle that detaches
    it; failures reach the error callback later, never the caller. *)
Definition onSnapshot (t : Query + DocumentReference) (next error : value) : M nat :=
  fun st =>
    let r := match t with inl q => ReqListenQuery q | inr d => ReqListenDoc d end in
    (Return (length (listeners st)),
     with_listener (with_request st r)
       {| target := t; onNext := next; onError := error |}).

End Firestore.
Export Firestore.

(** ** src/firebase/firebaseService.tsx *)

Module Service.

Record QueryCondition := { qc_field : jsstring; qc_op : jsstring; qc_value : value }.

Record OrderOption := { oo_field : jsstring; oo_direction : jsstring }.

Record QueryOptions := {
  collectionName : jsstring;
  conditions : list QueryCondition;      (* [] when absent *)
  orders : list OrderOption;             (* [] when absent *)
  pageSize : option number;
  startAfterDoc : option Snapshot
}.

Record BatchOperation := {
  op_type : jsstring;
  op_ref : DocumentReference;
  op_data : value;                       (* [JUndefined] when absent *)
  op_merge : value
}.

(** [typeof str === "string" && str.trim().length > 0] *)
Definition isValidString (str : value) : bool :=
  match str with
  | JStr s => bool_decide (typeof str = js "string") && (0 <? length (trim s))%nat
  | _ => false
  end.

Definition error (msg : jsstring) : Error := {| message := msg |}.

(** [...data] inside an object literal: the own properties of an object,
    the indexed items of an array. *)
Definition spread (data : value) : object :=
  match data with
  | JObj fields => fields
  | JArr items => list_to_map (imap (fun i v => (digits (Z.of_nat i), v)) items)
  | _ => ∅
  end.

Definition addDocument (collectionName : jsstring) (data : value) : M jsstring :=
  if negb (isValidString (JStr collectionName))
  then throw (error (js "Nom de collection invalide"))
  else if not_an_object data
  then throw (error (js "Les données doivent être un objet"))
  else
    try_catch
      (let colRef := collection collectionName in
       let! docRef :=
         addDoc colRef
           (JObj (<[js "updatedAt" := JServerTimestamp]>
                 (<[js "createdAt" := JServerTimestamp]> (spread data)))) in
       ret (ref_id docRef))
      (fun e => throw (error (js "Échec de l'ajout du document : " ++ message e))).

Definition setDocument (collectionName id : jsstring) (data : value) (merge : bool)
    : M jsstring :=
  if negb (isValidString (JStr collectionName))
  then throw (error (js "Nom de collection invalide"))
  else if negb (isValidString (JStr id))
  then throw (error (js "ID de document invalide"))
  else if not_an_object data
  then throw (error (js "Les données doivent être un objet"))
  else
    try_catch
      (let docRef := {| ref_collection := collectionName; ref_id := id |} in
       do! setDoc docRef
             (JObj (<[js "createdAt" :=
                        nullish (prop data (js "createdAt")) JServerTimestamp]>
                   (<[js "updatedAt" := JServerTimestamp]> (spread data))))
             merge in
       ret id)
      (fun e => throw (error (js "Échec de la définition du document : " ++ message e))).

(** [{ id: d.id, ...d.data() }] *)
Definition with_id (id : jsstring) (data : object) : value :=
  JObj (spread_over (js "id") (JStr id) data).

Definition getDocumentById (collectionName id : jsstring) : M value :=
  if negb (isValidString (JStr collectionName))
  then throw (error (js "Nom de collection invalide"))
  else if negb (isValidString (JStr id))
  then throw (error (js "ID de document invalide"))
  else
    try_catch
      (let! docSnap := getDoc {| ref_collection := collectionName; ref_id := id |} in
       ret (match doc_data docSnap with
            | Some data => with_id (doc_id docSnap) data
            | None => JNull
            end))
      (fun e => throw (error (js "Échec de la récupération du document : " ++ message e))).

Section UsesQueries.
Context `{QueryEngine}.

Definition getCollection (collectionName : jsstring) : M (list value) :=
  if negb (isValidString (JStr collectionName))
  then throw (error (js "Nom de collection invalide"))
  else
    try_catch
      (let! snapshot := getDocs (collection collectionName) in
       ret (map (fun d => with_id (snap_id d) (snap_data d)) snapshot))
      (fun e => throw (error (js "Échec de la récupération de la collection : " ++ message e))).

End UsesQueries.

Definition updateDocument (collectionName id : jsstring) (data : value) : M jsstring :=
  if negb (isValidString (JStr collectionName))
  then throw (error (js "Nom de collection invalide"))
  else if negb (isValidString (JStr id))
  then throw (error (js "ID de document invalide"))
  else if not_an_object data
  then throw (error (js "Les données doivent être un objet"))
  else
    try_catch
      (do! updateDoc {| ref_collection := collectionName; ref_id := id |}
             (JObj (<[js "updatedAt" := JServerTimestamp]> (spread data))) in
       ret id)
      (fun e => throw (error (js "Échec de la mise à jour du document : " ++ message e))).

Definition deleteDocumentById (collectionName id : jsstring) : M unit :=
  if negb (isValidString (JStr collectionName))
  then throw (error (js "Nom de collection invalide"))
  else if negb (isValidString (JStr id))
  then throw (error (js "ID de document invalide"))
  else
    try_catch
      (deleteDoc {| ref_collection := collectionName; ref_id := id |})
      (fun e => throw (error (js "Échec de la suppression du document : " ++ message e))).

(** [pageSize && (!Number.isInteger(pageSize) || pageSize <= 0)] *)
Definition bad_pageSize (pageSize : option number) : bool :=
  match pageSize with
  | Some n => number_truthy n && (negb (isInteger n) || le_zero n)
  | None => false
  end.

Definition bad_condition (c : QueryCondition) : bool :=
  negb (isValidString (JStr (qc_field c))) || negb (isValidString (JStr (qc_op c))).

Definition bad_order (o : OrderOption) : bool :=
  negb (isValidString (JStr (oo_field o)))
  || negb (bool_decide (oo_direction o ∈ [js "asc"; js "desc"])).

Definition whereClauses (conditions : list QueryCondition) : list QueryConstraint :=
  map (fun c => where_ (qc_field c) (qc_op c) (qc_value c)) conditions.

(** [orderBy(o.field, o.direction || "asc")] *)
Definition orderClauses (orders : list OrderOption) : list QueryConstraint :=
  map (fun o => orderBy (oo_field o)
                  (if bool_decide (oo_direction o = []) then js "asc"
                   else oo_direction o))
      orders.

(** The query both [queryCollection] and [listenToCollection] build, up to
    the limit. *)
Definition limited (collectionName : jsstring) (conditions : list QueryCondition)
    (orders : list OrderOption) (pageSize : option number) : Query :=
  let q := collection collectionName in
  let q := if bool_decide (conditions = []) then q
           else query q (whereClauses conditions) in
  let q := if bool_decide (orders = []) then q
           else query q (orderClauses orders) in
  match pageSize with
  | Some n => if number_truthy n then query q [limit n] else q
  | None => q
  end.

Record QueryResult := { data : list value; lastVisible : option Snapshot }.

Section Querying.
Context `{QueryEngine}.

Definition queryCollection (options : QueryOptions) : M QueryResult :=
  if negb (isValidString (JStr (collectionName options)))
  then throw (error (js "Nom de collection invalide"))
  else if bad_pageSize (pageSize options)
  then throw (error (js "Taille de page invalide"))
  else if existsb bad_condition (conditions options)
  then throw (error (js "Conditions de requête invalides"))
  else if existsb bad_order (orders options)
  then throw (error (js "Conditions de tri invalides"))
  else
    try_catch
      (let q := limited (collectionName options) (conditions options)
                  (orders options) (pageSize options) in
       let q := match startAfterDoc options with
                | Some d => query q [startAfter d]
                | None => q
                end in
       let! snap := getDocs q in
       ret {| data := map (fun d => with_id (snap_id d) (snap_data d)) snap;
              lastVisible := last snap |})
      (fun e => throw (error (js "Échec de la requête de collection : " ++ message e))).

End Querying.

(** The two listeners hand [callback] the documents of each snapshot and
    [errorCallback] the wrapped failure; they are attached under the
    callbacks they wrap. *)
Definition listenToCollection (collectionName : jsstring)
    (conditions : list QueryCondition) (orders : list OrderOption)
    (pageSize : option number) (callback errorCallback : value) : M nat :=
  if negb (isValidString (JStr collectionName))
  then throw (error (js "Nom de collection invalide"))
  else if negb (bool_decide (typeof callback = js "function"))
  then throw (error (js "Le callback doit être une fonction"))
  else if bad_pageSize pageSize
  then throw (error (js "Taille de page invalide"))
  else
    onSnapshot (inl (limited collectionName conditions orders pageSize))
      callback errorCallback.

Definition listenToDocument (collectionName id : jsstring)
    (callback errorCallback : value) : M nat :=
  if negb (isValidString (JStr collectionName))
  then throw (error (js "Nom de collection invalide"))
  else if negb (isValidString (JStr id))
  then throw (error (js "ID de document invalide"))
  else if negb (bool_decide (typeof callback = js "function"))
  then throw (error (js "Le callback doit être une fonction"))
  else
    onSnapshot (inr {| ref_collection := collectionName; ref_id := id |})
      callback errorCallback.

(** One round of the [forEach] of [runBatch]: the checks on [op] and the
    write it adds to the batch. *)
Definition and_then {A B} (c : Completion A) (k : A -> Completion B) : Completion B :=
  match c with
  | Return a => k a
  | Throw e => Throw e
  end.

Definition stage (batch : list Write) (op : BatchOperation) : Completion (list Write) :=
  if negb (bool_decide (op_type op ∈ [js "set"; js "update"; js "delete"]))
  then Throw (error (js "Type d'opération invalide : " ++ op_type op))
  else
    and_then
      (if bool_decide (op_type op = js "set") then
         if not_an_object (op_data op)
         then Throw (error (js "Les données doivent être un objet pour set"))
         else batch_set batch (op_ref op) (op_data op) (truthy (op_merge op))
       else Return batch)
      (fun batch =>
    and_then
      (if bool_decide (op_type op = js "update") then
         if not_an_object (op_data op)
         then Throw (error (js "Les données doivent être un objet pour update"))
         else batch_update batch (op_ref op) (op_data op)
       else Return batch)
      (fun batch =>
    if bool_decide (op_type op = js "delete")
    then batch_delete batch (op_ref op)
    else Return batch)).

Fixpoint forEach (operations : list BatchOperation) (batch : list Write)
    : Completion (list Write) :=
  match operations with
  | [] => Return batch
  | op :: rest =>
      match stage batch op with
      | Return batch' => forEach rest batch'
      | Throw e => Throw e
      end
  end.

Definition runBatch (operations : list BatchOperation) : M unit :=
  if bool_decide (operations = [])
  then throw (error (js "Les opérations doivent être un tableau non vide"))
  else
    match forEach operations [] with
    | Throw e => throw e
    | Return batch =>
        try_catch (commit batch)
          (fun e => throw (error (js "Échec de l'opération de lot : " ++ message e)))
    end.

End Service.
Export Service.

(** ** src/types/index.ts *)

Module Types.

Record NotificationPrefs := {
  messages : value;
  newProperties : value;
  payments : value;
  reservations : value;
  visits : value
}.

(** The declared field types are erased at run time ([as User[]] checks
    nothing), so a field holds whatever value the expression gave. *)
Record User := {
  uid : value;
  nom : value;
  prenom : value;
  email : value;
  telephone : value;
  photoProfil : value;
  cniNumber : value;
  CNIDateDelivrer : value;
  cniExpirationDate : value;
  cniRecto : value;
  cniVerso : value;
  addresse : value;
  fcmToken : value;
  lastUpdated : value;
  etat : value;
  statut : value;
  typeUsersId : value;
  notificationPrefs : NotificationPrefs
}.

End Types.
Export Types.

(** ** The user-management screen *)

Module UserManagement.

(** The callback of [users.map] in [fetchUsers]. *)
Definition toUser (user : value) : User :=
  {| uid := prop user (js "id");
     nom := or_else (prop user (js "nom")) (JStr (js ""));
     prenom := or_else (prop user (js "prenom")) (JStr (js ""));
     email := or_else (prop user (js "email")) (JStr (js ""));
     telephone := or_else (prop user (js "telephone")) (JStr (js ""));
     photoProfil := or_else (prop user (js "photoProfil")) (JStr (js ""));
     cniNumber := or_else (prop user (js "cniNumber")) (JStr (js ""));
     CNIDateDelivrer := or_else (prop user (js "CNIDateDelivrer")) (JStr (js ""));
     cniExpirationDate := or_else (prop user (js "cniExpirationDate")) (JStr (js ""));
     cniRecto := or_else (prop user (js "cniRecto")) (JStr (js ""));
     cniVerso := or_else (prop user (js "cniVerso")) (JStr (js ""));
     addresse := or_else (prop user (js "addresse")) (JStr (js ""));
     fcmToken := or_else (prop user (js "fcmToken")) (JStr (js ""));
     lastUpdated := or_else (prop user (js "lastUpdated")) (JStr (js ""));
     etat := nullish (prop user (js "etat")) (JNum (Int 1));
     statut := nullish (prop user (js "statut")) (JNum (Int 1));
     typeUsersId := nullish (prop user (js "typeUsersId")) (JNum (Int 3));
     notificationPrefs :=
       {| messages :=
            nullish (opt_prop (prop user (js "notificationPrefs")) (js "messages"))
                    (JBool true);
          newProperties :=
            nullish (opt_prop (prop user (js "notificationPrefs")) (js "newProperties"))
                    (JBool true);
          payments :=
            nullish (opt_prop (prop user (js "notificationPrefs")) (js "payments"))
                    (JBool true);
          reservations :=
            nullish (opt_prop (prop user (js "notificationPrefs")) (js "reservations"))
                    (JBool true);
          visits :=
            nullish (opt_prop (prop user (js "notificationPrefs")) (js "visits"))
                    (JBool true) |} |}.

Section Fetching.
Context `{QueryEngine}.

(** The [catch] logs to the console and throws the error again. *)
Definition fetchUsers : M (list User) :=
  try_catch
    (let! users := getCollection (js "Users") in
     ret (map toUser users))
    (fun e => throw e).

End Fetching.

(** [roleMap] and [statusMap] are objects indexed by number: the keys are
    the decimal strings of the integers below, and a number used as a key
    is looked up under its own string, which is one of them only for that
    integer. *)
Definition roleMap : gmap Z jsstring :=
  <[1 := js "Visiteurs"]>
  (<[2 := js "Locataires"]>
  (<[3 := js "Proprietaire"]>
  (<[4 := js "Administrateur"]>
  (<[6 := js "Agence immobilière"]> ∅)))).

Definition statusMap : gmap Z jsstring :=
  <[1 := js "actif"]> (<[0 := js "banni"]> (<[2 := js "en_attente"]> ∅)).

(** [table[n]] *)
Definition at_number (table : gmap Z jsstring) (n : number) : value :=
  match n with
  | Int z => from_option JStr JUndefined (table !! z)
  | _ => JUndefined
  end.

Definition getRoleLabel (typeUsersId : number) : value :=
  or_else (at_number roleMap typeUsersId) (JStr (js "Inconnu")).

Definition getStatusLabel (statut : number) : value :=
  or_else (at_number statusMap statut) (JStr (js "Inconnu")).

End UserManagement.
Export UserManagement.

(** ** The mock data module: [mockUsers] *)

Module Mock.

(** A non-negative finite double, [mant * 2 ^ expo] with a significand of
    at most 53 bits.  [Math.random()] returns one that is below 1. *)
Record double := { mant : Z; expo : Z }.

Definition unit_interval (r : double) : Prop :=
  0 <= mant r < 2 ^ 53 /\ -1074 <= expo r /\
  (mant r = 0 \/ (expo r < 0 /\ mant r < 2 ^ (- expo r))).

(** Rounding of [m * 2 ^ e] to 53 bits, to nearest, ties to even. *)
Definition round (m e : Z) : double :=
  let s := Z.log2 m - 52 in
  if s <=? 0 then {| mant := m; expo := e |}
  else
    let q := m / 2 ^ s in
    let r := m mod 2 ^ s in
    {| mant := if (2 ^ (s - 1) <? r) || ((r =? 2 ^ (s - 1)) && Z.odd q)
               then q + 1 else q;
       expo := e + s |}.

(** [r * n] and [n + r] for an integer [n] that is a double, and
    [Math.floor(r)], [r > 0.5]. *)
Definition times (r : double) (n : Z) : double := round (mant r * n) (expo r).

Definition plus (n : Z) (r : double) : double :=
  if 0 <=? expo r then round (n + mant r * 2 ^ expo r) 0
  else round (n * 2 ^ (- expo r) + mant r) (expo r).

Definition floor (r : double) : Z :=
  if 0 <=? expo r then mant r * 2 ^ expo r else mant r / 2 ^ (- expo r).

Definition above_half (r : double) : bool :=
  if 0 <=? expo r then 0 <? mant r else 2 ^ (- expo r) <? 2 * mant r.

(** The array literal [mockUsers] starts from. *)
Definition first_user : User :=
  {| uid := JStr (js "1");
     nom := JStr (js "Dupont");
     prenom := JStr (js "Jean");
     email := JStr (js "jean.dupont@email.com");
     telephone := JStr (js "+33612345678");
     photoProfil := JStr (js "https://images.pexels.com/photos/220453/pexels-photo-220453.jpeg?w=150&h=150&fit=crop");
     cniNumber := JStr (js "FR123456789");
     CNIDateDelivrer := JStr (js "2020-01-15");
     cniExpirationDate := JStr (js "2030-01-15");
     cniRecto := JStr (js "cni-recto-1.jpg");
     cniVerso := JStr (js "cni-verso-1.jpg");
     addresse := JStr (js "123 rue de Paris, 75001 Paris");
     fcmToken := JStr (js "fcm-token-1");
     lastUpdated := JStr (js "2025-01-27");
     etat := JNum (Int 1);
     statut := JNum (Int 1);
     typeUsersId := JNum (Int 1);
     notificationPrefs :=
       {| messages := JBool true; newProperties := JBool true;
          payments := JBool true; reservations := JBool true;
          visits := JBool true |} |}.

Section Generation.
(** The outcomes of the successive calls of [Math.random()]. *)
Variable random : nat -> double.

(** The record pushed at index [i], when [k] outcomes have been used. *)
Definition generated (i : Z) (k : nat) : User :=
  {| uid := JStr (digits i);
     nom := JStr (js "Nom" ++ digits i);
     prenom := JStr (js "Prenom" ++ digits i);
     email := JStr (js "user" ++ digits i ++ js "@email.com");
     telephone :=
       JStr (js "+336"
             ++ digits (floor (plus 10000000 (times (random k) 90000000))));
     photoProfil :=
       JStr (js "https://images.pexels.com/photos/" ++ digits (220453 + i)
             ++ js "/pexels-photo-" ++ digits (220453 + i)
             ++ js ".jpeg?w=150&h=150&fit=crop");
     cniNumber :=
       JStr (js "FR"
             ++ digits (floor (plus 100000000 (times (random (k + 1)%nat) 900000000))));
     CNIDateDelivrer := JStr (js "2020-01-15");
     cniExpirationDate := JStr (js "2030-01-15");
     cniRecto := JStr (js "cni-recto-" ++ digits i ++ js ".jpg");
     cniVerso := JStr (js "cni-verso-" ++ digits i ++ js ".jpg");
     addresse := JStr (digits i ++ js " rue de Paris, 75001 Paris");
     fcmToken := JStr (js "fcm-token-" ++ digits i);
     lastUpdated :=
       JStr (js "2025-01-" ++ digits (floor (times (random (k + 2)%nat) 27) + 1));
     etat := JNum (Int (floor (times (random (k + 3)%nat) 3)));
     statut := JNum (Int (floor (times (random (k + 4)%nat) 3)));
     typeUsersId := JNum (Int (floor (times (random (k + 5)%nat) 3) + 1));
     notificationPrefs :=
       {| messages := JBool (above_half (random (k + 6)%nat));
          newProperties := JBool (above_half (random (k + 7)%nat));
          payments := JBool (above_half (random (k + 8)%nat));
          reservations := JBool (above_half (random (k + 9)%nat));
          visits := JBool (above_half (random (k + 10)%nat)) |} |}.

(** [for (let i = 2; i <= 40; i++) mockUsers.push({ ... })], from index
    [i] on; the state is the array and the number of outcomes used. *)
Equations? generate (i : Z) (st : list User * nat) : list User * nat
    by wf (Z.to_nat (41 - i)) lt :=
  generate i st with decide (i <= 40) => {
    | left _ := generate (i + 1) (fst st ++ [generated i (snd st)], (snd st + 11)%nat);
    | right _ := st }.
Proof. lia. Qed.

Definition mockUsers : list User := fst (generate 2 ([first_user], 0%nat)).

End Generation.

End Mock.
Export Mock.

(** ** A reference query engine and sample backends

    The engine of queries that carry no clause: every document of the
    collection, by document id. *)

Module Reference.

(** Strings compared code unit by code unit. *)
Fixpoint lex_lt (a b : jsstring) : bool :=
  match a, b with
  | _, [] => false
  | [], _ :: _ => true
  | x :: a', y :: b' => (x <? y)%N || ((x =? y)%N && lex_lt a' b')
  end.

(** Every document is selected; documents come by increasing id. *)
#[export] Instance by_id : QueryEngine.
Proof.
  refine {| selects := fun _ _ _ => true;
            precedes := fun _ a b => lex_lt (snap_id a) (snap_id b) |}.
  - intros _ a. induction (snap_id a) as [|x s IH]; simpl; [reflexivity|].
    rewrite N.ltb_irrefl, N.eqb_refl, IH. reflexivity.
  - intros _ a b c. generalize (snap_id a) (snap_id b) (snap_id c).
    clear a b c. intros a. induction a as [|x a IH]; intros [|y b] [|z c];
      simpl; try discriminate; try reflexivity.
    rewrite !orb_true_iff, !andb_true_iff, !N.ltb_lt, !N.eqb_eq.
    intros [Hxy|[-> Hab]] [Hyz|[Heq Hbc]]; subst.
    + left; lia.
    + left; assumption.
    + left; assumption.
    + right; split; [reflexivity|]. apply (IH b); assumption.
  - intros _ a b. generalize (snap_id a) (snap_id b).
    clear a b. intros a. induction a as [|x a IH]; intros [|y b] Hne;
      simpl; try tauto.
    rewrite !orb_true_iff, !andb_true_iff, !N.ltb_lt, !N.eqb_eq.
    destruct (N.lt_trichotomy x y) as [Hlt|[->|Hgt]]; [tauto| |tauto].
    destruct (IH b) as [Hab|Hba]; [congruence|tauto|tauto].
Defined.

(** A backend that answers, holding the given collections at time 1000. *)
Definition backend (docs : gmap jsstring (gmap jsstring object)) : Backend :=
  {| documents := docs; clock := 1000; failure := None; requests := [];
     listeners := []; auto_ids := fun n => js "auto" ++ digits (Z.of_nat n);
     issued := 0 |}.

(** A document with the single field [nom]. *)
Definition named (n : string) : object := {[ js "nom" := JStr (js n) ]}.

(** The collection "Users": [u1] to [u4] with a [nom], [u5] empty. *)
Definition five_users : gmap jsstring (gmap jsstring object) :=
  {[ js "Users" :=
       <[js "u1" := named "Ada"]>
       (<[js "u2" := named "Bob"]>
       (<[js "u3" := named "Cleo"]>
       (<[js "u4" := named "Dan"]>
       (<[js "u5" := ∅]> ∅)))) ]}.

(** The snapshot of the user [id], whose [nom] is [n]. *)
Definition user_snapshot (id n : string) : Snapshot :=
  {| snap_id := js id; snap_data := named n |}.

(** All users, by pages of two, starting after [cursor]. *)
Definition first_page (cursor : option Snapshot) : QueryOptions :=
  {| collectionName := js "Users"; conditions := []; orders := [];
     pageSize := Some (Int 2); startAfterDoc := cursor |}.

(** A batch of one valid "set" followed by an operation of an unknown
    kind. *)
Definition mixed_batch : list BatchOperation :=
  [ {| op_type := js "set";
       op_ref := {| ref_collection := js "Users"; ref_id := js "u1" |};
       op_data := JObj (named "Eve"); op_merge := JUndefined |};
    {| op_type := js "upsert";
       op_ref := {| ref_collection := js "Users"; ref_id := js "u2" |};
       op_data := JObj (named "Fay"); op_merge := JUndefined |} ].

(** A batch of one "set" whose data is an array. *)
Definition array_batch : list BatchOperation :=
  [ {| op_type := js "set";
       op_ref := {| ref_collection := js "Users"; ref_id := js "u1" |};
       op_data := JArr [JStr (js "Eve")]; op_merge := JUndefined |} ].

(** A document whose data has a field [id] of its own, and the
    collection "Users" holding it as [u1]. *)
Definition ada_with_id : object := <[js "id" := JStr (js "zz")]> (named "Ada").

Definition own_id_user : gmap jsstring (gmap jsstring object) :=
  {[ js "Users" := {[ js "u1" := ada_with_id ]} ]}.

(** The generator that always returns one half. *)
Definition always_half (n : nat) : double := {| mant := 2 ^ 52; expo := -53 |}.

End Reference.
Export Reference.

(** ** The vocabulary of the statements *)

Module Statements.

(** Empty or made of white space only. *)
Definition blank (s : jsstring) : Prop :=
  Forall (fun c => is_white_space c = true) s.

(** The call throws [Error(msg)] and leaves the backend as it was: no
    request was sent, nothing was stored, no listener attached. *)
Definition rejected {A} (msg : string) (call : M A) (st : Backend) : Prop :=
  call st = (Throw (error (js msg)), st).

(** The fields declared [string] that [fetchUsers] reads from the document
    with [|| '']. *)
Definition string_fields : list (string * (User -> value)) :=
  [("nom", nom); ("prenom", prenom); ("email", email);
   ("telephone", telephone); ("photoProfil", photoProfil);
   ("cniNumber", cniNumber); ("CNIDateDelivrer", CNIDateDelivrer);
   ("cniExpirationDate", cniExpirationDate); ("cniRecto", cniRecto);
   ("cniVerso", cniVerso); ("addresse", addresse); ("fcmToken", fcmToken);
   ("lastUpdated", lastUpdated)]%string.

(** The notification channels, read with [?? true]. *)
Definition channels : list (string * (NotificationPrefs -> value)) :=
  [("messages", messages); ("newProperties", newProperties);
   ("payments", payments); ("reservations", reservations);
   ("visits", visits)]%string.

(** The query queryCollection builds from its options. *)
Definition query_of (options : QueryOptions) : Query :=
  let q := limited (collectionName options) (conditions options)
             (orders options) (pageSize options) in
  match startAfterDoc options with
  | Some d => query q [startAfter d]
  | None => q
  end.

(** Its limit and cursor clauses. *)
Definition limit_clause (pageSize : option number) : list QueryConstraint :=
  match pageSize with
  | Some n => if number_truthy n then [limit n] else []
  | None => []
  end.

Definition cursor_clause (cursor : option Snapshot) : list QueryConstraint :=
  match cursor with
  | Some d => [startAfter d]
  | None => []
  end.

(** The options of the same query, for another page. *)
Definition paged (options : QueryOptions) (size : option number)
    (cursor : option Snapshot) : QueryOptions :=
  {| collectionName := collectionName options; conditions := conditions options;
     orders := orders options; pageSize := size; startAfterDoc := cursor |}.

(** The checks that precede the [try] of queryCollection. *)
Definition passes_validation (options : QueryOptions) : bool :=
  isValidString (JStr (collectionName options))
  && negb (bad_pageSize (pageSize options))
  && negb (existsb bad_condition (conditions options))
  && negb (existsb bad_order (orders options)).

(** The page of at most [n] documents of the query of [options] after
    [cursor]. *)
Definition page_after `{QueryEngine} (options : QueryOptions) (n : Z)
    (cursor : option Snapshot) docs : list Snapshot :=
  take (Z.to_nat n)
    (match cursor with
     | Some c =>
         filter (fun d => precedes (orders_of (query_of options)) c d = true)
                (matching (query_of options) docs)
     | None => matching (query_of options) docs
     end).

(** An operation that runBatch itself refuses: a type that is not "set",
    "update" or "delete", or a "set" or "update" whose data fails the test
    [!op.data || typeof op.data !== "object"] (missing, null, or not an
    object). *)
Definition malformed (op : BatchOperation) : Prop :=
  op_type op ∉ [js "set"; js "update"; js "delete"] \/
  (op_type op ∈ [js "set"; js "update"] /\ not_an_object (op_data op) = true).

(** The commit of the writes [ws] went out from [st], and was atomic:
    after [out] the stored documents are those of [st] with all of [ws]
    applied when the call returned, and those of [st] when it threw. *)
Definition committed_atomically (ws : list Write) (st : Backend)
    (out : Completion unit * Backend) : Prop :=
  requests (snd out) = ReqCommit ws :: requests st /\
  match fst out with
  | Return _ =>
      apply_writes (clock st) ws (documents st) = Return (documents (snd out))
  | Throw _ => documents (snd out) = documents st
  end.

(** The write an operation stands for, when the write batch takes it: the
    batch takes key-value objects only. *)
Definition write_of (op : BatchOperation) : option Write :=
  if bool_decide (op_type op = js "set") then
    match op_data op with
    | JObj fields => Some (WSet (op_ref op) fields (truthy (op_merge op)))
    | _ => None
    end
  else if bool_decide (op_type op = js "update") then
    match op_data op with
    | JObj fields => Some (WUpdate (op_ref op) fields)
    | _ => None
    end
  else if bool_decide (op_type op = js "delete") then Some (WDelete (op_ref op))
  else None.

(** The object literal setDocument writes for plain-object data. *)
Definition stamped (fields : object) : object :=
  <[js "createdAt" := nullish (field fields (js "createdAt")) JServerTimestamp]>
  (<[js "updatedAt" := JServerTimestamp]> fields).

(** What a call returned: the size of the page and the cursor. *)
Definition returned (c : Completion QueryResult * Backend)
    : option (nat * option Snapshot) :=
  match fst c with
  | Return r => Some (length (data r), lastVisible r)
  | Throw _ => None
  end.

End Statements.
Export Statements.

(** ** Regular expressions, as far as [isValidEmail] needs them *)

Module Regex.

(** Patterns over code units (no [u] flag).  [test] is the match of the
    whole string, which is what a pattern between [^] and [$] asks for. *)
Inductive regex :=
| NoMatch
| Epsilon
| Chars (p : N -> bool)
| Seq (r1 r2 : regex)
| Alt (r1 r2 : regex)
| Star (r : regex).

(** [r+] *)
Definition Plus (r : regex) : regex := Seq r (Star r).

Fixpoint nullable (r : regex) : bool :=
  match r with
  | NoMatch => false
  | Epsilon => true
  | Chars _ => false
  | Seq r1 r2 => nullable r1 && nullable r2
  | Alt r1 r2 => nullable r1 || nullable r2
  | Star _ => true
  end.

(** What is left of [r] to match once [c] has been read. *)
Fixpoint derive (c : N) (r : regex) : regex :=
  match r with
  | NoMatch => NoMatch
  | Epsilon => NoMatch
  | Chars p => if p c then Epsilon else NoMatch
  | Seq r1 r2 =>
      if nullable r1 then Alt (Seq (derive c r1) r2) (derive c r2)
      else Seq (derive c r1) r2
  | Alt r1 r2 => Alt (derive c r1) (derive c r2)
  | Star r1 => Seq (derive c r1) (Star r1)
  end.

Fixpoint test (r : regex) (s : jsstring) : bool :=
  match s with
  | [] => nullable r
  | c :: s' => test (derive c r) s'
  end.

(** The strings a pattern matches. *)
Inductive matches : regex -> jsstring -> Prop :=
| matches_empty : matches Epsilon []
| matches_class p c : p c = true -> matches (Chars p) [c]
| matches_seq r1 r2 s1 s2 :
    matches r1 s1 -> matches r2 s2 -> matches (Seq r1 r2) (s1 ++ s2)
| matches_alt_l r1 r2 s : matches r1 s -> matches (Alt r1 r2) s
| matches_alt_r r1 r2 s : matches r2 s -> matches (Alt r1 r2) s
| matches_star_nil r : matches (Star r) []
| matches_star_cons r s1 s2 :
    matches r s1 -> matches (Star r) s2 -> matches (Star r) (s1 ++ s2).

End Regex.
Export Regex.

Module Validation.

(** [\s]: the white space of [trim]. [[^\s@]]: anything else but "@". *)
Definition not_space_nor_at (c : N) : bool :=
  negb (is_white_space c || (c =? 64)%N).

(** [/^[^\s@]+@[^\s@]+\.[^\s@]+$/] *)
Definition emailRegex : regex :=
  Seq (Plus (Chars not_space_nor_at))
   (Seq (Chars (N.eqb 64))
    (Seq (Plus (Chars not_space_nor_at))
     (Seq (Chars (N.eqb 46))
      (Plus (Chars not_space_nor_at))))).

Definition isValidEmail (email : jsstring) : bool := test emailRegex email.

(** A part of an address: not empty, without white space and without "@". *)
Definition address_part (s : jsstring) : Prop :=
  s <> [] /\ Forall (fun c => is_white_space c = false /\ c <> 64%N) s.

End Validation.
Export Validation.

(** ** The other Firebase SDKs, seen from their callers

    The authentication and storage SDKs are third-party code.  Nothing in
    this repository looks into what they do, so they are the methods of a
    class each, over a state of their own; calls are awaited one after the
    other, as for the Firestore facade. *)

Module Sdk.

Definition Async (S A : Type) : Type := S -> Completion A * S.

Definition pure {S A} (a : A) : Async S A := fun st => (Return a, st).
Definition raise {S A} (e : Error) : Async S A := fun st => (Throw e, st).
Definition await {S A B} (m : Async S A) (k : A -> Async S B) : Async S B :=
  fun st => match m st with
            | (Return a, st') => k a st'
            | (Throw e, st') => (Throw e, st')
            end.
(** [try { m } catch (error) { h error }] *)
Definition catch {S A} (m : Async S A) (h : Error -> Async S A) : Async S A :=
  fun st => match m st with
            | (Return a, st') => (Return a, st')
            | (Throw e, st') => h e st'
            end.

Notation "'await!' x ':=' m 'in' k" := (await m (fun x => k))
  (at level 10, x pattern, m at level 100, k at level 200, only parsing).

(** [firebase/auth], behind the handle [auth] (and [googleProvider]). *)
Class AuthSdk := {
  Auth : Type;
  FirebaseUser : Type;
  UserCredential : Type;
  credential_user : UserCredential -> FirebaseUser;
  currentUser : Auth -> option FirebaseUser;
  createUserWithEmailAndPassword : jsstring -> jsstring -> Async Auth UserCredential;
  signInWithEmailAndPassword : jsstring -> jsstring -> Async Auth UserCredential;
  signInWithPopup : Async Auth UserCredential;
  signOut : Async Auth unit;
  sendPasswordResetEmail : jsstring -> Async Auth unit;
  (** [updateProfile(user, { displayName })] *)
  updateProfile : FirebaseUser -> value -> Async Auth unit;
  getIdToken : FirebaseUser -> bool -> Async Auth jsstring;
  (** returns the handle that stops the listening *)
  onAuthStateChanged : value -> Async Auth nat
}.

(** What is uploaded: a [File], a [Blob] that is no [File], or anything
    else.  A [File] is a [Blob]. *)
Inductive Upload :=
| AFile (name : jsstring) (bytes : list N)
| ABlob (bytes : list N)
| NoBlob (v : value).

Definition instanceof_File (u : Upload) : bool :=
  match u with AFile _ _ => true | _ => false end.

Definition instanceof_Blob (u : Upload) : bool :=
  match u with AFile _ _ | ABlob _ => true | NoBlob _ => false end.

(** [firebase/storage], behind the handle [storage]. *)
Class StorageSdk := {
  Storage : Type;
  StorageReference : Type;
  ref : jsstring -> Async Storage StorageReference;
  uploadBytes : StorageReference -> Upload -> Async Storage unit;
  getDownloadURL : StorageReference -> Async Storage jsstring;
  deleteObject : StorageReference -> Async Storage unit
}.

End Sdk.
Export Sdk.

(** ** src/firebase/firebaseService.tsx: authentication *)

Module Authentication.

Section Wrappers.
Context `{AuthSdk}.

(** [displayName] is [JUndefined] when the argument is left out. *)
Definition signUpWithEmail (email password : jsstring) (displayName : value)
    : Async Auth FirebaseUser :=
  if negb (isValidEmail email)
  then raise (error (js "Format d'email invalide"))
  else if negb (isValidString (JStr password))
  then raise (error (js "Le mot de passe ne peut pas être vide"))
  else
    catch
      (await! credential := createUserWithEmailAndPassword email password in
       let user := credential_user credential in
       await! _ :=
         (if isValidString displayName
          then updateProfile user displayName
          else pure tt) in
       pure user)
      (fun e => raise (error (js "Échec de l'inscription : " ++ message e))).

Definition signInWithEmail (email password : jsstring) : Async Auth UserCredential :=
  if negb (isValidEmail email)
  then raise (error (js "Format d'email invalide"))
  else if negb (isValidString (JStr password))
  then raise (error (js "Le mot de passe ne peut pas être vide"))
  else
    catch (signInWithEmailAndPassword email password)
      (fun e => raise (error (js "Échec de la connexion : " ++ message e))).

Definition signInWithGoogle : Async Auth UserCredential :=
  catch signInWithPopup
    (fun e => raise (error (js "Échec de la connexion Google : " ++ message e))).

Definition logout : Async Auth unit :=
  catch signOut
    (fun e => raise (error (js "Échec de la déconnexion : " ++ message e))).

Definition onAuthChanged (callback : value) : Async Auth nat :=
  if negb (bool_decide (typeof callback = js "function"))
  then raise (error (js "Le callback doit être une fonction"))
  else onAuthStateChanged callback.

Definition sendReset (email : jsstring) : Async Auth unit :=
  if negb (isValidEmail email)
  then raise (error (js "Format d'email invalide"))
  else
    catch (sendPasswordResetEmail email)
      (fun e => raise (error (js "Échec de la réinitialisation du mot de passe : "
                              ++ message e))).

(** The result is [None] for [null] and [Some tt] for the [undefined] of a
    function that ends without [return]. *)
Definition updateUserDisplayName (displayName : jsstring) : Async Auth (option unit) :=
  fun st =>
    match currentUser st with
    | None => pure None st
    | Some user =>
        (if negb (isValidString (JStr displayName))
         then raise (error (js "Le nom d'affichage ne peut pas être vide"))
         else
           catch
             (await! _ := updateProfile user (JStr displayName) in pure (Some tt))
             (fun e => raise (error (js "Échec de la mise à jour du nom d'affichage : "
                                     ++ message e)))) st
    end.

(** [None] is [null]. *)
Definition getCurrentUserToken : Async Auth (option jsstring) :=
  fun st =>
    match currentUser st with
    | None => pure None st
    | Some user =>
        catch
          (await! token := getIdToken user true in pure (Some token))
          (fun e => raise (error (js "Échec de la récupération du jeton : "
                                  ++ message e))) st
    end.

End Wrappers.

End Authentication.
Export Authentication.

(** ** src/firebase/firebaseService.tsx: storage *)

Module FileStorage.

Section Wrappers.
Context `{StorageSdk}.

Definition uploadFile (path : jsstring) (fileOrBlob : Upload) : Async Storage jsstring :=
  if negb (isValidString (JStr path))
  then raise (error (js "Chemin de stockage invalide"))
  else if negb (instanceof_File fileOrBlob || instanceof_Blob fileOrBlob)
  then raise (error (js "Un fichier ou Blob est requis"))
  else
    catch
      (await! storageRef := ref path in
       await! _ := uploadBytes storageRef fileOrBlob in
       getDownloadURL storageRef)
      (fun e => raise (error (js "Échec du téléchargement du fichier : " ++ message e))).

Definition getFileURL (path : jsstring) : Async Storage jsstring :=
  if negb (isValidString (JStr path))
  then raise (error (js "Chemin de stockage invalide"))
  else
    catch
      (await! storageRef := ref path in getDownloadURL storageRef)
      (fun e => raise (error (js "Échec de la récupération de l'URL du fichier : "
                              ++ message e))).

Definition deleteFile (path : jsstring) : Async Storage unit :=
  if negb (isValidString (JStr path))
  then raise (error (js "Chemin de stockage invalide"))
  else
    catch
      (await! storageRef := ref path in deleteObject storageRef)
      (fun e => raise (error (js "Échec de la suppression du fichier : " ++ message e))).

End Wrappers.

End FileStorage.
Export FileStorage.

(** ** src/firebase/firebaseService.tsx: transactions *)

Module FsTransaction.

Section Wrapper.
(** [runTransaction(db, fn)] of the Firestore client: what it does depends
    on the function it is handed. *)
Variable runTransaction : value -> M value.

Definition runFsTransaction (transactionFn : value) : M value :=
  if negb (bool_decide (typeof transactionFn = js "function"))
  then throw (error (js "Une fonction de transaction doit être fournie"))
  else
    try_catch (runTransaction transactionFn)
      (fun e => throw (error (js "Échec de la transaction : " ++ message e))).

End Wrapper.

End FsTransaction.
Export FsTransaction.

(** ** The user-management screen: its handlers

    The component keeps its state in hooks; a handler reads the state of
    the render it was created in and queues updates.  One run of a handler
    is a function from that state and the backend to the state after the
    queued updates and the backend after the awaited calls. *)

Module Screen.

Record State := {
  users : list User;
  editUser : option User;
  newUser : object;
  showAddModal : bool;
  error : option jsstring;
  actionLoading : option jsstring
}.

Definition setUsers (l : list User) (s : State) : State :=
  {| users := l; editUser := editUser s; newUser := newUser s;
     showAddModal := showAddModal s; error := error s;
     actionLoading := actionLoading s |}.

Definition setEditUser (u : option User) (s : State) : State :=
  {| users := users s; editUser := u; newUser := newUser s;
     showAddModal := showAddModal s; error := error s;
     actionLoading := actionLoading s |}.

Definition setNewUser (o : object) (s : State) : State :=
  {| users := users s; editUser := editUser s; newUser := o;
     showAddModal := showAddModal s; error := error s;
     actionLoading := actionLoading s |}.

Definition setShowAddModal (b : bool) (s : State) : State :=
  {| users := users s; editUser := editUser s; newUser := newUser s;
     showAddModal := b; error := error s;
     actionLoading := actionLoading s |}.

Definition setError (e : option jsstring) (s : State) : State :=
  {| users := users s; editUser := editUser s; newUser := newUser s;
     showAddModal := showAddModal s; error := e;
     actionLoading := actionLoading s |}.

Definition setActionLoading (a : option jsstring) (s : State) : State :=
  {| users := users s; editUser := editUser s; newUser := newUser s;
     showAddModal := showAddModal s; error := error s;
     actionLoading := a |}.

(** [v === s] for a string [s] *)
Definition is_string (v : value) (s : jsstring) : bool :=
  match v with
  | JStr t => bool_decide (t = s)
  | _ => false
  end.

(** The notification preferences an object holds. *)
Definition prefs_of (v : value) : NotificationPrefs :=
  {| messages := prop v (js "messages");
     newProperties := prop v (js "newProperties");
     payments := prop v (js "payments");
     reservations := prop v (js "reservations");
     visits := prop v (js "visits") |}.

(** [{ ...user, ...updateData }], as far as the fields of [User] go. *)
Definition assign (user : User) (updateData : object) : User :=
  let over (k : jsstring) (v : value) := default v (updateData !! k) in
  {| uid := over (js "uid") (uid user);
     nom := over (js "nom") (nom user);
     prenom := over (js "prenom") (prenom user);
     email := over (js "email") (email user);
     telephone := over (js "telephone") (telephone user);
     photoProfil := over (js "photoProfil") (photoProfil user);
     cniNumber := over (js "cniNumber") (cniNumber user);
     CNIDateDelivrer := over (js "CNIDateDelivrer") (CNIDateDelivrer user);
     cniExpirationDate := over (js "cniExpirationDate") (cniExpirationDate user);
     cniRecto := over (js "cniRecto") (cniRecto user);
     cniVerso := over (js "cniVerso") (cniVerso user);
     addresse := over (js "addresse") (addresse user);
     fcmToken := over (js "fcmToken") (fcmToken user);
     lastUpdated := over (js "lastUpdated") (lastUpdated user);
     etat := over (js "etat") (etat user);
     statut := over (js "statut") (statut user);
     typeUsersId := over (js "typeUsersId") (typeUsersId user);
     notificationPrefs :=
       match updateData !! js "notificationPrefs" with
       | Some v => prefs_of v
       | None => notificationPrefs user
       end |}.

(** [userData as User]: the cast checks nothing, a missing property reads
    as [undefined]. *)
Definition as_User (userData : object) : User :=
  {| uid := field userData (js "uid");
     nom := field userData (js "nom");
     prenom := field userData (js "prenom");
     email := field userData (js "email");
     telephone := field userData (js "telephone");
     photoProfil := field userData (js "photoProfil");
     cniNumber := field userData (js "cniNumber");
     CNIDateDelivrer := field userData (js "CNIDateDelivrer");
     cniExpirationDate := field userData (js "cniExpirationDate");
     cniRecto := field userData (js "cniRecto");
     cniVerso := field userData (js "cniVerso");
     addresse := field userData (js "addresse");
     fcmToken := field userData (js "fcmToken");
     lastUpdated := field userData (js "lastUpdated");
     etat := field userData (js "etat");
     statut := field userData (js "statut");
     typeUsersId := field userData (js "typeUsersId");
     notificationPrefs := prefs_of (field userData (js "notificationPrefs")) |}.

(** The part of [handleUserAction] after the [switch], for the actions
    that write: the awaited update, then the list, or the [catch]. *)
Definition update_status (userId action : jsstring) (updateData : object)
    (s : State) (st : Backend) : State * Backend :=
  match updateDocument (js "Users") userId (JObj updateData) st with
  | (Return _, st') =>
      (setUsers
         (map (fun user => if is_string (uid user) userId
                           then assign user updateData else user)
              (users s)) s,
       st')
  | (Throw _, st') =>
      (setError (Some (js "Erreur lors de l'action " ++ action
                       ++ js ". Veuillez réessayer.")) s,
       st')
  end.

(** [handleUserAction(userId, action)]; the [finally] runs on every path. *)
Definition handleUserAction (userId action : jsstring) (s : State) (st : Backend)
    : State * Backend :=
  let s := setActionLoading (Some userId) s in
  let (s, st) :=
    if bool_decide (action = js "approve")
    then update_status userId action {[ js "statut" := JNum (Int 1) ]} s st
    else if bool_decide (action = js "reject")
    then update_status userId action {[ js "statut" := JNum (Int 2) ]} s st
    else if bool_decide (action = js "ban")
    then update_status userId action {[ js "statut" := JNum (Int 0) ]} s st
    else if bool_decide (action = js "edit")
    then
      match find (fun u => is_string (uid u) userId) (users s) with
      | Some user => (setEditUser (Some user) s, st)
      | None => (s, st)
      end
    else (s, st) in
  (setActionLoading None s, st).

(** The object the form of the add dialog builds: [now] is [Date.now()]
    and [isoNow] is [new Date().toISOString()]. *)
Definition userData (newUser : object) (now : Z) (isoNow : jsstring) : object :=
  <[js "notificationPrefs" :=
      JObj (<[js "messages" := JBool true]>
           (<[js "newProperties" := JBool true]>
           (<[js "payments" := JBool true]>
           (<[js "reservations" := JBool true]>
           (<[js "visits" := JBool true]> ∅)))))]>
  (<[js "lastUpdated" := JStr isoNow]>
  (<[js "uid" := or_else (field newUser (js "email")) (JStr (digits now))]>
   newUser)).

(** [updateDocument('Users', id, data)] for an id read from an object:
    anything but a string fails the check of the id. *)
Definition updateUser (id : value) (data : value) : M jsstring :=
  match id with
  | JStr id => updateDocument (js "Users") id data
  | _ => throw (Service.error (js "ID de document invalide"))
  end.

(** The [onSubmit] of the add dialog. *)
Definition submitNewUser (now : Z) (isoNow : jsstring) (s : State) (st : Backend)
    : State * Backend :=
  let userData := userData (newUser s) now isoNow in
  match updateUser (field userData (js "uid")) (JObj userData) st with
  | (Return _, st') =>
      (setNewUser
         (<[js "nom" := JStr (js "")]>
         (<[js "prenom" := JStr (js "")]>
         (<[js "email" := JStr (js "")]>
         (<[js "typeUsersId" := JNum (Int 3)]>
         (<[js "statut" := JNum (Int 1)]> ∅)))))
         (setShowAddModal false
            (setUsers (users s ++ [as_User userData]) s)),
       st')
  | (Throw _, st') =>
      (setError (Some (js "Erreur lors de la création de l’utilisateur. Veuillez réessayer.")) s,
       st')
  end.

End Screen.

(** ** The mock data module: [mockTransactions] and [mockContracts] *)

(** [Transaction] and [Contract] of src/types/index.ts; the declared field
    types are erased at run time. *)
Module Transaction.
Record t := {
  id : value;
  amount : value;
  type : value;
  date : value;
  status : value;
  userId : value;
  propertyId : value;
  description : value
}.
End Transaction.

Module Contract.
Record t := {
  id : value;
  tenantId : value;
  ownerId : value;
  propertyId : value;
  startDate : value;
  endDate : value;
  monthlyRent : value;
  status : value;
  signatureStatus : value
}.
End Contract.

Module MockRecords.

(** [array[i]] for an array of strings *)
Definition at_index (array : list jsstring) (i : Z) : value :=
  if i <? 0 then JUndefined
  else from_option JStr JUndefined (array !! Z.to_nat i).

Section Generation.
(** The outcomes of the successive calls of [Math.random()], counted from
    the start of the module. *)
Variable random : nat -> double.

(** [Math.floor(Math.random() * n)], on the outcome number [k] *)
Definition pick (k : nat) (n : Z) : Z := floor (times (random k) n).

(** [Math.random() > 0.5 ? a : b], on the outcome number [k] *)
Definition toss (k : nat) (a b : jsstring) : value :=
  JStr (if above_half (random k) then a else b).

(** [for (let i = ...; i <= hi; i++) array.push(body)], from index [i] on,
    [body] using [draws] outcomes; the state is the array and the number
    of outcomes used. *)
Equations? pushes {A} (body : Z -> nat -> A) (draws : nat) (hi : Z) (i : Z)
    (st : list A * nat) : list A * nat
    by wf (Z.to_nat (hi + 1 - i)) lt :=
  pushes body draws hi i st with decide (i <= hi) => {
    | left _ := pushes body draws hi (i + 1)
                  (fst st ++ [body i (snd st)], (snd st + draws)%nat);
    | right _ := st }.
Proof. lia. Qed.

Definition transaction (i : Z) (k : nat) : Transaction.t :=
  let types := [js "loyer"; js "frais_reservation"; js "abonnement"; js "commission"] in
  let statuses := [js "paye"; js "en_attente"; js "annule"] in
  {| Transaction.id := JStr (digits i);
     Transaction.amount := JNum (Int (pick k 5000 + 100));
     Transaction.type := at_index types (pick (k + 1) (Z.of_nat (length types)));
     Transaction.date := JStr (js "2025-01-" ++ digits (pick (k + 2) 27 + 1));
     Transaction.status :=
       at_index statuses (pick (k + 3) (Z.of_nat (length statuses)));
     Transaction.userId := JStr (digits (pick (k + 4) 40 + 1));
     Transaction.propertyId := JStr (digits (pick (k + 5) 25 + 1));
     Transaction.description := JStr (js "Transaction " ++ digits i) |}.

Definition contract (i : Z) (k : nat) : Contract.t :=
  let statuses := [js "actif"; js "expire"; js "resilié"] in
  {| Contract.id := JStr (digits i);
     Contract.tenantId := JStr (digits (pick k 40 + 1));
     Contract.ownerId := JStr (digits (pick (k + 1) 40 + 1));
     Contract.propertyId := JStr (digits (pick (k + 2) 25 + 1));
     Contract.startDate := JStr (js "2025-01-" ++ digits (pick (k + 3) 27 + 1));
     Contract.endDate := JStr (js "2025-12-" ++ digits (pick (k + 4) 27 + 1));
     Contract.monthlyRent := JNum (Int (pick (k + 5) 3000 + 500));
     Contract.status :=
       at_index statuses (pick (k + 6) (Z.of_nat (length statuses)));
     Contract.signatureStatus := toss (k + 7) (js "signe") (js "en_attente") |}.

(** The outcomes used before the loop of [mockTransactions] starts: those
    of the loop of [mockUsers], and 8 in each of the 23 rounds of the loop
    of [mockProperties] (which is not embedded). *)
Definition used_before_transactions : nat :=
  (snd (generate random 2 ([first_user], 0)) + 23 * 8)%nat.

Definition transactions_loop : list Transaction.t * nat :=
  pushes transaction 6 50 1 ([], used_before_transactions).

Definition mockTransactions : list Transaction.t := fst transactions_loop.

Definition mockContracts : list Contract.t :=
  fst (pushes contract 8 20 1 ([], snd transactions_loop)).

End Generation.

End MockRecords.
Export MockRecords.

(** ** Sample services and the vocabulary of the further statements *)

Module Samples.

(** An authentication service kept in memory: the passwords and display
    names by email, and who is signed in.  A user and a credential are the
    email of the account; a display name has at most 12 code units. *)
Record Directory := {
  passwords : gmap jsstring jsstring;
  displayNames : gmap jsstring value;
  session : option jsstring
}.

Definition in_memory_auth : AuthSdk :=
  {| Auth := Directory;
     FirebaseUser := jsstring;
     UserCredential := jsstring;
     credential_user := fun c => c;
     currentUser := session;
     createUserWithEmailAndPassword := fun email password st =>
       match passwords st !! email with
       | Some _ => (Throw (error (js "auth/email-already-in-use")), st)
       | None =>
           (Return email,
            {| passwords := <[email := password]> (passwords st);
               displayNames := displayNames st;
               session := Some email |})
       end;
     signInWithEmailAndPassword := fun email password st =>
       if bool_decide (passwords st !! email = Some password)
       then (Return email,
             {| passwords := passwords st; displayNames := displayNames st;
                session := Some email |})
       else (Throw (error (js "auth/invalid-credential")), st);
     signInWithPopup := fun st => (Throw (error (js "auth/popup-blocked")), st);
     signOut := fun st =>
       (Return tt,
        {| passwords := passwords st; displayNames := displayNames st;
           session := None |});
     sendPasswordResetEmail := fun _ st => (Return tt, st);
     updateProfile := fun user displayName st =>
       match displayName with
       | JStr name =>
           if (12 <? length name)%nat
           then (Throw (error (js "auth/invalid-display-name")), st)
           else (Return tt,
                 {| passwords := passwords st;
                    displayNames := <[user := displayName]> (displayNames st);
                    session := session st |})
       | _ => (Return tt, st)
       end;
     getIdToken := fun user _ st => (Return (js "token:" ++ user), st);
     onAuthStateChanged := fun _ st => (Return 0%nat, st) |}.

(** Nobody registered, nobody signed in. *)
Definition nobody : Directory :=
  {| passwords := ∅; displayNames := ∅; session := None |}.

(** One account, signed in. *)
Definition ada_signed_in : Directory :=
  {| passwords := {[ js "ada@kinaru.app" := js "s3cret" ]};
     displayNames := ∅;
     session := Some (js "ada@kinaru.app") |}.

(** A bucket kept in memory: the objects by path, a reference being the
    path. *)
Definition in_memory_storage : StorageSdk :=
  {| Storage := gmap jsstring Upload;
     StorageReference := jsstring;
     ref := fun path st => (Return path, st);
     uploadBytes := fun r u st => (Return tt, <[r := u]> st);
     getDownloadURL := fun r st =>
       match st !! r with
       | Some _ => (Return (js "https://storage.kinaru.app/" ++ r), st)
       | None => (Throw (error (js "storage/object-not-found")), st)
       end;
     deleteObject := fun r st =>
       match st !! r with
       | Some _ => (Return tt, delete r st)
       | None => (Throw (error (js "storage/object-not-found")), st)
       end |}.

(** A transaction runner that hands back the function it was given. *)
Definition echo_transaction (fn : value) : M value := ret fn.

(** The backend of [backend docs] when every request fails with [msg]. *)
Definition unreachable (msg : string) (docs : gmap jsstring (gmap jsstring object))
    : Backend :=
  {| documents := docs; clock := 1000; failure := Some (js msg); requests := [];
     listeners := []; auto_ids := fun n => js "auto" ++ digits (Z.of_nat n);
     issued := 0 |}.

(** The screen showing the users [u1] (Ada, role 3) and [u2] (Bob, role 2),
    both active, with nothing open. *)
Definition listed (id n : string) (role : Z) : User :=
  {| uid := JStr (js id); nom := JStr (js n); prenom := JStr (js "");
     email := JStr (js ""); telephone := JStr (js ""); photoProfil := JStr (js "");
     cniNumber := JStr (js ""); CNIDateDelivrer := JStr (js "");
     cniExpirationDate := JStr (js ""); cniRecto := JStr (js "");
     cniVerso := JStr (js ""); addresse := JStr (js ""); fcmToken := JStr (js "");
     lastUpdated := JStr (js ""); etat := JNum (Int 1); statut := JNum (Int 1);
     typeUsersId := JNum (Int role);
     notificationPrefs :=
       {| messages := JBool true; newProperties := JBool true;
          payments := JBool true; reservations := JBool true;
          visits := JBool true |} |}.

Definition two_listed : Screen.State :=
  {| Screen.users := [listed "u1" "Ada" 3; listed "u2" "Bob" 2];
     Screen.editUser := None;
     Screen.newUser :=
       <[js "nom" := JStr (js "Eve")]>
       (<[js "prenom" := JStr (js "")]>
       (<[js "email" := JStr (js "eve@kinaru.app")]>
       (<[js "typeUsersId" := JNum (Int 3)]>
       (<[js "statut" := JNum (Int 1)]> ∅))));
     Screen.showAddModal := true;
     Screen.error := None;
     Screen.actionLoading := None |}.

End Samples.
Export Samples.

Module Outcomes.

(** The call throws [Error(msg)] and leaves the state of the SDK as it was:
    the SDK was not called. *)
Definition refused {S A} (msg : string) (call : Async S A) (st : S) : Prop :=
  call st = (Throw (error (js msg)), st).

(** [call] does what [inner] does, an error of [inner] coming out as
    [Error(prefix + message)]. *)
Definition relays {S A} (prefix : string) (inner call : Async S A) (st : S) : Prop :=
  call st =
    match inner st with
    | (Return a, st') => (Return a, st')
    | (Throw e, st') => (Throw (error (js prefix ++ message e)), st')
    end.

(** The call throws [Error(prefix + msg)] after one request, and stores
    nothing. *)
Definition fails_with {A} (prefix : string) (msg : jsstring) (call : M A)
    (st : Backend) : Prop :=
  exists st',
    call st = (Throw (error (js prefix ++ msg)), st') /\
    documents st' = documents st /\
    length (requests st') = S (length (requests st)).

(** Values that [!data || typeof data !== "object"] refuses. *)
Definition no_object (data : value) : Prop :=
  data = JNull \/ typeof data <> js "object".

(** [user] with another [statut]. *)
Definition with_statut (v : value) (user : User) : User :=
  {| uid := uid user; nom := nom user; prenom := prenom user; email := email user;
     telephone := telephone user; photoProfil := photoProfil user;
     cniNumber := cniNumber user; CNIDateDelivrer := CNIDateDelivrer user;
     cniExpirationDate := cniExpirationDate user; cniRecto := cniRecto user;
     cniVerso := cniVerso user; addresse := addresse user;
     fcmToken := fcmToken user; lastUpdated := lastUpdated user;
     etat := etat user; statut := v; typeUsersId := typeUsersId user;
     notificationPrefs := notificationPrefs user |}.

(** The three actions of the user cards that write, the status each one
    sets and the label that status is shown with. *)
Definition status_actions : list (jsstring * Z * jsstring) :=
  [(js "approve", 1, js "actif"); (js "reject", 2, js "en_attente");
   (js "ban", 0, js "banni")].

(** The message the screen shows when an action failed. *)
Definition action_failed (action : jsstring) : jsstring :=
  js "Erreur lors de l'action " ++ action ++ js ". Veuillez réessayer.".

End Outcomes.
Export Outcomes.

(** * Properties *)

(** ** Strings: what [isValidString] accepts *)

Lemma trimStart_nil_iff s : trimStart s = [] <-> blank s.
Proof.
  unfold blank. induction s as [|c s IH]; simpl.
  - split; [constructor | done].
  - destruct (is_white_space c) eqn:Hc.
    + rewrite IH. split; [by constructor | by inversion 1].
    + split; [done | inversion 1; congruence].
Qed.

Lemma trimStart_blank_iff s : blank (trimStart s) <-> blank s.
Proof.
  unfold blank. induction s as [|c s IH]; simpl; [done|].
  destruct (is_white_space c) eqn:Hc.
  - rewrite IH. split; [by constructor | by inversion 1].
  - done.
Qed.

Lemma blank_rev s : blank (rev s) <-> blank s.
Proof.
  unfold blank. rewrite !Forall_forall.
  split; intros Hb c Hc; apply Hb; apply list_elem_of_In;
    apply list_elem_of_In in Hc.
  - by apply in_rev in Hc.
  - by apply in_rev.
Qed.

Lemma trim_nil_iff s : trim s = [] <-> blank s.
Proof.
  unfold trim, trimEnd.
  etrans; [|apply trimStart_blank_iff].
  etrans; [|apply blank_rev].
  etrans; [|apply trimStart_nil_iff].
  split; intros Heq.
  - apply (f_equal (@rev N)) in Heq. by rewrite rev_involutive in Heq.
  - by rewrite Heq.
Qed.

Lemma isValidString_false_iff s : isValidString (JStr s) = false <-> blank s.
Proof.
  rewrite <- trim_nil_iff. unfold isValidString. simpl.
  destruct (trim s) as [|c t]; simpl; split; done.
Qed.

Lemma isValidString_true_iff s : isValidString (JStr s) = true <-> ~ blank s.
Proof.
  rewrite <- isValidString_false_iff.
  destruct (isValidString (JStr s)); split; congruence.
Qed.

(** ** Validation of the collection name *)

Ltac reject_with H :=
  unfold rejected, addDocument, setDocument, getDocumentById, getCollection,
    updateDocument, deleteDocumentById, queryCollection, listenToCollection,
    listenToDocument; cbn [collectionName]; rewrite H; reflexivity.

(** C5.  For a collection name that is empty or made of white space only,
    each of addDocument, setDocument, getDocumentById, getCollection,
    updateDocument, deleteDocumentById, queryCollection, listenToCollection
    and listenToDocument throws the validation error "Nom de collection
    invalide", whatever its other arguments, and the backend is untouched:
    no request has been sent. *)
Theorem blank_collection_name_rejected `{QueryEngine}
    (name : jsstring) (st : Backend) :
  blank name ->
  (forall data, rejected "Nom de collection invalide" (addDocument name data) st) /\
  (forall id data merge,
     rejected "Nom de collection invalide" (setDocument name id data merge) st) /\
  (forall id, rejected "Nom de collection invalide" (getDocumentById name id) st) /\
  rejected "Nom de collection invalide" (getCollection name) st /\
  (forall id data,
     rejected "Nom de collection invalide" (updateDocument name id data) st) /\
  (forall id, rejected "Nom de collection invalide" (deleteDocumentById name id) st) /\
  (forall conds ords size cursor,
     rejected "Nom de collection invalide"
       (queryCollection {| collectionName := name; conditions := conds;
                           orders := ords; pageSize := size;
                           startAfterDoc := cursor |}) st) /\
  (forall conds ords size callback errorCallback,
     rejected "Nom de collection invalide"
       (listenToCollection name conds ords size callback errorCallback) st) /\
  (forall id callback errorCallback,
     rejected "Nom de collection invalide"
       (listenToDocument name id callback errorCallback) st).
Proof.
  intros Hblank. apply isValidString_false_iff in Hblank.
  repeat split; intros; reject_with Hblank.
Qed.

Lemma blank_collection_name_rejected_witness :
  blank [32; 9; 160]%N /\
  rejected "Nom de collection invalide"
    (getCollection [32; 9; 160]%N) (backend five_users).
Proof.
  assert (Hb : blank [32; 9; 160]%N) by (repeat constructor).
  split; [exact Hb|].
  exact (proj1 (proj2 (proj2 (proj2
    (blank_collection_name_rejected [32; 9; 160]%N (backend five_users) Hb))))).
Defined.

(** ** Role and status labels *)

Lemma roleMap_lookup (z : Z) :
  roleMap !! z =
    if decide (1 = z) then Some (js "Visiteurs")
    else if decide (2 = z) then Some (js "Locataires")
    else if decide (3 = z) then Some (js "Proprietaire")
    else if decide (4 = z) then Some (js "Administrateur")
    else if decide (6 = z) then Some (js "Agence immobilière")
    else None.
Proof.
  unfold roleMap. rewrite !lookup_insert, lookup_empty. reflexivity.
Qed.

Lemma statusMap_lookup (z : Z) :
  statusMap !! z =
    if decide (1 = z) then Some (js "actif")
    else if decide (0 = z) then Some (js "banni")
    else if decide (2 = z) then Some (js "en_attente")
    else None.
Proof.
  unfold statusMap. rewrite !lookup_insert, lookup_empty. reflexivity.
Qed.

(** C10.  getRoleLabel and getStatusLabel return a label for every number:
    'Inconnu' for every number that is not a key of roleMap (keys 1, 2, 3,
    4, 6), respectively of statusMap (keys 0, 1, 2), whether integral or
    not, and the entry of the table for every key. *)
Theorem labels_total (n : number) :
  (n ∉ Int <$> [1; 2; 3; 4; 6] -> getRoleLabel n = JStr (js "Inconnu")) /\
  (n ∉ Int <$> [0; 1; 2] -> getStatusLabel n = JStr (js "Inconnu")) /\
  (forall z label, n = Int z -> roleMap !! z = Some label ->
     getRoleLabel n = JStr label) /\
  (forall z label, n = Int z -> statusMap !! z = Some label ->
     getStatusLabel n = JStr label) /\
  dom roleMap = {[1; 2; 3; 4; 6]} /\ dom statusMap = {[0; 1; 2]}.
Proof.
  repeat split.
  - intros Hout. destruct n as [z| | |]; try reflexivity.
    unfold getRoleLabel, at_number. rewrite roleMap_lookup.
    repeat case_decide; try reflexivity;
      subst z; exfalso; apply Hout; simpl; repeat constructor.
  - intros Hout. destruct n as [z| | |]; try reflexivity.
    unfold getStatusLabel, at_number. rewrite statusMap_lookup.
    repeat case_decide; try reflexivity;
      subst z; exfalso; apply Hout; simpl; repeat constructor.
  - intros z label -> Hl. unfold getRoleLabel, at_number.
    rewrite roleMap_lookup in *.
    repeat case_decide; try discriminate; injection Hl as <-; reflexivity.
  - intros z label -> Hl. unfold getStatusLabel, at_number.
    rewrite statusMap_lookup in *.
    repeat case_decide; try discriminate; injection Hl as <-; reflexivity.
Qed.

Ltac not_listed :=
  let H := fresh in
  intros H; simpl in H;
  repeat match goal with
         | H : _ ∈ _ :: _ |- _ => inversion H; clear H; subst
         | H : _ ∈ [] |- _ => inversion H
         end.

Lemma labels_total_witness :
  getRoleLabel (Int 5) = JStr (js "Inconnu") /\
  getStatusLabel (Frac 1 1) = JStr (js "Inconnu") /\
  getRoleLabel (Int 6) = JStr (js "Agence immobilière").
Proof.
  split; [|split].
  - apply (proj1 (labels_total (Int 5))). not_listed.
  - apply (proj1 (proj2 (labels_total (Frac 1 1)))). not_listed.
  - apply (proj1 (proj2 (proj2 (labels_total (Int 6)))) 6); reflexivity.
Defined.

(** ** fetchUsers *)

Lemma toUser_defaults (user : value) :
  uid (toUser user) = prop user (js "id") /\
  (prop user (js "statut") = JUndefined -> statut (toUser user) = JNum (Int 1)) /\
  (prop user (js "typeUsersId") = JUndefined ->
     typeUsersId (toUser user) = JNum (Int 3)) /\
  (prop user (js "etat") = JUndefined -> etat (toUser user) = JNum (Int 1)) /\
  Forall (fun c =>
            opt_prop (prop user (js "notificationPrefs")) (js (fst c)) = JUndefined ->
            snd c (notificationPrefs (toUser user)) = JBool true) channels /\
  Forall (fun f =>
            prop user (js (fst f)) = JUndefined ->
            snd f (toUser user) = JStr (js "")) string_fields.
Proof.
  unfold toUser.
  split; [reflexivity|].
  repeat split; repeat constructor; cbn [fst snd statut typeUsersId etat
    notificationPrefs messages newProperties payments reservations visits
    nom prenom email telephone photoProfil cniNumber CNIDateDelivrer
    cniExpirationDate cniRecto cniVerso addresse fcmToken lastUpdated];
    intros ->; reflexivity.
Qed.

(** C9.  fetchUsers turns the documents it fetched into User records, one
    per document and in the same order (none is dropped), and in each
    record a missing field has its fixed default: statut 1, typeUsersId 3,
    etat 1, true for every notification channel (when notificationPrefs or
    the channel is missing), the empty string for every string field; uid,
    which is never missing, is the id of the fetched document. *)
Theorem fetchUsers_fills_defaults `{QueryEngine}
    (st st' : Backend) (docs : list value) :
  getCollection (js "Users") st = (Return docs, st') ->
  fetchUsers st = (Return (map toUser docs), st') /\
  length (map toUser docs) = length docs /\
  forall user, user ∈ docs ->
    uid (toUser user) = prop user (js "id") /\
    (prop user (js "statut") = JUndefined -> statut (toUser user) = JNum (Int 1)) /\
    (prop user (js "typeUsersId") = JUndefined ->
       typeUsersId (toUser user) = JNum (Int 3)) /\
    (prop user (js "etat") = JUndefined -> etat (toUser user) = JNum (Int 1)) /\
    Forall (fun c =>
              opt_prop (prop user (js "notificationPrefs")) (js (fst c)) = JUndefined ->
              snd c (notificationPrefs (toUser user)) = JBool true) channels /\
    Forall (fun f =>
              prop user (js (fst f)) = JUndefined ->
              snd f (toUser user) = JStr (js "")) string_fields.
Proof.
  intros Hget. split; [|split].
  - unfold fetchUsers, try_catch, bind. rewrite Hget. reflexivity.
  - apply length_map.
  - intros user _. apply toUser_defaults.
Qed.

Lemma fetchUsers_fills_defaults_witness :
  exists users st',
    fetchUsers (backend five_users) = (Return users, st') /\ length users = 5%nat.
Proof.
  eexists _, _. split.
  - apply (fetchUsers_fills_defaults (backend five_users)).
    vm_compute. reflexivity.
  - reflexivity.
Defined.

(** ** getDocumentById *)

(** For a collection name and a document id that are not blank, and a
    backend that answers: when the collection holds no document of that id,
    getDocumentById returns null and does not throw; when it holds one, it
    returns an object with every field of the data and, when the data has
    no "id" field of its own, the document id under "id".  One read request
    is sent in both cases. *)
Theorem getDocumentById_null_when_missing (name id : jsstring) (st : Backend) :
  ~ blank name -> ~ blank id -> failure st = None ->
  let r := {| ref_collection := name; ref_id := id |} in
  match stored (documents st) r with
  | None => getDocumentById name id st = (Return JNull, with_request st (ReqGet r))
  | Some stored_data =>
      exists fields,
        getDocumentById name id st = (Return (JObj fields), with_request st (ReqGet r)) /\
        (forall k v, stored_data !! k = Some v -> fields !! k = Some v) /\
        (forall k, k <> js "id" -> fields !! k = stored_data !! k) /\
        (stored_data !! js "id" = None -> fields !! js "id" = Some (JStr id))
  end.
Proof.
  intros Hname Hid Hup r.
  apply isValidString_true_iff in Hname, Hid.
  unfold getDocumentById. rewrite Hname, Hid. cbn [negb].
  unfold getDoc, send, try_catch, bind, ret. cbv beta.
  rewrite Hup. cbn [doc_data doc_id].
  fold r. change (documents (with_request st (ReqGet r))) with (documents st).
  destruct (stored (documents st) r) as [stored_data|]; [|reflexivity].
  eexists. split; [reflexivity|]. unfold spread_over. repeat split.
  - intros k v Hk. by apply lookup_union_Some_l.
  - intros k Hk. rewrite lookup_union, lookup_singleton_ne by done.
    by destruct (stored_data !! k).
  - intros Hno. rewrite lookup_union, Hno, lookup_singleton_eq. reflexivity.
Qed.

Lemma getDocumentById_null_when_missing_witness :
  fst (getDocumentById (js "Users") (js "u9") (backend five_users)) = Return JNull.
Proof.
  assert (Hu : ~ blank (js "Users")) by (by apply isValidString_true_iff).
  assert (Hi : ~ blank (js "u9")) by (by apply isValidString_true_iff).
  pose proof (getDocumentById_null_when_missing (js "Users") (js "u9")
                (backend five_users) Hu Hi eq_refl) as Hget.
  change (stored _ _) with (@None object) in Hget.
  cbv beta iota zeta in Hget. rewrite Hget. reflexivity.
Defined.

(** C7, on the code.  When the stored data has a field "id" of its own,
    getDocumentById does not extend the data with the id of the document:
    in [{ id: docSnap.id, ...docSnap.data() }] the data is spread last, so
    its "id" replaces the one just written and the object returned is the
    stored data as it is.  The document id is in the result only when the
    data's own "id" happens to be that very string. *)
Theorem getDocumentById_own_id_field_wins (name id : jsstring) (st : Backend)
    (stored_data : object) (own : value) :
  ~ blank name -> ~ blank id -> failure st = None ->
  let r := {| ref_collection := name; ref_id := id |} in
  stored (documents st) r = Some stored_data ->
  stored_data !! js "id" = Some own ->
  getDocumentById name id st = (Return (JObj stored_data), with_request st (ReqGet r)) /\
  prop (JObj stored_data) (js "id") = own /\
  (own <> JStr id -> prop (JObj stored_data) (js "id") <> JStr id).
Proof.
  intros Hname Hid Hup r Hstored Hown.
  apply isValidString_true_iff in Hname, Hid.
  unfold getDocumentById. rewrite Hname, Hid. cbn [negb].
  unfold getDoc, send, try_catch, bind, ret. cbv beta.
  rewrite Hup. cbn [doc_data doc_id].
  fold r. change (documents (with_request st (ReqGet r))) with (documents st).
  rewrite Hstored. unfold with_id, spread_over, prop. rewrite Hown.
  change (ref_id r) with id.
  assert (Hsame : stored_data ∪ {[ js "id" := JStr id ]} = stored_data).
  { apply map_eq. intros k. rewrite lookup_union.
    destruct (decide (k = js "id")) as [->|Hk].
    - by rewrite Hown, lookup_singleton_eq.
    - rewrite lookup_singleton_ne by done. by destruct (stored_data !! k). }
  rewrite Hsame. by repeat split.
Qed.

Lemma getDocumentById_own_id_field_wins_witness :
  fst (getDocumentById (js "Users") (js "u1") (backend own_id_user))
    = Return (JObj ada_with_id) /\
  prop (JObj ada_with_id) (js "id") = JStr (js "zz") /\
  prop (JObj ada_with_id) (js "id") <> JStr (js "u1").
Proof.
  assert (Hu : ~ blank (js "Users")) by (by apply isValidString_true_iff).
  assert (Hi : ~ blank (js "u1")) by (by apply isValidString_true_iff).
  assert (Hstored : stored (documents (backend own_id_user))
                      {| ref_collection := js "Users"; ref_id := js "u1" |}
                    = Some ada_with_id) by (vm_compute; reflexivity).
  assert (Hown : ada_with_id !! js "id" = Some (JStr (js "zz")))
    by (vm_compute; reflexivity).
  destruct (getDocumentById_own_id_field_wins (js "Users") (js "u1")
              (backend own_id_user) ada_with_id (JStr (js "zz")) Hu Hi eq_refl
              Hstored Hown) as (Hget & Hid & Hother).
  split; [by rewrite Hget|]. split; [exact Hid|]. apply Hother. discriminate.
Defined.

(** ** The query that queryCollection sends *)

Lemma query_of_constraints (options : QueryOptions) :
  q_collection (query_of options) = collectionName options /\
  q_constraints (query_of options) =
    whereClauses (conditions options) ++ orderClauses (orders options)
    ++ limit_clause (pageSize options) ++ cursor_clause (startAfterDoc options).
Proof.
  unfold query_of, limited, limit_clause, cursor_clause.
  destruct options as [name conds ords size cursor]; simpl.
  destruct conds as [|c conds], ords as [|o ords];
    destruct size as [n|]; try destruct (number_truthy n);
    destruct cursor as [d|]; simpl;
    rewrite ?app_nil_r, <- ?app_assoc; simpl; auto.
Qed.

Lemma omap_whereClauses {B} (f : QueryConstraint -> option B) conds :
  (forall c, f (where_ (qc_field c) (qc_op c) (qc_value c)) = None) ->
  omap f (whereClauses conds) = [].
Proof.
  intros Hf. induction conds as [|c conds IH]; simpl; [done|].
  by rewrite Hf.
Qed.

Lemma omap_orderClauses {B} (f : QueryConstraint -> option B) ords :
  (forall fieldPath directionStr, f (orderBy fieldPath directionStr) = None) ->
  omap f (orderClauses ords) = [].
Proof.
  intros Hf. induction ords as [|o ords IH]; simpl; [done|].
  by rewrite Hf.
Qed.

Lemma limit_of_query_of (options : QueryOptions) :
  limit_of (query_of options) =
    match pageSize options with
    | Some n => if number_truthy n then Some n else None
    | None => None
    end.
Proof.
  unfold limit_of. rewrite (proj2 (query_of_constraints options)).
  rewrite !omap_app, omap_whereClauses, omap_orderClauses by done.
  destruct (pageSize options) as [n|], (startAfterDoc options) as [d|]; simpl;
    try destruct (number_truthy n); reflexivity.
Qed.

Lemma cursor_of_query_of (options : QueryOptions) :
  cursor_of (query_of options) = startAfterDoc options.
Proof.
  unfold cursor_of. rewrite (proj2 (query_of_constraints options)).
  rewrite !omap_app, omap_whereClauses, omap_orderClauses by done.
  destruct (pageSize options) as [n|], (startAfterDoc options) as [d|]; simpl;
    try destruct (number_truthy n); reflexivity.
Qed.

(** The where and order-by clauses, hence the documents selected and their
    order, do not depend on the page size or on the cursor. *)
Lemma clauses_of_query_of (options : QueryOptions) :
  conditions_of (query_of options) =
    omap (fun c => match c with where_ f o v => Some (f, o, v) | _ => None end)
         (whereClauses (conditions options)) /\
  orders_of (query_of options) =
    omap (fun c => match c with orderBy f d => Some (f, d) | _ => None end)
         (orderClauses (orders options)).
Proof.
  unfold conditions_of, orders_of. rewrite (proj2 (query_of_constraints options)).
  rewrite !omap_app. split.
  - rewrite omap_orderClauses by done.
    destruct (pageSize options) as [n|], (startAfterDoc options) as [d|]; simpl;
      try destruct (number_truthy n); simpl; by rewrite ?app_nil_r.
  - rewrite omap_whereClauses by done.
    destruct (pageSize options) as [n|], (startAfterDoc options) as [d|]; simpl;
      try destruct (number_truthy n); simpl; by rewrite ?app_nil_r.
Qed.

Lemma matching_paged `{QueryEngine} options size cursor docs :
  matching (query_of (paged options size cursor)) docs
  = matching (query_of options) docs.
Proof.
  unfold matching.
  rewrite !(proj1 (query_of_constraints _)).
  rewrite !(proj1 (clauses_of_query_of _)), !(proj2 (clauses_of_query_of _)).
  reflexivity.
Qed.

Lemma orders_of_paged options size cursor :
  orders_of (query_of (paged options size cursor)) = orders_of (query_of options).
Proof. by rewrite !(proj2 (clauses_of_query_of _)). Qed.

(** What a call of queryCollection that passed validation does. *)
Lemma queryCollection_passed `{QueryEngine} (options : QueryOptions) (st : Backend) :
  passes_validation options = true ->
  queryCollection options st =
    match page (query_of options) (documents st) with
    | Throw e =>
        (Throw (error (js "Échec de la requête de collection : " ++ message e)), st)
    | Return snap =>
        match failure st with
        | Some msg =>
            (Throw (error (js "Échec de la requête de collection : " ++ msg)),
             with_request st (ReqQuery (query_of options)))
        | None =>
            (Return {| data := map (fun d => with_id (snap_id d) (snap_data d)) snap;
                       lastVisible := last snap |},
             with_request st (ReqQuery (query_of options)))
        end
    end.
Proof.
  unfold passes_validation. rewrite !andb_true_iff, !negb_true_iff.
  intros [[[Hname Hsize] Hconds] Hords].
  unfold queryCollection. rewrite Hname, Hsize, Hconds, Hords. cbn [negb].
  fold (query_of options).
  unfold getDocs, try_catch, bind, send, ret, throw. cbv beta.
  destruct (page (query_of options) (documents st)) as [snap|e]; [|reflexivity].
  destruct (failure st); reflexivity.
Qed.

(** What a call that failed validation does. *)
Lemma queryCollection_refused `{QueryEngine} (options : QueryOptions) (st : Backend) :
  passes_validation options = false ->
  exists msg, queryCollection options st = (Throw (error msg), st).
Proof.
  unfold passes_validation, queryCollection, throw.
  destruct (isValidString (JStr (collectionName options))); [|by eexists].
  destruct (bad_pageSize (pageSize options)); [by eexists|].
  destruct (existsb bad_condition (conditions options)); [by eexists|].
  destruct (existsb bad_order (orders options)); [by eexists|].
  done.
Qed.

Lemma last_map {A B} (f : A -> B) (l : list A) : last (map f l) = f <$> last l.
Proof.
  induction l as [|x [|y l] IH]; simpl in *; try reflexivity. exact IH.
Qed.

Lemma page_after_cursor `{QueryEngine} (q : Query) docs (c : Snapshot) snap :
  cursor_of q = Some c ->
  page q docs = Return snap ->
  Forall (fun d => precedes (orders_of q) c d = true) snap.
Proof.
  unfold page, after_cursor. intros -> Hpage.
  assert (Hall : Forall (fun d => precedes (orders_of q) c d = true)
            (filter (fun d => precedes (orders_of q) c d = true) (matching q docs))).
  { apply Forall_forall. intros d Hd. by apply list_elem_of_filter in Hd as [? _]. }
  destruct (limit_of q) as [[n| | |]|]; try discriminate.
  - destruct (0 <? n); [|discriminate].
    injection Hpage as <-. by apply Forall_take.
  - by injection Hpage as <-.
Qed.

(** ** The cursor returned by queryCollection *)

(** C6.  When queryCollection returns, the cursor lastVisible is null
    exactly when the page of data is empty; otherwise it is the snapshot of
    the last document of the page, and it can be passed as startAfterDoc:
    the same query with that cursor returns as well, with documents that
    all come strictly after the cursor in query order. *)
Theorem cursor_null_iff_page_empty `{QueryEngine}
    (options : QueryOptions) (st st' : Backend) (r : QueryResult) :
  queryCollection options st = (Return r, st') ->
  (lastVisible r = None <-> data r = []) /\
  (forall d, lastVisible r = Some d ->
     last (data r) = Some (with_id (snap_id d) (snap_data d))) /\
  (forall d, lastVisible r = Some d ->
     exists r2 snap2,
       queryCollection (paged options (pageSize options) (Some d)) st'
         = (Return r2, with_request st' (ReqQuery (query_of
              (paged options (pageSize options) (Some d))))) /\
       data r2 = map (fun x => with_id (snap_id x) (snap_data x)) snap2 /\
       Forall (fun x => precedes (orders_of (query_of options)) d x = true) snap2).
Proof.
  intros Hcall.
  destruct (passes_validation options) eqn:Hvalid.
  2:{ destruct (queryCollection_refused options st Hvalid) as [msg Hthrow].
      congruence. }
  rewrite (queryCollection_passed options st Hvalid) in Hcall.
  destruct (page (query_of options) (documents st)) as [snap|e] eqn:Hpage;
    [|discriminate].
  destruct (failure st) as [msg|] eqn:Hup; [discriminate|].
  injection Hcall as <- <-. cbn [data lastVisible].
  split; [|split].
  - rewrite last_None. split; [by intros ->|].
    by destruct snap.
  - intros d Hd. by rewrite last_map, Hd.
  - intros d _.
    assert (Hvalid2 : passes_validation (paged options (pageSize options) (Some d)) = true)
      by exact Hvalid.
    rewrite (queryCollection_passed _ _ Hvalid2).
    change (documents (with_request st _)) with (documents st).
    change (failure (with_request st _)) with (failure st). rewrite Hup.
    destruct (page (query_of (paged options (pageSize options) (Some d)))
                (documents st)) as [snap2|e2] eqn:Hpage2.
    + eexists _, snap2. split; [reflexivity|]. split; [reflexivity|].
      rewrite <- (orders_of_paged options (pageSize options) (Some d)).
      eapply page_after_cursor; [|exact Hpage2].
      apply cursor_of_query_of.
    + exfalso. unfold page in Hpage, Hpage2.
      rewrite limit_of_query_of in Hpage, Hpage2. cbn [paged pageSize] in Hpage2.
      destruct (pageSize options) as [[n| | |]|]; simpl in *;
        try destruct (n =? 0); simpl in *; try discriminate;
        destruct (0 <? n); discriminate.
Qed.

Lemma cursor_null_iff_page_empty_witness :
  let r := {| data := [with_id (js "u1") (named "Ada");
                       with_id (js "u2") (named "Bob")];
              lastVisible := Some (user_snapshot "u2" "Bob") |} in
  queryCollection (first_page None) (backend five_users)
    = (Return r, with_request (backend five_users)
                   (ReqQuery (query_of (first_page None)))) /\
  (lastVisible r = None <-> data r = []).
Proof.
  intros r.
  assert (Hcall : queryCollection (first_page None) (backend five_users)
                  = (Return r, with_request (backend five_users)
                                 (ReqQuery (query_of (first_page None)))))
    by (vm_compute; reflexivity).
  split; [exact Hcall|].
  exact (proj1 (cursor_null_iff_page_empty _ _ _ _ Hcall)).
Defined.

(** ** Validation in queryCollection *)

Lemma existsb_true_of_Exists {A} (f : A -> bool) (P : A -> Prop) (l : list A) :
  (forall x, P x -> f x = true) -> Exists P l -> existsb f l = true.
Proof.
  intros Hf. induction 1 as [x l Hx|x l _ IH]; simpl.
  - by rewrite (Hf x Hx).
  - rewrite IH. apply orb_true_r.
Qed.

(** The invalid options that queryCollection does refuse, before sending
    anything: a blank collection name, a page size that is neither 0 nor
    NaN and is not a positive integer, a condition with a blank field or
    operator, an order with a blank field or a direction other than "asc"
    and "desc". *)
Lemma queryCollection_rejects `{QueryEngine} (options : QueryOptions) (st : Backend) :
  blank (collectionName options) \/
  (exists n, pageSize options = Some n /\ number_truthy n = true /\
             (isInteger n = false \/ le_zero n = true)) \/
  Exists (fun c => blank (qc_field c) \/ blank (qc_op c)) (conditions options) \/
  Exists (fun o => blank (oo_field o) \/ oo_direction o ∉ [js "asc"; js "desc"])
         (orders options) ->
  exists msg, queryCollection options st = (Throw (error msg), st).
Proof.
  intros Hbad. apply queryCollection_refused. unfold passes_validation.
  rewrite !andb_false_iff, !negb_false_iff.
  destruct Hbad as [Hname|[(n & Hn & Ht & Hbad)|[Hc|Ho]]].
  - left; left; left. by apply isValidString_false_iff.
  - left; left; right. unfold bad_pageSize. rewrite Hn, Ht. simpl.
    destruct Hbad as [->| ->]; [done|apply orb_true_r].
  - left; right. revert Hc. apply existsb_true_of_Exists.
    intros c Hc. unfold bad_condition. rewrite orb_true_iff, !negb_true_iff.
    destruct Hc as [Hc|Hc]; [left|right]; by apply isValidString_false_iff.
  - right. revert Ho. apply existsb_true_of_Exists.
    intros o Ho. unfold bad_order. rewrite orb_true_iff, !negb_true_iff.
    destruct Ho as [Ho|Ho]; [left|right].
    + by apply isValidString_false_iff.
    + by apply bool_decide_eq_false.
Qed.

(** C3, on the code.  A page size of 0 (or NaN) is not a positive integer,
    yet queryCollection does not throw for it: [pageSize && ...] is false
    for these two values, so the check is skipped, and [if (pageSize)]
    then leaves the limit out.  With the other options valid and a backend
    that answers, the query is sent and every selected document after the
    cursor comes back. *)
Theorem queryCollection_accepts_pageSize_zero `{QueryEngine}
    (options : QueryOptions) (st : Backend) (n : number) :
  pageSize options = Some n -> n = Int 0 \/ n = NaN ->
  ~ blank (collectionName options) ->
  existsb bad_condition (conditions options) = false ->
  existsb bad_order (orders options) = false ->
  failure st = None ->
  let q := query_of options in
  limit_of q = None /\
  queryCollection options st =
    (Return {| data := map (fun d => with_id (snap_id d) (snap_data d))
                         (after_cursor q (matching q (documents st)));
               lastVisible := last (after_cursor q (matching q (documents st))) |},
     with_request st (ReqQuery q)).
Proof.
  intros Hsize Hn Hname Hconds Hords Hup q.
  assert (Hlimit : limit_of q = None).
  { unfold q. rewrite limit_of_query_of, Hsize. by destruct Hn as [-> | ->]. }
  split; [exact Hlimit|].
  rewrite queryCollection_passed.
  - fold q. unfold page. rewrite Hlimit, Hup. reflexivity.
  - unfold passes_validation, bad_pageSize.
    apply isValidString_true_iff in Hname.
    rewrite Hname, Hsize, Hconds, Hords. by destruct Hn as [-> | ->].
Qed.

Lemma queryCollection_accepts_pageSize_zero_witness :
  exists r,
    fst (queryCollection (paged (first_page None) (Some (Int 0)) None)
           (backend five_users)) = Return r /\
    length (data r) = 5%nat.
Proof.
  assert (Hname : ~ blank (js "Users")) by (by apply isValidString_true_iff).
  destruct (queryCollection_accepts_pageSize_zero
              (paged (first_page None) (Some (Int 0)) None) (backend five_users)
              (Int 0) eq_refl (or_introl eq_refl) Hname eq_refl eq_refl eq_refl)
    as [_ Hcall].
  eexists. rewrite Hcall. split; [reflexivity|]. vm_compute. reflexivity.
Defined.

(** ** runBatch *)

Lemma op_type_cases (t : jsstring) :
  t = js "set" \/ t = js "update" \/ t = js "delete" \/
  (t <> js "set" /\ t <> js "update" /\ t <> js "delete").
Proof.
  destruct (decide (t = js "set")); [tauto|].
  destruct (decide (t = js "update")); [tauto|].
  destruct (decide (t = js "delete")); tauto.
Qed.

Lemma known_type_iff (t : jsstring) :
  t ∈ [js "set"; js "update"; js "delete"]
  <-> t = js "set" \/ t = js "update" \/ t = js "delete".
Proof. rewrite !elem_of_cons, elem_of_nil. tauto. Qed.

Lemma data_type_iff (t : jsstring) :
  t ∈ [js "set"; js "update"] <-> t = js "set" \/ t = js "update".
Proof. rewrite !elem_of_cons, elem_of_nil. tauto. Qed.

(** Evaluates the tests on a type that is known. *)
Ltac decide_closed :=
  repeat match goal with
         | |- context [bool_decide ?P] =>
             let v := eval vm_compute in (bool_decide P) in
             match v with
             | true => change (bool_decide P) with true
             | false => change (bool_decide P) with false
             end
         end.

Lemma plain_or_not (v : value) :
  (exists fields, v = JObj fields) \/ (forall fields, v <> JObj fields).
Proof. destruct v; eauto; right; intros ? [=]. Qed.

Lemma stage_write_of (batch : list Write) (op : BatchOperation) :
  match write_of op with
  | Some w => stage batch op = Return (batch ++ [w])
  | None => exists e, stage batch op = Throw e
  end.
Proof.
  unfold write_of, stage, batch_set, batch_update, batch_delete, not_an_object.
  destruct (op_type_cases (op_type op)) as [Ht|[Ht|[Ht|(Hs & Hu & Hd)]]].
  - rewrite Ht. decide_closed. cbn [negb and_then].
    destruct (op_data op); simpl; rewrite ?orb_true_r; by eexists.
  - rewrite Ht. decide_closed. cbn [negb and_then].
    destruct (op_data op); simpl; rewrite ?orb_true_r; by eexists.
  - rewrite Ht. decide_closed. reflexivity.
  - rewrite (bool_decide_eq_false_2 (op_type op ∈ _)).
    + rewrite !bool_decide_eq_false_2 by done. by eexists.
    + rewrite known_type_iff. tauto.
Qed.

Lemma forEach_writes (operations : list BatchOperation) (ws batch : list Write) :
  Forall2 (fun op w => write_of op = Some w) operations ws ->
  forEach operations batch = Return (batch ++ ws).
Proof.
  intros Hall. revert batch.
  induction Hall as [|op w operations ws Hop _ IH]; intros batch; simpl.
  - by rewrite app_nil_r.
  - pose proof (stage_write_of batch op) as Hstage. rewrite Hop in Hstage.
    cbv beta iota in Hstage. rewrite Hstage, IH, <- app_assoc. reflexivity.
Qed.

(** What runBatch itself refuses, the write batch does not get. *)
Lemma malformed_write_of (op : BatchOperation) : malformed op -> write_of op = None.
Proof.
  unfold malformed, write_of. rewrite known_type_iff, data_type_iff.
  intros [Hbad|[Ht Hdata]].
  - rewrite !bool_decide_eq_false_2; [reflexivity|..]; intros Heq; apply Hbad; tauto.
  - assert (Hplain : forall fields, op_data op <> JObj fields).
    { intros fields Heq. rewrite Heq in Hdata.
      change (not_an_object (JObj fields)) with false in Hdata. discriminate. }
    destruct Ht as [Ht|Ht]; rewrite Ht; decide_closed;
      destruct (op_data op); try reflexivity; by destruct (Hplain fields).
Qed.

Lemma forEach_malformed (operations : list BatchOperation) (batch : list Write) :
  Exists malformed operations -> exists e, forEach operations batch = Throw e.
Proof.
  intros Hbad. revert batch.
  induction Hbad as [op operations Hop|op operations _ IH]; intros batch; simpl.
  - apply malformed_write_of in Hop.
    pose proof (stage_write_of batch op) as Hstage. rewrite Hop in Hstage.
    cbv beta iota in Hstage. destruct Hstage as [e ->]. by eexists.
  - destruct (stage batch op) as [batch'|e]; [apply IH | by eexists].
Qed.

(** When the loop returns, the batch holds the write of every operation,
    in order. *)
Lemma forEach_taken (operations : list BatchOperation) (batch out : list Write) :
  forEach operations batch = Return out ->
  exists ws, out = batch ++ ws /\
    Forall2 (fun op w => write_of op = Some w) operations ws.
Proof.
  revert batch out. induction operations as [|op operations IH];
    intros batch out; simpl.
  - intros [= <-]. exists []. split; [by rewrite app_nil_r|constructor].
  - pose proof (stage_write_of batch op) as Hstage.
    destruct (write_of op) as [w|] eqn:Hw.
    + rewrite Hstage. intros Hrest.
      destruct (IH _ _ Hrest) as (ws & -> & Hall).
      exists (w :: ws). split; [by rewrite <- app_assoc|by constructor].
    + destruct Hstage as [e ->]. discriminate.
Qed.

(** C4, as the code has it.  runBatch throws and leaves the backend
    untouched (nothing sent, nothing written) when the list is empty or
    when any operation is malformed: a type other than "set", "update",
    "delete", or a "set" or "update" whose data is missing or not an
    object (the test of the code).  Otherwise every operation is handed, in
    order, to one write batch.  When the batch has taken them all, its
    writes are those of all the operations, in order, they go out in one
    commit request, and the stored documents afterwards are those with all
    the writes applied when runBatch returns, and the former ones when it
    throws; when the batch refuses the data of an operation, runBatch
    throws that error and the backend is untouched.  The batch takes every
    list whose "set" and "update" data are key-value objects. *)
Theorem runBatch_all_or_nothing (operations : list BatchOperation) (st : Backend) :
  (operations = [] \/ Exists malformed operations ->
     exists e, runBatch operations st = (Throw e, st)) /\
  (operations <> [] -> ~ Exists malformed operations ->
     match forEach operations [] with
     | Return ws =>
         Forall2 (fun op w => write_of op = Some w) operations ws /\
         committed_atomically ws st (runBatch operations st)
     | Throw e => runBatch operations st = (Throw e, st)
     end) /\
  (forall ws,
     Forall2 (fun op w => write_of op = Some w) operations ws ->
     forEach operations [] = Return ws).
Proof.
  split; [|split].
  - intros [->|Hbad]; [by eexists|].
    unfold runBatch. case_bool_decide; [by eexists|].
    destruct (forEach_malformed operations [] Hbad) as [e ->]. by eexists.
  - intros Hne _. unfold runBatch. rewrite bool_decide_eq_false_2 by done.
    destruct (forEach operations []) as [ws|e] eqn:Hloop; [|reflexivity].
    destruct (forEach_taken operations [] ws Hloop) as (ws' & Heq & Hall).
    cbn [app] in Heq. subst ws'. split; [exact Hall|].
    unfold committed_atomically, commit, try_catch, bind, send, throw. cbv beta.
    destruct (failure st) as [msg|]; [by split|].
    change (clock (with_request st _)) with (clock st).
    change (documents (with_request st _)) with (documents st).
    destruct (apply_writes (clock st) ws (documents st)) as [docs|e];
      by split.
  - intros ws Hall. apply (forEach_writes operations ws [] Hall).
Qed.

Lemma runBatch_all_or_nothing_witness :
  exists e, runBatch mixed_batch (backend five_users) = (Throw e, backend five_users).
Proof.
  apply (proj1 (runBatch_all_or_nothing mixed_batch (backend five_users))).
  right. apply Exists_cons_tl, Exists_cons_hd. left.
  rewrite known_type_iff. intros [H|[H|H]]; vm_compute in H; discriminate.
Defined.

(** C4 does not hold as stated.  None of the operations of the empty list
    is malformed, and still runBatch throws and no commit is sent.  And on
    the modelled write batch, which refuses an array, the list of one
    "set" whose data is an array has no malformed operation (an array
    passes the test of the code), and yet nothing is committed. *)
Lemma runBatch_well_formed_not_committed :
  (~ Exists malformed [] /\
   (exists e, fst (runBatch [] (backend five_users)) = Throw e) /\
   forall ws, ReqCommit ws ∉ requests (snd (runBatch [] (backend five_users)))) /\
  (array_batch <> [] /\ ~ Exists malformed array_batch /\
   exists e, runBatch array_batch (backend five_users) = (Throw e, backend five_users)).
Proof.
  split.
  - split; [by intros H; inversion H|].
    split; [by eexists|].
    intros ws H. inversion H.
  - split; [discriminate|]. split; [|by eexists].
    intros H. apply Exists_cons in H as [[Hbad|[_ Hbad]]|H].
    + apply Hbad. rewrite known_type_iff. by left.
    + vm_compute in Hbad. discriminate.
    + by apply Exists_nil in H.
Qed.

(** ** setDocument *)

Lemma stored_put docs r o : stored (put docs r o) r = Some o.
Proof.
  unfold stored, put. rewrite lookup_insert_eq. apply lookup_insert_eq.
Qed.

Lemma setDocument_writes (name id : jsstring) (fields : object) (merge : bool)
    (st : Backend) :
  ~ blank name -> ~ blank id -> failure st = None ->
  let r := {| ref_collection := name; ref_id := id |} in
  setDocument name id (JObj fields) merge st =
    (Return id,
     with_documents (with_request st (ReqWrite (WSet r (stamped fields) merge)))
       (put (documents st) r
          (match merge, stored (documents st) r with
           | true, Some old => merge_fields (resolve (clock st) <$> stamped fields) old
           | _, _ => resolve (clock st) <$> stamped fields
           end))).
Proof.
  intros Hname Hid Hup r.
  apply isValidString_true_iff in Hname, Hid.
  unfold setDocument. rewrite Hname, Hid. cbn [negb].
  change (not_an_object (JObj fields)) with false. cbv iota.
  unfold setDoc, plain_object, write, send, try_catch, bind, ret. cbv beta.
  rewrite Hup. reflexivity.
Qed.

Lemma merge_fields_lookup (new old : object) (k : jsstring) :
  merge_fields new old !! k =
    match new !! k, old !! k with
    | Some a, Some b => Some (merge_value a b)
    | Some a, None => Some a
    | None, o => o
    end.
Proof.
  unfold merge_fields. rewrite lookup_union_with.
  destruct (new !! k), (old !! k); reflexivity.
Qed.

(** What a merging setDocument leaves in a document that existed: the
    update time is the server time of the call, a field that the payload
    does not carry keeps its value -- except createdAt, which the call
    stamps itself whenever the payload has none. *)
Lemma setDocument_merge_frame (name id : jsstring) (fields old : object)
    (st : Backend) :
  ~ blank name -> ~ blank id -> failure st = None ->
  let r := {| ref_collection := name; ref_id := id |} in
  stored (documents st) r = Some old ->
  exists new,
    stored (documents (snd (setDocument name id (JObj fields) true st))) r = Some new /\
    new !! js "updatedAt" = Some (JTimestamp (clock st)) /\
    (fields !! js "createdAt" = None ->
       new !! js "createdAt" = Some (JTimestamp (clock st))) /\
    (forall k, k <> js "createdAt" -> k <> js "updatedAt" ->
       fields !! k = None -> new !! k = old !! k).
Proof.
  intros Hname Hid Hup r Hold.
  rewrite (setDocument_writes name id fields true st Hname Hid Hup).
  cbn [snd]. fold r. rewrite Hold.
  eexists. split; [apply stored_put|].
  split; [|split].
  - rewrite merge_fields_lookup, lookup_fmap. unfold stamped.
    rewrite lookup_insert_ne by (intros H; vm_compute in H; discriminate).
    rewrite lookup_insert_eq. simpl. by destruct (old !! js "updatedAt").
  - intros Hnone. rewrite merge_fields_lookup, lookup_fmap. unfold stamped, field.
    rewrite lookup_insert_eq, Hnone. simpl. by destruct (old !! js "createdAt").
  - intros k Hc Hu Hk. rewrite merge_fields_lookup, lookup_fmap. unfold stamped.
    rewrite !lookup_insert_ne, Hk by done. reflexivity.
Qed.

(** C1, on the code.  Two merging calls of setDocument on the same
    document, with payloads that carry no createdAt: after the first the
    stored createdAt is the server time of the first call, after the second
    it is the server time of the second call.  The payload written always
    has a createdAt ([data.createdAt ?? serverTimestamp()]), and a merge
    replaces every field the payload has. *)
Theorem setDocument_merge_overwrites_createdAt (name id : jsstring)
    (first second : object) (st : Backend) (dt : Z) :
  ~ blank name -> ~ blank id -> failure st = None ->
  first !! js "createdAt" = None -> second !! js "createdAt" = None ->
  let r := {| ref_collection := name; ref_id := id |} in
  let st1 := snd (setDocument name id (JObj first) true st) in
  let st2 := snd (setDocument name id (JObj second) true (elapse dt st1)) in
  (exists doc1, stored (documents st1) r = Some doc1 /\
                doc1 !! js "createdAt" = Some (JTimestamp (clock st))) /\
  (exists doc2, stored (documents st2) r = Some doc2 /\
                doc2 !! js "createdAt" = Some (JTimestamp (clock st + dt))).
Proof.
  intros Hname Hid Hup Hfirst Hsecond r st1 st2.
  assert (Hst1 : exists doc1, stored (documents st1) r = Some doc1 /\
                   doc1 !! js "createdAt" = Some (JTimestamp (clock st))).
  { unfold st1. rewrite (setDocument_writes name id first true st Hname Hid Hup).
    cbn [snd]. fold r. eexists. split; [apply stored_put|].
    destruct (stored (documents st) r) as [old|].
    - rewrite merge_fields_lookup, lookup_fmap. unfold stamped, field.
      rewrite lookup_insert_eq, Hfirst. simpl. by destruct (old !! js "createdAt").
    - rewrite lookup_fmap. unfold stamped, field.
      rewrite lookup_insert_eq, Hfirst. reflexivity. }
  split; [exact Hst1|].
  destruct Hst1 as (doc1 & Hdoc1 & _).
  assert (Hup1 : failure (elapse dt st1) = None).
  { unfold st1. by rewrite (setDocument_writes name id first true st Hname Hid Hup). }
  assert (Hclock : clock (elapse dt st1) = clock st + dt).
  { unfold st1. by rewrite (setDocument_writes name id first true st Hname Hid Hup). }
  destruct (setDocument_merge_frame name id second doc1 (elapse dt st1)
              Hname Hid Hup1 Hdoc1) as (doc2 & Hdoc2 & _ & Hcreated & _).
  exists doc2. split; [exact Hdoc2|].
  rewrite <- Hclock. by apply Hcreated.
Qed.

Lemma setDocument_merge_overwrites_createdAt_witness :
  let st1 := snd (setDocument (js "Users") (js "u1") (JObj (named "Zed")) true
                    (backend five_users)) in
  let st2 := snd (setDocument (js "Users") (js "u1") (JObj (named "Yan")) true
                    (elapse 5 st1)) in
  exists doc2,
    stored (documents st2) {| ref_collection := js "Users"; ref_id := js "u1" |}
      = Some doc2 /\
    doc2 !! js "createdAt" = Some (JTimestamp 1005).
Proof.
  assert (Hu : ~ blank (js "Users")) by (by apply isValidString_true_iff).
  assert (Hi : ~ blank (js "u1")) by (by apply isValidString_true_iff).
  exact (proj2 (setDocument_merge_overwrites_createdAt (js "Users") (js "u1")
                  (named "Zed") (named "Yan") (backend five_users) 5
                  Hu Hi eq_refl eq_refl eq_refl)).
Defined.

(** ** Query order: sorting and cursors *)

Section Ordering.
Context {A K : Type} (lt : A -> A -> bool) (key : A -> K).
Hypothesis lt_irrefl : forall a, lt a a = false.
Hypothesis lt_trans : forall a b c, lt a b = true -> lt b c = true -> lt a c = true.
Hypothesis lt_total : forall a b, key a <> key b -> lt a b = true \/ lt b a = true.

Lemma insert_by_Permutation (x : A) (l : list A) : insert_by lt x l ≡ₚ x :: l.
Proof.
  induction l as [|y l IH]; simpl; [done|].
  destruct (lt x y); [done|].
  rewrite IH. apply Permutation_swap.
Qed.

Lemma sort_by_Permutation (l : list A) : sort_by lt l ≡ₚ l.
Proof.
  induction l as [|x l IH]; simpl; [done|].
  rewrite insert_by_Permutation. by f_equiv.
Qed.

Lemma insert_by_sorted (x : A) (l : list A) :
  (forall y, y ∈ l -> key y <> key x) ->
  StronglySorted (fun a b => lt a b = true) l ->
  StronglySorted (fun a b => lt a b = true) (insert_by lt x l).
Proof.
  intros Hkeys Hsorted.
  induction Hsorted as [|y l Hl IH Hy]; simpl.
  - repeat constructor.
  - destruct (lt x y) eqn:Hxy.
    + constructor; [by constructor|].
      constructor; [done|].
      eapply Forall_impl; [exact Hy|]. intros z Hz. by eapply lt_trans.
    + constructor.
      * apply IH. intros z Hz. apply Hkeys. by right.
      * rewrite insert_by_Permutation. constructor; [|done].
        destruct (lt_total y x) as [Hyx|Hyx]; [|done|congruence].
        apply Hkeys. by left.
Qed.

Lemma sort_by_sorted (l : list A) :
  NoDup (key <$> l) ->
  StronglySorted (fun a b => lt a b = true) (sort_by lt l).
Proof.
  induction l as [|x l IH]; simpl; [constructor|].
  intros Hnodup. apply NoDup_cons in Hnodup as [Hx Hl].
  apply insert_by_sorted; [|by apply IH].
  intros y Hy Heq. apply Hx. rewrite <- Heq.
  apply list_elem_of_fmap. exists y. split; [done|].
  by rewrite <- (sort_by_Permutation l).
Qed.

Lemma filter_all (P : A -> Prop) `{forall a, Decision (P a)} (l : list A) :
  Forall P l -> filter P l = l.
Proof.
  induction 1 as [|y l Hy _ IH]; [done|].
  rewrite filter_cons, decide_True by done. by rewrite IH.
Qed.

Lemma filter_none (P : A -> Prop) `{forall a, Decision (P a)} (l : list A) :
  Forall (fun a => ~ P a) l -> filter P l = [].
Proof.
  induction 1 as [|y l Hy _ IH]; [done|].
  by rewrite filter_cons, decide_False.
Qed.

(** In a sorted list, what comes strictly after an element is what follows
    it. *)
Lemma filter_after (l1 l2 : list A) (x : A) :
  StronglySorted (fun a b => lt a b = true) (l1 ++ x :: l2) ->
  filter (fun d => lt x d = true) (l1 ++ x :: l2) = l2.
Proof.
  intros Hsorted.
  apply StronglySorted_app in Hsorted as (Hcross & _ & Htail).
  apply StronglySorted_inv in Htail as [_ Hafter].
  rewrite filter_app, filter_cons, decide_False
    by (rewrite lt_irrefl; discriminate).
  rewrite (filter_all _ l2) by done.
  rewrite filter_none; [done|].
  apply Forall_forall. intros y Hy Hxy.
  assert (Hyx : lt y x = true) by (apply Hcross; [done|by left]).
  pose proof (lt_trans _ _ _ Hxy Hyx) as Hxx.
  rewrite lt_irrefl in Hxx. discriminate.
Qed.

End Ordering.

Lemma snapshots_distinct_ids docs (name : jsstring) :
  NoDup (snap_id <$> snapshots docs name).
Proof.
  unfold snapshots. rewrite <- list_fmap_compose.
  apply (NoDup_fst_map_to_list (default ∅ (docs !! name))).
Qed.

Lemma filter_distinct_ids (P : Snapshot -> Prop) `{forall d, Decision (P d)}
    (l : list Snapshot) :
  NoDup (snap_id <$> l) -> NoDup (snap_id <$> filter P l).
Proof.
  induction l as [|d l IH]; [done|].
  rewrite fmap_cons, NoDup_cons. intros [Hd Hl].
  rewrite filter_cons. destruct (decide (P d)); [|by apply IH].
  rewrite fmap_cons, NoDup_cons. split; [|by apply IH].
  intros Hin. apply Hd.
  apply list_elem_of_fmap in Hin as (d' & -> & Hd').
  apply list_elem_of_fmap. exists d'. split; [done|].
  by apply list_elem_of_filter in Hd' as [_ ?].
Qed.

(** The documents a query selects come in query order. *)
Lemma matching_sorted `{QueryEngine} (q : Query) docs :
  StronglySorted (fun a b => precedes (orders_of q) a b = true) (matching q docs).
Proof.
  unfold matching.
  apply (sort_by_sorted (precedes (orders_of q)) snap_id).
  - apply precedes_trans.
  - apply precedes_total.
  - apply filter_distinct_ids, snapshots_distinct_ids.
Qed.

(** ** Pagination *)

Section Pagination.
Context `{QueryEngine}.
Variable options : QueryOptions.
Hypothesis valid_name : ~ blank (collectionName options).
Hypothesis valid_conditions : existsb bad_condition (conditions options) = false.
Hypothesis valid_orders : existsb bad_order (orders options) = false.

Lemma queryCollection_page (n : Z) (cursor : option Snapshot) (st : Backend) :
  0 < n -> failure st = None ->
  queryCollection (paged options (Some (Int n)) cursor) st =
    (Return {| data := map (fun d => with_id (snap_id d) (snap_data d))
                           (page_after options n cursor (documents st));
               lastVisible := last (page_after options n cursor (documents st)) |},
     with_request st (ReqQuery (query_of (paged options (Some (Int n)) cursor)))).
Proof.
  intros Hn Hup.
  assert (Hnz : (n =? 0) = false) by lia.
  assert (Hpos : (0 <? n) = true) by lia.
  rewrite queryCollection_passed.
  - unfold page, after_cursor.
    rewrite limit_of_query_of, cursor_of_query_of, matching_paged, orders_of_paged.
    cbn [paged pageSize startAfterDoc number_truthy]. rewrite Hnz. cbn [negb].
    rewrite Hpos, Hup. reflexivity.
  - unfold passes_validation, bad_pageSize.
    cbn [paged pageSize collectionName conditions orders number_truthy isInteger
         le_zero].
    apply isValidString_true_iff in valid_name.
    rewrite valid_name, valid_conditions, valid_orders, Hnz.
    assert (Hle : (n <=? 0) = false) by lia. by rewrite Hle.
Qed.

End Pagination.

(** C2, as the code has it.  For a query that selects exactly five
    documents, read by pages of two: the first call returns two documents
    and, as cursor, the second of them; the call with that cursor returns
    the next two and the fourth as cursor; the call with that cursor
    returns the remaining one, and its cursor is not null: it is that
    fifth document.  Only a fourth call, which finds nothing after the
    fifth document, returns the null cursor. *)
Theorem five_documents_by_pages_of_two `{QueryEngine}
    (options : QueryOptions) (st : Backend) :
  ~ blank (collectionName options) ->
  existsb bad_condition (conditions options) = false ->
  existsb bad_order (orders options) = false ->
  failure st = None ->
  length (matching (query_of options) (documents st)) = 5%nat ->
  let call cursor := queryCollection (paged options (Some (Int 2)) cursor) in
  let doc d := with_id (snap_id d) (snap_data d) in
  exists d1 d2 d3 d4 d5 st1 st2 st3 st4,
    matching (query_of options) (documents st) = [d1; d2; d3; d4; d5] /\
    call None st
      = (Return {| data := [doc d1; doc d2]; lastVisible := Some d2 |}, st1) /\
    call (Some d2) st1
      = (Return {| data := [doc d3; doc d4]; lastVisible := Some d4 |}, st2) /\
    call (Some d4) st2
      = (Return {| data := [doc d5]; lastVisible := Some d5 |}, st3) /\
    call (Some d5) st3
      = (Return {| data := []; lastVisible := None |}, st4) /\
    documents st4 = documents st.
Proof.
  intros Hname Hconds Hords Hup Hfive call doc.
  pose proof (matching_sorted (query_of options) (documents st)) as Hsorted.
  destruct (matching (query_of options) (documents st))
    as [|d1 [|d2 [|d3 [|d4 [|d5 [|d6 l]]]]]] eqn:Hl; try discriminate.
  pose proof (filter_after (precedes (orders_of (query_of options)))
                (precedes_irrefl _) (precedes_trans _)) as Hafter.
  pose proof (Hafter [d1] [d3; d4; d5] d2 Hsorted) as H2.
  pose proof (Hafter [d1; d2; d3] [d5] d4 Hsorted) as H4.
  pose proof (Hafter [d1; d2; d3; d4] [] d5 Hsorted) as H5.
  cbn [app] in H2, H4, H5.
  eexists d1, d2, d3, d4, d5, _, _, _, _.
  split; [reflexivity|]. unfold call.
  split; [|split; [|split; [|split]]].
  - rewrite (queryCollection_page options Hname Hconds Hords 2 None st) by done.
    unfold page_after. rewrite Hl. reflexivity.
  - rewrite (queryCollection_page options Hname Hconds Hords 2 (Some d2)) by done.
    unfold page_after. cbn [documents with_request]. rewrite Hl, H2. reflexivity.
  - rewrite (queryCollection_page options Hname Hconds Hords 2 (Some d4)) by done.
    unfold page_after. cbn [documents with_request]. rewrite Hl, H4. reflexivity.
  - rewrite (queryCollection_page options Hname Hconds Hords 2 (Some d5)) by done.
    unfold page_after. cbn [documents with_request]. rewrite Hl, H5. reflexivity.
  - reflexivity.
Qed.

Lemma five_documents_by_pages_of_two_witness :
  exists d1 d2 d3 d4 d5 st1,
    matching (query_of (first_page None)) five_users = [d1; d2; d3; d4; d5] /\
    queryCollection (first_page None) (backend five_users) =
      (Return {| data := [with_id (snap_id d1) (snap_data d1);
                          with_id (snap_id d2) (snap_data d2)];
                 lastVisible := Some d2 |}, st1).
Proof.
  assert (Hname : ~ blank (js "Users")) by (by apply isValidString_true_iff).
  assert (Hfive : length (matching (query_of (first_page None)) five_users) = 5%nat)
    by (vm_compute; reflexivity).
  destruct (five_documents_by_pages_of_two (first_page None) (backend five_users)
              Hname eq_refl eq_refl eq_refl Hfive)
    as (d1 & d2 & d3 & d4 & d5 & st1 & st2 & st3 & st4 & Hl & H1 & _).
  exists d1, d2, d3, d4, d5, st1. split; [exact Hl|exact H1].
Defined.

(** C2 as it is worded fails on the third call: over the five users u1 to
    u5, read by pages of two, the third call returns the one remaining
    document together with a cursor that is not null (the snapshot of
    u5). *)
Lemma third_page_cursor_not_null :
  let u2 := user_snapshot "u2" "Bob" in
  let u4 := user_snapshot "u4" "Dan" in
  let u5 := {| snap_id := js "u5"; snap_data := ∅ |} in
  let st0 := backend five_users in
  let st1 := snd (queryCollection (first_page None) st0) in
  let st2 := snd (queryCollection (first_page (Some u2)) st1) in
  length (matching (query_of (first_page None)) (documents st0)) = 5%nat /\
  returned (queryCollection (first_page None) st0) = Some (2%nat, Some u2) /\
  returned (queryCollection (first_page (Some u2)) st1) = Some (2%nat, Some u4) /\
  returned (queryCollection (first_page (Some u4)) st2) = Some (1%nat, Some u5) /\
  Some u5 <> None.
Proof.
  vm_compute. repeat split. discriminate.
Qed.

(** ** The mock users *)

(** [Math.floor(Math.random() * 3)] is 0, 1 or 2: the product of a double
    below 1 by 3, rounded to nearest, stays below 3. *)
Lemma floor_times_3 (r : double) :
  unit_interval r -> 0 <= Mock.floor (times r 3) <= 2.
Proof.
  destruct r as [m e]. unfold unit_interval, times, Mock.floor, round.
  cbn [mant expo].
  intros ([Hm0 Hm53] & He & Hr).
  destruct (Z.eq_dec m 0) as [->|Hmz].
  { change (Z.log2 (0 * 3) - 52 <=? 0) with true. cbv iota. cbn [mant expo].
    change (0 * 3) with 0.
    destruct (0 <=? e) eqn:H0e; [rewrite Z.mul_0_l; lia|]. rewrite Z.div_0_l; [lia|].
    apply Z.pow_nonzero; lia. }
  destruct Hr as [->|[Hneg Hlt]]; [done|].
  assert (Hpow : 0 < 2 ^ (- e)) by (apply Z.pow_pos_nonneg; lia).
  destruct (Z.log2 (m * 3) - 52 <=? 0) eqn:Hs; cbv iota; cbn [mant expo].
  - assert (H0e : (0 <=? e) = false) by lia. rewrite H0e.
    split; [apply Z.div_pos; lia|].
    assert (m * 3 / 2 ^ (- e) < 3); [|lia].
    apply Z.div_lt_upper_bound; lia.
  - apply Z.leb_gt in Hs.
    assert (Hlow : 2 ^ 53 <= m * 3) by (apply Z.log2_le_pow2; lia).
    assert (Hhigh : Z.log2 (m * 3) < 55) by (apply Z.log2_lt_pow2; lia).
    assert (He52 : 52 <= - e).
    { destruct (Z_lt_le_dec (- e) 52) as [Hsmall|]; [|done].
      assert (2 ^ (- e) <= 2 ^ 51) by (apply Z.pow_le_mono_r; lia). lia. }
    set (s := Z.log2 (m * 3) - 52) in *.
    assert (H0e : (0 <=? e + s) = false) by lia. rewrite H0e.
    replace (- (e + s)) with (- e - s) by lia.
    assert (Hsplit : 2 ^ (- e) = 2 ^ (- e - s) * 2 ^ s).
    { rewrite <- Z.pow_add_r by lia. f_equal. lia. }
    set (K := 2 ^ (- e - s)) in *.
    assert (HK : 0 < K) by (apply Z.pow_pos_nonneg; lia).
    assert (Hs12 : s = 1 \/ s = 2) by lia.
    pose proof (Z.div_mod (m * 3) (2 ^ s)) as Hdm.
    pose proof (Z.mod_pos_bound (m * 3) (2 ^ s)) as Hmod.
    set (q := m * 3 / 2 ^ s) in *. set (rr := (m * 3) mod 2 ^ s) in *.
    assert (Hmant : 0 <= (if (2 ^ (s - 1) <? rr) || ((rr =? 2 ^ (s - 1)) && Z.odd q)
                          then q + 1 else q) < 3 * K).
    { destruct Hs12 as [Hs1|Hs2].
      - rewrite Hs1 in *. change (2 ^ 1) with 2 in *. change (2 ^ (1 - 1)) with 1.
        destruct ((1 <? rr) || ((rr =? 1) && Z.odd q)) eqn:Hup; lia.
      - rewrite Hs2 in *. change (2 ^ 2) with 4 in *. change (2 ^ (2 - 1)) with 2.
        destruct ((2 <? rr) || ((rr =? 2) && Z.odd q)) eqn:Hup; lia. }
    split; [apply Z.div_pos; lia|].
    match goal with |- ?a / K <= 2 => assert (a / K < 3); [|lia] end.
    apply Z.div_lt_upper_bound; lia.
Qed.

(** One turn of the loop. *)
Lemma generate_unfold random (i : Z) (st : list User * nat) :
  generate random i st =
    if decide (i <= 40)
    then generate random (i + 1)
           (fst st ++ [generated random i (snd st)], (snd st + 11)%nat)
    else st.
Proof.
  rewrite generate_equation_1.
  destruct (decide (i <= 40)); [apply generate_clause_1_equation_1|reflexivity].
Qed.

(** The loop started at [i] pushes one record for each index from [i] to 40,
    in order, each built from the next eleven outcomes. *)
Lemma generate_spec random (n : nat) (i : Z) (st : list User * nat) :
  Z.to_nat (41 - i) = n ->
  generate random i st =
    (fst st ++ map (fun j => generated random (i + Z.of_nat j) (snd st + 11 * j)%nat)
                   (seq 0 n),
     (snd st + 11 * n)%nat).
Proof.
  revert i st. induction n as [|n IH]; intros i [users k] Hn;
    rewrite generate_unfold; cbn [fst snd].
  - rewrite decide_False by lia. simpl. rewrite app_nil_r. f_equal. lia.
  - rewrite decide_True by lia. rewrite IH by lia. cbn [fst snd].
    rewrite <- app_assoc. f_equal; [|lia]. f_equal. simpl. f_equal.
    + f_equal; lia.
    + rewrite <- seq_shift, map_map. apply map_ext. intros j.
      f_equal; lia.
Qed.

Lemma generated_ranges random (i : Z) (k : nat) :
  (forall n, unit_interval (random n)) ->
  typeUsersId (generated random i k) ∈ [JNum (Int 1); JNum (Int 2); JNum (Int 3)] /\
  statut (generated random i k) ∈ [JNum (Int 0); JNum (Int 1); JNum (Int 2)].
Proof.
  intros Hrandom. cbn [generated typeUsersId statut].
  pose proof (floor_times_3 _ (Hrandom (k + 5)%nat)) as Ht.
  pose proof (floor_times_3 _ (Hrandom (k + 4)%nat)) as Hs.
  rewrite !elem_of_cons.
  split.
  - assert (Hc : Mock.floor (times (random (k + 5)%nat) 3) = 0 \/
                 Mock.floor (times (random (k + 5)%nat) 3) = 1 \/
                 Mock.floor (times (random (k + 5)%nat) 3) = 2) by lia.
    destruct Hc as [-> | [-> | ->]]; tauto.
  - assert (Hc : Mock.floor (times (random (k + 4)%nat) 3) = 0 \/
                 Mock.floor (times (random (k + 4)%nat) 3) = 1 \/
                 Mock.floor (times (random (k + 4)%nat) 3) = 2) by lia.
    destruct Hc as [-> | [-> | ->]]; tauto.
Qed.

(** C8.  Whatever the outcomes of Math.random() (each a double at least 0
    and below 1), the loop over the indices 2 to 40 leaves mockUsers with
    its first record followed by exactly 39 added records, and each added
    record has typeUsersId 1, 2 or 3 and statut 0, 1 or 2. *)
Theorem mockUsers_generated (random : nat -> double) :
  (forall n, unit_interval (random n)) ->
  exists added,
    mockUsers random = first_user :: added /\
    length added = 39%nat /\
    Forall (fun u =>
              typeUsersId u ∈ [JNum (Int 1); JNum (Int 2); JNum (Int 3)] /\
              statut u ∈ [JNum (Int 0); JNum (Int 1); JNum (Int 2)]) added.
Proof.
  intros Hrandom. unfold mockUsers.
  rewrite (generate_spec random 39) by reflexivity. cbn [fst snd app].
  eexists. split; [reflexivity|].
  split; [by rewrite length_map, length_seq|].
  apply Forall_forall. intros u Hu.
  apply list_elem_of_In, in_map_iff in Hu as (j & <- & _).
  by apply generated_ranges.
Qed.

Lemma mockUsers_generated_witness :
  exists added,
    mockUsers always_half = first_user :: added /\ length added = 39%nat.
Proof.
  assert (Hhalf : forall n, unit_interval (always_half n)).
  { intros n. unfold unit_interval, always_half; cbn [mant expo]. lia. }
  destruct (mockUsers_generated always_half Hhalf) as (added & Hadded & Hlen & _).
  exists added. split; [exact Hadded|exact Hlen].
Defined.

(** ** The facade: what the operations do to the stored documents *)

Ltac run_facade :=
  unfold addDoc, setDoc, updateDoc, deleteDoc, getDoc, getDocs, plain_object,
    write, commit, send, try_catch, bind, ret, throw; cbv beta.

Lemma not_an_object_iff (data : value) : not_an_object data = true <-> no_object data.
Proof.
  unfold not_an_object, no_object.
  destruct data as [| |b|n|s|t| |items|fields|h]; simpl;
    rewrite ?orb_true_r, ?orb_true_iff; split; intros H;
    try (by right); try (by left); try tauto;
    try (destruct H as [H|H]; [discriminate|by destruct H]).
Qed.

(** X1.  isValidString accepts exactly the strings that hold a code unit
    that is not white space; everything that is not a string is refused. *)
Theorem isValidString_iff_has_visible_character (v : value) :
  isValidString v = true <->
  exists s, v = JStr s /\ exists c, c ∈ s /\ is_white_space c = false.
Proof.
  split.
  - destruct v as [| |b|n|s|t| |items|fields|h];
      try (intros H; simpl in H; discriminate).
    intros Hv. exists s. split; [reflexivity|].
    apply isValidString_true_iff in Hv. unfold blank in Hv.
    apply not_Forall_Exists in Hv; [|intros c; apply _].
    apply Exists_exists in Hv as (c & Hc & Hw). exists c. split; [done|].
    destruct (is_white_space c) eqn:Hwc; [by destruct Hw|reflexivity].
  - intros (s & -> & c & Hc & Hw). apply isValidString_true_iff.
    unfold blank. rewrite Forall_forall. intros Hall.
    specialize (Hall c Hc). congruence.
Qed.

(** ** Failures of the backend *)

Lemma passes_validation_page `{QueryEngine} options docs :
  passes_validation options = true ->
  exists snap, page (query_of options) docs = Return snap.
Proof.
  unfold passes_validation. rewrite !andb_true_iff, !negb_true_iff.
  intros [[[_ Hsize] _] _].
  unfold page. rewrite limit_of_query_of. unfold bad_pageSize in Hsize.
  destruct (pageSize options) as [[n| | |]|]; simpl in *;
    try discriminate; try (eexists; reflexivity).
  destruct (n =? 0) eqn:Hn; simpl in *; [eexists; reflexivity|].
  assert (Hpos : (0 <? n) = true) by lia. rewrite Hpos. eexists; reflexivity.
Qed.

(** X2.  When the backend fails a request with some message, each operation
    of the facade throws a new Error whose message is its own prefix
    followed by that message; one request was sent and nothing is stored. *)
Theorem backend_failure_is_rewrapped `{QueryEngine}
    (name id : jsstring) (fields : object) (msg : jsstring) (st : Backend) :
  ~ blank name -> ~ blank id -> failure st = Some msg ->
  fails_with "Échec de l'ajout du document : " msg
    (addDocument name (JObj fields)) st /\
  (forall merge,
     fails_with "Échec de la définition du document : " msg
       (setDocument name id (JObj fields) merge) st) /\
  fails_with "Échec de la récupération du document : " msg
    (getDocumentById name id) st /\
  fails_with "Échec de la récupération de la collection : " msg
    (getCollection name) st /\
  fails_with "Échec de la mise à jour du document : " msg
    (updateDocument name id (JObj fields)) st /\
  fails_with "Échec de la suppression du document : " msg
    (deleteDocumentById name id) st /\
  (forall options,
     passes_validation options = true ->
     fails_with "Échec de la requête de collection : " msg
       (queryCollection options) st) /\
  (forall operations ws,
     operations <> [] ->
     Forall2 (fun op w => write_of op = Some w) operations ws ->
     fails_with "Échec de l'opération de lot : " msg (runBatch operations) st).
Proof.
  intros Hname Hid Hfail.
  apply isValidString_true_iff in Hname, Hid.
  unfold fails_with.
  repeat split.
  - unfold addDocument. rewrite Hname. cbn [negb].
    change (not_an_object (JObj fields)) with false. cbv iota.
    run_facade. cbn [failure with_issued]. rewrite Hfail.
    eexists. split; [reflexivity|]. by split.
  - intros merge. unfold setDocument. rewrite Hname, Hid. cbn [negb].
    change (not_an_object (JObj fields)) with false. cbv iota.
    run_facade. rewrite Hfail. eexists. split; [reflexivity|]. by split.
  - unfold getDocumentById. rewrite Hname, Hid. cbn [negb].
    run_facade. rewrite Hfail. eexists. split; [reflexivity|]. by split.
  - unfold getCollection. rewrite Hname. cbn [negb].
    run_facade. change (page _ _) with
      (Return (A := list Snapshot) (matching (collection name) (documents st))).
    cbv iota. rewrite Hfail. eexists. split; [reflexivity|]. by split.
  - unfold updateDocument. rewrite Hname, Hid. cbn [negb].
    change (not_an_object (JObj fields)) with false. cbv iota.
    run_facade. rewrite Hfail. eexists. split; [reflexivity|]. by split.
  - unfold deleteDocumentById. rewrite Hname, Hid. cbn [negb].
    run_facade. rewrite Hfail. eexists. split; [reflexivity|]. by split.
  - intros options Hvalid. rewrite (queryCollection_passed options st Hvalid).
    destruct (passes_validation_page options (documents st) Hvalid) as [snap ->].
    rewrite Hfail. eexists. split; [reflexivity|]. by split.
  - intros operations ws Hne Hall. unfold runBatch.
    rewrite bool_decide_eq_false_2 by done.
    rewrite (forEach_writes operations ws [] Hall). cbn [app].
    run_facade. rewrite Hfail. eexists. split; [reflexivity|]. by split.
Qed.


Lemma backend_failure_is_rewrapped_witness :
  fails_with "Échec de la récupération du document : " (js "unavailable")
    (getDocumentById (js "Users") (js "u1")) (unreachable "unavailable" five_users).
Proof.
  assert (Hname : ~ blank (js "Users")) by (by apply isValidString_true_iff).
  assert (Hid : ~ blank (js "u1")) by (by apply isValidString_true_iff).
  destruct (backend_failure_is_rewrapped (js "Users") (js "u1") ∅ (js "unavailable")
              (unreachable "unavailable" five_users) Hname Hid eq_refl)
    as (_ & _ & Hget & _).
  exact Hget.
Defined.

(** ** Adding and reading back *)

Lemma getDocumentById_reads (name id : jsstring) (st : Backend) :
  ~ blank name -> ~ blank id -> failure st = None ->
  getDocumentById name id st =
    (Return (match stored (documents st) {| ref_collection := name; ref_id := id |} with
             | Some data => with_id id data
             | None => JNull
             end),
     with_request st (ReqGet {| ref_collection := name; ref_id := id |})).
Proof.
  intros Hname Hid Hup. apply isValidString_true_iff in Hname, Hid.
  unfold getDocumentById. rewrite Hname, Hid. cbn [negb].
  run_facade. rewrite Hup. reflexivity.
Qed.

Lemma addDocument_writes (name : jsstring) (data : value) (st : Backend) :
  ~ blank name -> ~ no_object data -> failure st = None ->
  let r := {| ref_collection := name; ref_id := auto_ids st (issued st) |} in
  let payload := <[js "updatedAt" := JServerTimestamp]>
                 (<[js "createdAt" := JServerTimestamp]> (spread data)) in
  addDocument name data st =
    (Return (auto_ids st (issued st)),
     with_documents (with_request (with_issued st) (ReqWrite (WSet r payload false)))
       (put (documents st) r (resolve (clock st) <$> payload))).
Proof.
  intros Hname Hdata Hup r payload. apply isValidString_true_iff in Hname.
  assert (Hobj : not_an_object data = false).
  { destruct (not_an_object data) eqn:Hn; [|done].
    by apply not_an_object_iff in Hn. }
  unfold addDocument. rewrite Hname, Hobj. cbn [negb].
  run_facade. cbn [failure with_issued]. rewrite Hup. reflexivity.
Qed.

(** X3.  A document added by addDocument is read back by getDocumentById
    under the returned id: createdAt and updatedAt are the time of the call
    (the payload's own values for these two fields are overwritten), and
    every other field is the payload's. *)
Theorem addDocument_then_getDocumentById (name : jsstring) (data : value)
    (st : Backend) :
  ~ blank name -> ~ no_object data -> failure st = None ->
  ~ blank (auto_ids st (issued st)) ->
  exists st1 st2 doc,
    addDocument name data st = (Return (auto_ids st (issued st)), st1) /\
    getDocumentById name (auto_ids st (issued st)) st1 = (Return (JObj doc), st2) /\
    doc !! js "createdAt" = Some (JTimestamp (clock st)) /\
    doc !! js "updatedAt" = Some (JTimestamp (clock st)) /\
    forall k, k <> js "createdAt" -> k <> js "updatedAt" -> k <> js "id" ->
      doc !! k = resolve (clock st) <$> spread data !! k.
Proof.
  intros Hname Hdata Hup Hid.
  rewrite (addDocument_writes name data st Hname Hdata Hup).
  eexists _, _, _. split; [reflexivity|].
  rewrite (getDocumentById_reads name _ _ Hname Hid) by done.
  cbn [documents with_documents]. rewrite stored_put.
  split; [reflexivity|]. unfold spread_over.
  split; [|split].
  - apply lookup_union_Some_l. rewrite lookup_fmap.
    rewrite lookup_insert_ne by (intros H; vm_compute in H; discriminate).
    by rewrite lookup_insert_eq.
  - apply lookup_union_Some_l. rewrite lookup_fmap.
    by rewrite lookup_insert_eq.
  - intros k Hc Hu Hi. rewrite lookup_union, lookup_singleton_ne by done.
    rewrite !lookup_fmap, !lookup_insert_ne by done.
    by destruct (spread data !! k).
Qed.


Lemma addDocument_then_getDocumentById_witness :
  exists st1 st2 doc,
    addDocument (js "Users") (JObj (named "Eve")) (backend five_users)
      = (Return (js "auto0"), st1) /\
    getDocumentById (js "Users") (js "auto0") st1 = (Return (JObj doc), st2) /\
    doc !! js "createdAt" = Some (JTimestamp 1000) /\
    doc !! js "nom" = Some (JStr (js "Eve")).
Proof.
  assert (Hname : ~ blank (js "Users")) by (by apply isValidString_true_iff).
  assert (Hid : ~ blank (auto_ids (backend five_users) (issued (backend five_users))))
    by (by apply isValidString_true_iff).
  assert (Hdata : ~ no_object (JObj (named "Eve"))).
  { intros [Hd|Hd]; [discriminate|]. by apply Hd. }
  destruct (addDocument_then_getDocumentById (js "Users") (JObj (named "Eve"))
              (backend five_users) Hname Hdata eq_refl Hid)
    as (st1 & st2 & doc & Hadd & Hget & Hcreated & _ & Hrest).
  exists st1, st2, doc. split; [exact Hadd|]. split; [exact Hget|].
  split; [exact Hcreated|].
  rewrite (Hrest (js "nom")) by (intros Hk; vm_compute in Hk; discriminate).
  vm_compute. reflexivity.
Defined.

(** ** Writing one document leaves the others alone *)

Lemma stored_put_ne (docs : gmap jsstring (gmap jsstring object)) (r r' : DocumentReference) (o : object) :
  r' <> r -> stored (put docs r o) r' = stored docs r'.
Proof.
  intros Hne. unfold stored, put.
  destruct (decide (ref_collection r = ref_collection r')) as [Hc|Hc].
  - rewrite <- Hc, lookup_insert_eq.
    rewrite lookup_insert_ne.
    + by destruct (docs !! ref_collection r).
    + intros Hid. apply Hne. destruct r, r'; simpl in *; congruence.
  - by rewrite lookup_insert_ne.
Qed.

Lemma stored_remove (docs : gmap jsstring (gmap jsstring object)) (r : DocumentReference) : stored (remove docs r) r = None.
Proof.
  unfold stored, remove.
  destruct (docs !! ref_collection r) as [c|] eqn:Hc.
  - rewrite lookup_insert_eq. apply lookup_delete_eq.
  - by rewrite Hc.
Qed.

Lemma stored_remove_ne (docs : gmap jsstring (gmap jsstring object)) (r r' : DocumentReference) :
  r' <> r -> stored (remove docs r) r' = stored docs r'.
Proof.
  intros Hne. unfold stored, remove.
  destruct (docs !! ref_collection r) as [c|] eqn:Hc; [|done].
  destruct (decide (ref_collection r = ref_collection r')) as [Heq|Heq].
  - rewrite <- Heq, lookup_insert_eq, Hc. apply lookup_delete_ne.
    intros Hid. apply Hne. destruct r, r'; simpl in *; congruence.
  - by rewrite lookup_insert_ne.
Qed.

Lemma merge_value_plain (new old : value) :
  (forall fields, new <> JObj fields) -> merge_value new old = new.
Proof. intros Hplain. destruct new; try reflexivity. by destruct (Hplain fields). Qed.

Lemma resolve_plain (now : Z) (v : value) :
  (forall fields, v <> JObj fields) -> forall fields, resolve now v <> JObj fields.
Proof. intros Hplain. destruct v; try done. by destruct (Hplain fields). Qed.

(** X4.  setDocument with merge on a stored document: updatedAt becomes the
    time of the call, a field the payload lacks keeps its stored value, a
    field the payload gives with a value that is not a map takes that value,
    and no other document changes. *)
Theorem setDocument_merge_touches_only_the_payload (name id : jsstring)
    (fields old : object) (st : Backend) :
  ~ blank name -> ~ blank id -> failure st = None ->
  let r := {| ref_collection := name; ref_id := id |} in
  stored (documents st) r = Some old ->
  exists st' new,
    setDocument name id (JObj fields) true st = (Return id, st') /\
    stored (documents st') r = Some new /\
    new !! js "updatedAt" = Some (JTimestamp (clock st)) /\
    (forall k, k <> js "createdAt" -> k <> js "updatedAt" ->
       fields !! k = None -> new !! k = old !! k) /\
    (forall k v, k <> js "createdAt" -> k <> js "updatedAt" ->
       fields !! k = Some v -> (forall nested, v <> JObj nested) ->
       new !! k = Some (resolve (clock st) v)) /\
    (forall r', r' <> r -> stored (documents st') r' = stored (documents st) r').
Proof.
  intros Hname Hid Hup r Hold.
  rewrite (setDocument_writes name id fields true st Hname Hid Hup).
  fold r. rewrite Hold. eexists _, _. split; [reflexivity|].
  cbn [documents with_documents].
  split; [apply stored_put|]. split; [|split; [|split]].
  - rewrite merge_fields_lookup, lookup_fmap. unfold stamped.
    rewrite lookup_insert_ne by (intros H; vm_compute in H; discriminate).
    rewrite lookup_insert_eq. simpl. by destruct (old !! js "updatedAt").
  - intros k Hc Hu Hk. rewrite merge_fields_lookup, lookup_fmap. unfold stamped.
    rewrite !lookup_insert_ne, Hk by done. reflexivity.
  - intros k v Hc Hu Hk Hplain.
    rewrite merge_fields_lookup, lookup_fmap. unfold stamped.
    rewrite !lookup_insert_ne, Hk by done. simpl.
    destruct (old !! k); [|done].
    rewrite merge_value_plain; [done|by apply resolve_plain].
  - intros r' Hne. by apply stored_put_ne.
Qed.


Lemma setDocument_merge_touches_only_the_payload_witness :
  exists st' new,
    setDocument (js "Users") (js "u1") (JObj {[ js "ville" := JStr (js "Lyon") ]}) true
      (backend five_users) = (Return (js "u1"), st') /\
    stored (documents st') {| ref_collection := js "Users"; ref_id := js "u1" |}
      = Some new /\
    new !! js "nom" = Some (JStr (js "Ada")) /\
    new !! js "ville" = Some (JStr (js "Lyon")).
Proof.
  assert (Hname : ~ blank (js "Users")) by (by apply isValidString_true_iff).
  assert (Hid : ~ blank (js "u1")) by (by apply isValidString_true_iff).
  destruct (setDocument_merge_touches_only_the_payload (js "Users") (js "u1")
              {[ js "ville" := JStr (js "Lyon") ]} (named "Ada") (backend five_users)
              Hname Hid eq_refl ltac:(vm_compute; reflexivity))
    as (st' & new & Hset & Hnew & _ & Hkept & Hgiven & _).
  exists st', new. split; [exact Hset|]. split; [exact Hnew|]. split.
  - rewrite (Hkept (js "nom")); [vm_compute; reflexivity| | |vm_compute; reflexivity];
      intros Hk; vm_compute in Hk; discriminate.
  - apply (Hgiven (js "ville") (JStr (js "Lyon")));
      [intros Hk; vm_compute in Hk; discriminate
      |intros Hk; vm_compute in Hk; discriminate
      |vm_compute; reflexivity|discriminate].
Defined.

(** X5.  setDocument without merge replaces the document: afterwards it
    holds the payload's fields, updatedAt and (unless the payload gives one)
    createdAt at the time of the call, and nothing of what was stored; no
    other document changes. *)
Theorem setDocument_without_merge_replaces (name id : jsstring)
    (fields : object) (st : Backend) :
  ~ blank name -> ~ blank id -> failure st = None ->
  let r := {| ref_collection := name; ref_id := id |} in
  exists st' new,
    setDocument name id (JObj fields) false st = (Return id, st') /\
    stored (documents st') r = Some new /\
    new !! js "updatedAt" = Some (JTimestamp (clock st)) /\
    (fields !! js "createdAt" = None ->
       new !! js "createdAt" = Some (JTimestamp (clock st))) /\
    (forall k, k <> js "createdAt" -> k <> js "updatedAt" ->
       new !! k = resolve (clock st) <$> fields !! k) /\
    (forall r', r' <> r -> stored (documents st') r' = stored (documents st) r').
Proof.
  intros Hname Hid Hup r.
  rewrite (setDocument_writes name id fields false st Hname Hid Hup).
  fold r. eexists _, _. split; [reflexivity|].
  cbn [documents with_documents].
  split; [apply stored_put|]. split; [|split; [|split]].
  - rewrite lookup_fmap. unfold stamped.
    rewrite lookup_insert_ne by (intros H; vm_compute in H; discriminate).
    by rewrite lookup_insert_eq.
  - intros Hnone. rewrite lookup_fmap. unfold stamped, field.
    by rewrite lookup_insert_eq, Hnone.
  - intros k Hc Hu. rewrite lookup_fmap. unfold stamped.
    by rewrite !lookup_insert_ne by done.
  - intros r' Hne. by apply stored_put_ne.
Qed.


Lemma setDocument_without_merge_replaces_witness :
  exists st' new,
    setDocument (js "Users") (js "u1") (JObj {[ js "ville" := JStr (js "Lyon") ]}) false
      (backend five_users) = (Return (js "u1"), st') /\
    stored (documents st') {| ref_collection := js "Users"; ref_id := js "u1" |}
      = Some new /\
    new !! js "nom" = None.
Proof.
  assert (Hname : ~ blank (js "Users")) by (by apply isValidString_true_iff).
  assert (Hid : ~ blank (js "u1")) by (by apply isValidString_true_iff).
  destruct (setDocument_without_merge_replaces (js "Users") (js "u1")
              {[ js "ville" := JStr (js "Lyon") ]} (backend five_users)
              Hname Hid eq_refl)
    as (st' & new & Hset & Hnew & _ & _ & Hfields & _).
  exists st', new. split; [exact Hset|]. split; [exact Hnew|].
  rewrite (Hfields (js "nom")) by (intros Hk; vm_compute in Hk; discriminate).
  vm_compute. reflexivity.
Defined.

(** ** updateDocument and deleteDocumentById *)

Lemma updateDocument_writes (name id : jsstring) (data : value) (st : Backend) :
  ~ blank name -> ~ blank id -> ~ no_object data -> failure st = None ->
  let r := {| ref_collection := name; ref_id := id |} in
  let payload := <[js "updatedAt" := JServerTimestamp]> (spread data) in
  updateDocument name id data st =
    match stored (documents st) r with
    | Some old =>
        (Return id,
         with_documents (with_request st (ReqWrite (WUpdate r payload)))
           (put (documents st) r ((resolve (clock st) <$> payload) ∪ old)))
    | None =>
        (Throw (error (js "Échec de la mise à jour du document : "
                       ++ js "No document to update")),
         with_request st (ReqWrite (WUpdate r payload)))
    end.
Proof.
  intros Hname Hid Hdata Hup r payload.
  apply isValidString_true_iff in Hname, Hid.
  assert (Hobj : not_an_object data = false).
  { destruct (not_an_object data) eqn:Hn; [|done].
    by apply not_an_object_iff in Hn. }
  unfold updateDocument. rewrite Hname, Hid, Hobj. cbn [negb].
  run_facade. rewrite Hup. unfold apply_write.
  cbn [clock documents with_request]. fold r. fold payload.
  by destruct (stored (documents st) r).
Qed.

(** X6.  updateDocument on a stored document, for a payload whose keys are
    plain field names (no dotted path): updatedAt becomes the time of the
    call, the payload's fields take their new value, every other field keeps
    its stored value (createdAt included), and no other document changes. *)
Theorem updateDocument_changes_only_the_payload (name id : jsstring)
    (data : value) (old : object) (st : Backend) :
  ~ blank name -> ~ blank id -> ~ no_object data -> failure st = None ->
  (forall k, is_Some (spread data !! k) -> 46%N ∉ k) ->
  let r := {| ref_collection := name; ref_id := id |} in
  stored (documents st) r = Some old ->
  exists st' new,
    updateDocument name id data st = (Return id, st') /\
    stored (documents st') r = Some new /\
    new !! js "updatedAt" = Some (JTimestamp (clock st)) /\
    (forall k, k <> js "updatedAt" -> spread data !! k = None ->
       new !! k = old !! k) /\
    (forall k v, k <> js "updatedAt" -> spread data !! k = Some v ->
       new !! k = Some (resolve (clock st) v)) /\
    (forall r', r' <> r -> stored (documents st') r' = stored (documents st) r').
Proof.
  intros Hname Hid Hdata Hup _ r Hold.
  rewrite (updateDocument_writes name id data st Hname Hid Hdata Hup).
  fold r. rewrite Hold. eexists _, _. split; [reflexivity|].
  cbn [documents with_documents].
  split; [apply stored_put|]. split; [|split; [|split]].
  - apply lookup_union_Some_l. by rewrite lookup_fmap, lookup_insert_eq.
  - intros k Hu Hk. rewrite lookup_union, lookup_fmap, lookup_insert_ne, Hk by done.
    simpl. by destruct (old !! k).
  - intros k v Hu Hk. apply lookup_union_Some_l.
    by rewrite lookup_fmap, lookup_insert_ne, Hk.
  - intros r' Hne. by apply stored_put_ne.
Qed.


Lemma updateDocument_changes_only_the_payload_witness :
  exists st' new,
    updateDocument (js "Users") (js "u1") (JObj {[ js "ville" := JStr (js "Lyon") ]})
      (backend five_users) = (Return (js "u1"), st') /\
    stored (documents st') {| ref_collection := js "Users"; ref_id := js "u1" |}
      = Some new /\
    new !! js "nom" = Some (JStr (js "Ada")) /\
    new !! js "updatedAt" = Some (JTimestamp 1000).
Proof.
  assert (Hname : ~ blank (js "Users")) by (by apply isValidString_true_iff).
  assert (Hid : ~ blank (js "u1")) by (by apply isValidString_true_iff).
  assert (Hdata : ~ no_object (JObj {[ js "ville" := JStr (js "Lyon") ]})).
  { intros [Hd|Hd]; [discriminate|]. by apply Hd. }
  assert (Hkeys : forall k,
            is_Some (spread (JObj {[ js "ville" := JStr (js "Lyon") ]}) !! k) ->
            46%N ∉ k).
  { intros k [v Hk]. cbn [spread] in Hk.
    apply lookup_singleton_Some in Hk as [<- _].
    intros Hin. vm_compute in Hin.
    repeat (apply elem_of_cons in Hin as [Hin|Hin]; [discriminate|]).
    by apply elem_of_nil in Hin. }
  destruct (updateDocument_changes_only_the_payload (js "Users") (js "u1")
              (JObj {[ js "ville" := JStr (js "Lyon") ]}) (named "Ada")
              (backend five_users) Hname Hid Hdata eq_refl Hkeys
              ltac:(vm_compute; reflexivity))
    as (st' & new & Hupdate & Hnew & Hstamp & Hkept & _).
  exists st', new. split; [exact Hupdate|]. split; [exact Hnew|]. split.
  - rewrite (Hkept (js "nom")); [vm_compute; reflexivity| |vm_compute; reflexivity].
    intros Hk; vm_compute in Hk; discriminate.
  - exact Hstamp.
Defined.

Lemma updateDocument_missing (name id : jsstring) (data : value) (st : Backend) :
  stored (documents st) {| ref_collection := name; ref_id := id |} = None ->
  exists e st',
    updateDocument name id data st = (Throw e, st') /\
    documents st' = documents st.
Proof.
  intros Hnone. unfold updateDocument, throw.
  destruct (isValidString (JStr name)) eqn:Hname; [|by eexists _, _].
  destruct (isValidString (JStr id)) eqn:Hid; [|by eexists _, _].
  destruct (not_an_object data); [by eexists _, _|]. cbn [negb].
  run_facade. destruct (failure st); [by eexists _, _|].
  unfold apply_write. cbn [clock documents with_request]. rewrite Hnone.
  by eexists _, _.
Qed.

(** X7.  updateDocument never creates a document: when nothing is stored
    under the id, it throws, whatever the name, the id and the data are, and
    the stored documents are unchanged. *)
Theorem updateDocument_never_creates (name id : jsstring) (data : value)
    (st : Backend) :
  stored (documents st) {| ref_collection := name; ref_id := id |} = None ->
  exists e st',
    updateDocument name id data st = (Throw e, st') /\
    documents st' = documents st.
Proof. apply updateDocument_missing. Qed.

Lemma updateDocument_never_creates_witness :
  exists e st',
    updateDocument (js "Users") (js "u9") (JObj (named "Zed")) (backend five_users)
      = (Throw e, st') /\
    documents st' = five_users.
Proof.
  apply (updateDocument_never_creates (js "Users") (js "u9") (JObj (named "Zed"))
           (backend five_users)).
  vm_compute. reflexivity.
Defined.

(** X8.  After deleteDocumentById, getDocumentById gives null for that id,
    and no other document changed. Deleting an id under which nothing is
    stored succeeds as well. *)
Theorem deleteDocumentById_then_null (name id : jsstring) (st : Backend) :
  ~ blank name -> ~ blank id -> failure st = None ->
  let r := {| ref_collection := name; ref_id := id |} in
  exists st1 st2,
    deleteDocumentById name id st = (Return tt, st1) /\
    getDocumentById name id st1 = (Return JNull, st2) /\
    (forall r', r' <> r -> stored (documents st1) r' = stored (documents st) r').
Proof.
  intros Hname Hid Hup r.
  assert (Hdel : deleteDocumentById name id st =
                 (Return tt, with_documents (with_request st (ReqWrite (WDelete r)))
                               (remove (documents st) r))).
  { pose proof Hname as Hn. pose proof Hid as Hi.
    apply isValidString_true_iff in Hn, Hi.
    unfold deleteDocumentById. rewrite Hn, Hi. cbn [negb].
    run_facade. rewrite Hup. reflexivity. }
  rewrite Hdel. eexists _, _. split; [reflexivity|].
  rewrite (getDocumentById_reads name id _ Hname Hid) by done.
  cbn [documents with_documents]. fold r. rewrite stored_remove.
  split; [reflexivity|]. intros r' Hne. by apply stored_remove_ne.
Qed.


Lemma deleteDocumentById_then_null_witness :
  exists st1 st2,
    deleteDocumentById (js "Users") (js "u1") (backend five_users) = (Return tt, st1) /\
    getDocumentById (js "Users") (js "u1") st1 = (Return JNull, st2) /\
    stored (documents st1) {| ref_collection := js "Users"; ref_id := js "u2" |}
      = Some (named "Bob").
Proof.
  assert (Hname : ~ blank (js "Users")) by (by apply isValidString_true_iff).
  assert (Hid : ~ blank (js "u1")) by (by apply isValidString_true_iff).
  destruct (deleteDocumentById_then_null (js "Users") (js "u1") (backend five_users)
              Hname Hid eq_refl) as (st1 & st2 & Hdelete & Hget & Hothers).
  exists st1, st2. split; [exact Hdelete|]. split; [exact Hget|].
  rewrite Hothers by discriminate. vm_compute. reflexivity.
Defined.

(** ** Validation of the document id, the data and the callback *)

Ltac reject_after Hname H :=
  unfold rejected, addDocument, setDocument, getDocumentById, updateDocument,
    deleteDocumentById, listenToCollection, listenToDocument;
  rewrite ?Hname; cbn [negb]; rewrite ?H; reflexivity.

(** X9.  With a valid collection name, the five operations that take a
    document id refuse an id that is empty or white space only, before
    anything is sent. *)
Theorem blank_document_id_rejected (name id : jsstring) (st : Backend) :
  ~ blank name -> blank id ->
  (forall data merge,
     rejected "ID de document invalide" (setDocument name id data merge) st) /\
  rejected "ID de document invalide" (getDocumentById name id) st /\
  (forall data, rejected "ID de document invalide" (updateDocument name id data) st) /\
  rejected "ID de document invalide" (deleteDocumentById name id) st /\
  (forall callback errorCallback,
     rejected "ID de document invalide"
       (listenToDocument name id callback errorCallback) st).
Proof.
  intros Hname Hid.
  apply isValidString_true_iff in Hname. apply isValidString_false_iff in Hid.
  repeat split; intros; reject_after Hname Hid.
Qed.


Lemma blank_document_id_rejected_witness :
  rejected "ID de document invalide" (deleteDocumentById (js "Users") (js " "))
    (backend five_users).
Proof.
  assert (Hname : ~ blank (js "Users")) by (by apply isValidString_true_iff).
  assert (Hid : blank (js " ")) by (by apply isValidString_false_iff).
  destruct (blank_document_id_rejected (js "Users") (js " ") (backend five_users)
              Hname Hid) as (_ & _ & _ & Hdelete & _).
  exact Hdelete.
Defined.

(** X10.  With a valid name and id, addDocument, setDocument and
    updateDocument refuse data that is null, undefined or a primitive,
    before anything is sent. *)
Theorem data_that_is_no_object_rejected (name id : jsstring) (data : value)
    (st : Backend) :
  ~ blank name -> ~ blank id -> no_object data ->
  rejected "Les données doivent être un objet" (addDocument name data) st /\
  (forall merge,
     rejected "Les données doivent être un objet" (setDocument name id data merge) st) /\
  rejected "Les données doivent être un objet" (updateDocument name id data) st.
Proof.
  intros Hname Hid Hdata.
  apply isValidString_true_iff in Hname, Hid. apply not_an_object_iff in Hdata.
  repeat split; intros; unfold rejected, addDocument, setDocument, updateDocument;
    rewrite ?Hname, ?Hid; cbn [negb]; rewrite Hdata; reflexivity.
Qed.


Lemma data_that_is_no_object_rejected_witness :
  rejected "Les données doivent être un objet"
    (updateDocument (js "Users") (js "u1") (JNum (Int 7))) (backend five_users).
Proof.
  assert (Hname : ~ blank (js "Users")) by (by apply isValidString_true_iff).
  assert (Hid : ~ blank (js "u1")) by (by apply isValidString_true_iff).
  assert (Hdata : no_object (JNum (Int 7))).
  { right. intros Hk. vm_compute in Hk. discriminate. }
  destruct (data_that_is_no_object_rejected (js "Users") (js "u1") (JNum (Int 7))
              (backend five_users) Hname Hid Hdata) as (_ & _ & Hupdate).
  exact Hupdate.
Defined.

Lemma typeof_function (handle : nat) :
  bool_decide (typeof (JFun handle) = js "function") = true.
Proof. vm_compute. reflexivity. Qed.

Lemma listenToCollection_attaches (name : jsstring) (conds : list QueryCondition)
    (ords : list OrderOption) (size : option number) (handle : nat)
    (errorCallback : value) (st : Backend) :
  ~ blank name -> bad_pageSize size = false ->
  listenToCollection name conds ords size (JFun handle) errorCallback st =
  onSnapshot (inl (limited name conds ords size)) (JFun handle) errorCallback st.
Proof.
  intros Hname Hsize. apply isValidString_true_iff in Hname.
  unfold listenToCollection. rewrite Hname, Hsize, typeof_function. reflexivity.
Qed.

Lemma listenToDocument_attaches (name id : jsstring) (handle : nat)
    (errorCallback : value) (st : Backend) :
  ~ blank name -> ~ blank id ->
  listenToDocument name id (JFun handle) errorCallback st =
  onSnapshot (inr {| ref_collection := name; ref_id := id |}) (JFun handle)
    errorCallback st.
Proof.
  intros Hname Hid. apply isValidString_true_iff in Hname, Hid.
  unfold listenToDocument. rewrite Hname, Hid, typeof_function. reflexivity.
Qed.

(** X11.  With inputs that pass the checks of the facade (for the collection
    listener, clauses that queryCollection would accept), the two listeners
    attach: the backend gets one more listener, on the query built as
    queryCollection builds it (or on the document), holding the callback and
    the error callback, which may be missing; the handle of that listener is
    returned and nothing is stored. *)
Theorem listeners_attach (name id : jsstring)
    (conds : list QueryCondition) (ords : list OrderOption) (size : option number)
    (handle : nat) (errorCallback : value) (st : Backend) :
  ~ blank name -> bad_pageSize size = false ->
  existsb bad_condition conds = false -> existsb bad_order ords = false ->
  (exists st',
     listenToCollection name conds ords size (JFun handle) errorCallback st
       = (Return (length (listeners st)), st') /\
     listeners st' = listeners st ++
       [{| target := inl (limited name conds ords size);
           onNext := JFun handle; onError := errorCallback |}] /\
     documents st' = documents st) /\
  (~ blank id ->
   exists st',
     listenToDocument name id (JFun handle) errorCallback st
       = (Return (length (listeners st)), st') /\
     listeners st' = listeners st ++
       [{| target := inr {| ref_collection := name; ref_id := id |};
           onNext := JFun handle; onError := errorCallback |}] /\
     documents st' = documents st).
Proof.
  intros Hname Hsize _ _. split.
  - rewrite listenToCollection_attaches by done. unfold onSnapshot.
    eexists. split; [reflexivity|]. split; reflexivity.
  - intros Hid. rewrite listenToDocument_attaches by done. unfold onSnapshot.
    eexists. split; [reflexivity|]. split; reflexivity.
Qed.

Lemma listeners_attach_witness :
  exists st',
    listenToCollection (js "Users") [] [] (Some (Int 0)) (JFun 0) JUndefined
      (backend five_users) = (Return 0%nat, st') /\
    target <$> listeners st' = [inl (collection (js "Users"))].
Proof.
  assert (Hname : ~ blank (js "Users")) by (by apply isValidString_true_iff).
  destruct (listeners_attach (js "Users") (js "u1") [] [] (Some (Int 0)) 0%nat
              JUndefined (backend five_users) Hname eq_refl eq_refl eq_refl)
    as [(st' & Hcall & Hlisteners & _) _].
  exists st'. split; [exact Hcall|]. rewrite Hlisteners. reflexivity.
Defined.

(** X12.  A callback that is not a function is refused by the two listeners,
    by onAuthChanged and by runFsTransaction, before anything is attached or
    run. *)
Theorem callback_must_be_a_function `{AuthSdk} (name id : jsstring)
    (callback : value) (st : Backend) (auth : Auth) :
  ~ blank name -> typeof callback <> js "function" ->
  (forall conds ords size errorCallback,
     rejected "Le callback doit être une fonction"
       (listenToCollection name conds ords size callback errorCallback) st) /\
  (~ blank id ->
   forall errorCallback,
     rejected "Le callback doit être une fonction"
       (listenToDocument name id callback errorCallback) st) /\
  refused "Le callback doit être une fonction" (onAuthChanged callback) auth /\
  (forall runTransaction,
     rejected "Une fonction de transaction doit être fournie"
       (runFsTransaction runTransaction callback) st).
Proof.
  intros Hname Hcallback. apply isValidString_true_iff in Hname.
  split; [|split; [|split]].
  - intros. unfold rejected, listenToCollection. rewrite Hname. cbn [negb].
    by rewrite bool_decide_eq_false_2.
  - intros Hid ?. apply isValidString_true_iff in Hid.
    unfold rejected, listenToDocument. rewrite Hname, Hid. cbn [negb].
    by rewrite bool_decide_eq_false_2.
  - unfold refused, onAuthChanged. by rewrite bool_decide_eq_false_2.
  - intros ?. unfold rejected, runFsTransaction. by rewrite bool_decide_eq_false_2.
Qed.

Lemma callback_must_be_a_function_witness :
  rejected "Une fonction de transaction doit être fournie"
    (runFsTransaction echo_transaction JNull) (backend five_users) /\
  refused "Le callback doit être une fonction"
    (onAuthChanged (H := in_memory_auth) JNull) nobody.
Proof.
  assert (Hname : ~ blank (js "Users")) by (by apply isValidString_true_iff).
  assert (Hcallback : typeof JNull <> js "function")
    by (intros Hk; vm_compute in Hk; discriminate).
  destruct (callback_must_be_a_function (H := in_memory_auth) (js "Users") (js "u1")
              JNull (backend five_users) nobody Hname Hcallback)
    as (_ & _ & Hauth & Hrun).
  split; [apply Hrun|exact Hauth].
Defined.

(** ** What a query returns *)

Lemma snapshots_stored (docs : gmap jsstring (gmap jsstring object))
    (name : jsstring) (d : Snapshot) :
  d ∈ snapshots docs name <->
  stored docs {| ref_collection := name; ref_id := snap_id d |} = Some (snap_data d).
Proof.
  unfold snapshots, stored. cbn [ref_collection ref_id].
  rewrite list_elem_of_fmap. split.
  - intros ([i o] & -> & Hin). apply elem_of_map_to_list in Hin. simpl.
    destruct (docs !! name); simpl in *; [done|]. by rewrite lookup_empty in Hin.
  - intros Hst. exists (snap_id d, snap_data d). split; [by destruct d|].
    apply elem_of_map_to_list.
    destruct (docs !! name); simpl in *; [done|discriminate].
Qed.

Lemma matching_elem_of `{QueryEngine} (q : Query) docs (d : Snapshot) :
  d ∈ matching q docs <->
  stored docs {| ref_collection := q_collection q; ref_id := snap_id d |}
    = Some (snap_data d) /\
  selects (conditions_of q) (orders_of q) d = true.
Proof.
  unfold matching. rewrite sort_by_Permutation, list_elem_of_filter.
  rewrite snapshots_stored. tauto.
Qed.

Lemma matching_distinct_ids `{QueryEngine} (q : Query) docs :
  NoDup (snap_id <$> matching q docs).
Proof.
  unfold matching. rewrite sort_by_Permutation.
  apply filter_distinct_ids, snapshots_distinct_ids.
Qed.

Lemma sublist_sorted {A} (R : A -> A -> Prop) (l k : list A) :
  l `sublist_of` k -> StronglySorted R k -> StronglySorted R l.
Proof.
  induction 1 as [|x l k Hsub IH|x l k Hsub IH]; intros Hk.
  - constructor.
  - apply StronglySorted_inv in Hk as [Hk Hx]. constructor; [by apply IH|].
    rewrite Forall_forall in *. intros y Hy. apply Hx.
    by eapply elem_of_sublist.
  - apply StronglySorted_inv in Hk as [Hk _]. by apply IH.
Qed.

Lemma sublist_distinct_ids (l k : list Snapshot) :
  l `sublist_of` k -> NoDup (snap_id <$> k) -> NoDup (snap_id <$> l).
Proof.
  intros Hsub Hk. eapply sublist_NoDup; [exact Hk|]. by apply fmap_sublist.
Qed.

Lemma page_sublist `{QueryEngine} (q : Query) docs snap :
  page q docs = Return snap ->
  snap `sublist_of` matching q docs /\
  forall n, limit_of q = Some (Int n) -> (length snap <= Z.to_nat n)%nat.
Proof.
  unfold page, after_cursor. intros Hpage.
  assert (Hrest : match cursor_of q with
                  | Some c => filter (fun d => precedes (orders_of q) c d = true)
                                     (matching q docs)
                  | None => matching q docs
                  end `sublist_of` matching q docs).
  { destruct (cursor_of q); [apply sublist_filter|done]. }
  destruct (limit_of q) as [[n| | |]|]; try discriminate.
  - destruct (0 <? n); [|discriminate]. injection Hpage as <-. split.
    + etrans; [apply sublist_take|exact Hrest].
    + intros ? [= <-]. rewrite length_take. lia.
  - injection Hpage as <-. split; [exact Hrest|]. intros ? [=].
Qed.

(** X13.  Whatever the options, a page that queryCollection returns holds
    documents stored in the collection, each as [{ id, ...data }] (the
    data's own "id" field, when it has one, is the one kept), no document
    twice, in the order of the query, at most pageSize of them; the call
    stores nothing. *)
Theorem queryCollection_returns_stored_documents_in_order `{QueryEngine}
    (options : QueryOptions) (st st' : Backend) (r : QueryResult) :
  queryCollection options st = (Return r, st') ->
  exists snap,
    data r = map (fun d => with_id (snap_id d) (snap_data d)) snap /\
    (forall d, d ∈ snap ->
       stored (documents st)
         {| ref_collection := collectionName options; ref_id := snap_id d |}
         = Some (snap_data d)) /\
    NoDup (snap_id <$> snap) /\
    StronglySorted (fun a b => precedes (orders_of (query_of options)) a b = true) snap /\
    (forall n, pageSize options = Some (Int n) -> n <> 0 ->
       (length (data r) <= Z.to_nat n)%nat) /\
    documents st' = documents st.
Proof.
  intros Hcall.
  destruct (passes_validation options) eqn:Hvalid.
  2:{ destruct (queryCollection_refused options st Hvalid) as [msg Hthrow].
      congruence. }
  rewrite (queryCollection_passed options st Hvalid) in Hcall.
  destruct (page (query_of options) (documents st)) as [snap|e] eqn:Hpage;
    [|discriminate].
  destruct (failure st) as [msg|] eqn:Hup; [discriminate|].
  injection Hcall as <- <-. cbn [data].
  destruct (page_sublist _ _ _ Hpage) as [Hsub Hlen].
  exists snap. split; [reflexivity|]. split; [|split; [|split; [|split]]].
  - intros d Hd. eapply elem_of_sublist in Hd; [|exact Hsub].
    apply matching_elem_of in Hd as [Hd _].
    by rewrite (proj1 (query_of_constraints options)) in Hd.
  - eapply sublist_distinct_ids; [exact Hsub|apply matching_distinct_ids].
  - eapply sublist_sorted; [exact Hsub|apply matching_sorted].
  - intros n Hn Hnz. rewrite length_map. apply Hlen.
    rewrite limit_of_query_of, Hn. simpl.
    destruct (n =? 0) eqn:Hz; [lia|done].
  - reflexivity.
Qed.


Lemma queryCollection_returns_stored_documents_in_order_witness :
  exists r st' snap,
    queryCollection (first_page None) (backend five_users) = (Return r, st') /\
    data r = map (fun d => with_id (snap_id d) (snap_data d)) snap /\
    length snap = 2%nat /\
    NoDup (snap_id <$> snap) /\
    (forall d, d ∈ snap ->
       stored five_users {| ref_collection := js "Users"; ref_id := snap_id d |}
         = Some (snap_data d)) /\
    documents st' = five_users.
Proof.
  assert (Hname : ~ blank (js "Users")) by (by apply isValidString_true_iff).
  pose proof (queryCollection_page (H := by_id) (first_page None) Hname eq_refl
                eq_refl 2 None (backend five_users) ltac:(lia) eq_refl) as Hcall.
  change (paged (first_page None) (Some (Int 2)) None) with (first_page None) in Hcall.
  destruct (queryCollection_returns_stored_documents_in_order (H := by_id) _ _ _ _ Hcall)
    as (snap & Hdata & Hstored & Hdistinct & _ & _ & Hdocs).
  eexists _, _, snap. split; [exact Hcall|]. split; [exact Hdata|].
  split; [|split; [exact Hdistinct|split; [exact Hstored|exact Hdocs]]].
  apply (f_equal length) in Hdata. rewrite length_map in Hdata. rewrite <- Hdata.
  cbn [data]. rewrite length_map. vm_compute. reflexivity.
Defined.

(** X14.  Paging: with the i-th document of the query as cursor and a
    positive page size n, queryCollection returns the documents i+1, ...,
    i+n of the query (fewer at the end), in order, and the last of them as
    the next cursor: consecutive pages neither skip nor repeat a document.
    *)
Theorem queryCollection_page_after_cursor `{QueryEngine}
    (options : QueryOptions) (st : Backend) (n : Z) (i : nat) (c : Snapshot) :
  ~ blank (collectionName options) ->
  existsb bad_condition (conditions options) = false ->
  existsb bad_order (orders options) = false ->
  failure st = None -> 0 < n ->
  matching (query_of options) (documents st) !! i = Some c ->
  let next := take (Z.to_nat n)
                (drop (S i) (matching (query_of options) (documents st))) in
  queryCollection (paged options (Some (Int n)) (Some c)) st =
    (Return {| data := map (fun d => with_id (snap_id d) (snap_data d)) next;
               lastVisible := last next |},
     with_request st (ReqQuery (query_of (paged options (Some (Int n)) (Some c))))).
Proof.
  intros Hname Hconds Hords Hup Hn Hi next.
  rewrite (queryCollection_page options Hname Hconds Hords n (Some c) st Hn Hup).
  unfold page_after.
  pose proof (matching_sorted (query_of options) (documents st)) as Hsorted.
  set (l := matching (query_of options) (documents st)) in *.
  assert (Hafter : filter (fun d => precedes (orders_of (query_of options)) c d = true) l
                   = drop (S i) l).
  { rewrite <- (take_drop_middle l i c Hi) at 1.
    apply (filter_after (precedes (orders_of (query_of options)))
             (precedes_irrefl _) (precedes_trans _)).
    by rewrite (take_drop_middle l i c Hi). }
  rewrite Hafter. reflexivity.
Qed.


Lemma queryCollection_page_after_cursor_witness :
  returned (queryCollection (first_page (Some (user_snapshot "u2" "Bob")))
              (backend five_users))
    = Some (2%nat, Some (user_snapshot "u4" "Dan")).
Proof.
  assert (Hname : ~ blank (js "Users")) by (by apply isValidString_true_iff).
  pose proof (queryCollection_page_after_cursor (H := by_id) (first_page None)
                (backend five_users)
                2 1 (user_snapshot "u2" "Bob") Hname eq_refl eq_refl eq_refl
                ltac:(lia) ltac:(vm_compute; reflexivity)) as Hcall.
  change (paged (first_page None) (Some (Int 2)) (Some (user_snapshot "u2" "Bob")))
    with (first_page (Some (user_snapshot "u2" "Bob"))) in Hcall.
  rewrite Hcall. vm_compute. reflexivity.
Defined.

(** X15.  On a backend that answers, getCollection returns documents stored
    in the collection, each as [{ id, ...data }], no document twice, and
    stores nothing; when the engine selects every document for a query
    without clause, every stored document of the collection is returned. *)
Theorem getCollection_lists_the_collection `{QueryEngine} (name : jsstring)
    (st : Backend) :
  ~ blank name -> failure st = None ->
  exists snap st',
    getCollection name st
      = (Return (map (fun d => with_id (snap_id d) (snap_data d)) snap), st') /\
    documents st' = documents st /\
    (forall d, d ∈ snap ->
       stored (documents st) {| ref_collection := name; ref_id := snap_id d |}
         = Some (snap_data d)) /\
    NoDup (snap_id <$> snap) /\
    ((forall d, selects [] [] d = true) ->
     forall id fields,
       stored (documents st) {| ref_collection := name; ref_id := id |} = Some fields ->
       {| snap_id := id; snap_data := fields |} ∈ snap).
Proof.
  intros Hname Hup. apply isValidString_true_iff in Hname.
  unfold getCollection. rewrite Hname. cbn [negb].
  run_facade.
  change (page (collection name) (documents st))
    with (Return (A := list Snapshot) (matching (collection name) (documents st))).
  cbv iota. rewrite Hup.
  eexists _, _. split; [reflexivity|]. split; [reflexivity|].
  split; [|split].
  - intros d Hd. by apply matching_elem_of in Hd as [Hd _].
  - apply matching_distinct_ids.
  - intros Hall id fields Hst. apply matching_elem_of. split; [exact Hst|].
    apply Hall.
Qed.


Lemma getCollection_lists_the_collection_witness :
  exists snap st',
    getCollection (js "Users") (backend five_users)
      = (Return (map (fun d => with_id (snap_id d) (snap_data d)) snap), st') /\
    user_snapshot "u3" "Cleo" ∈ snap.
Proof.
  assert (Hname : ~ blank (js "Users")) by (by apply isValidString_true_iff).
  destruct (getCollection_lists_the_collection (js "Users") (backend five_users)
              Hname eq_refl) as (snap & st' & Hcall & _ & _ & _ & Hall).
  exists snap, st'. split; [exact Hcall|].
  apply (Hall (fun _ => eq_refl) (js "u3") (named "Cleo")).
  vm_compute. reflexivity.
Defined.

(** ** Email addresses: what [isValidEmail] accepts *)

(** The matcher decides the language of the pattern. *)
Lemma nullable_matches (r : regex) : nullable r = true <-> matches r [].
Proof.
  split.
  - induction r; simpl; intros Hn; try discriminate.
    + constructor.
    + apply andb_true_iff in Hn as [H1 H2].
      change (@nil N) with (@nil N ++ @nil N). constructor; auto.
    + apply orb_true_iff in Hn as [H1|H2];
        [apply matches_alt_l|apply matches_alt_r]; auto.
    + constructor.
  - intros Hm. remember [] as s eqn:Hs. revert Hs.
    induction Hm as [|p c Hp|r1 r2 s1 s2 H1 IH1 H2 IH2|r1 r2 s H IH|r1 r2 s H IH
                     |r|r s1 s2 H1 IH1 H2 IH2]; intros Hs; simpl.
    + reflexivity.
    + discriminate.
    + destruct s1, s2; try discriminate. by rewrite IH1, IH2.
    + by rewrite IH.
    + rewrite IH by done. apply orb_true_r.
    + reflexivity.
    + reflexivity.
Qed.

Lemma matches_star_inv (r : regex) (c : N) (s : jsstring) :
  matches (Star r) (c :: s) ->
  exists s1 s2, s = s1 ++ s2 /\ matches r (c :: s1) /\ matches (Star r) s2.
Proof.
  intros Hm. remember (Star r) as r' eqn:Hr. remember (c :: s) as cs eqn:Hcs.
  revert Hr Hcs. induction Hm as [| | | | | |r0 s1 s2 Hm1 _ Hm2 IH2];
    intros Hr Hcs; try discriminate.
  injection Hr as ->.
  destruct s1 as [|c1 s1].
  - simpl in Hcs. by apply IH2.
  - simpl in Hcs. injection Hcs as -> <-. by exists s1, s2.
Qed.

Lemma matches_seq_inv (r1 r2 : regex) (s : jsstring) :
  matches (Seq r1 r2) s ->
  exists s1 s2, s = s1 ++ s2 /\ matches r1 s1 /\ matches r2 s2.
Proof. inversion 1; subst. eauto. Qed.

Lemma matches_alt_inv (r1 r2 : regex) (s : jsstring) :
  matches (Alt r1 r2) s -> matches r1 s \/ matches r2 s.
Proof. inversion 1; subst; auto. Qed.

Lemma matches_class_inv (p : N -> bool) (s : jsstring) :
  matches (Chars p) s -> exists c, s = [c] /\ p c = true.
Proof. inversion 1; subst. eauto. Qed.

Lemma derive_matches (r : regex) (c : N) (s : jsstring) :
  matches (derive c r) s <-> matches r (c :: s).
Proof.
  revert s. induction r as [| |p|r1 IH1 r2 IH2|r1 IH1 r2 IH2|r IH]; intros s; simpl.
  - split; inversion 1.
  - split; inversion 1.
  - destruct (p c) eqn:Hp; split; intros Hm.
    + inversion Hm; subst. by constructor.
    + apply matches_class_inv in Hm as (c' & [= <- ->] & _). constructor.
    + inversion Hm.
    + apply matches_class_inv in Hm as (c' & [= <- _] & Hc). congruence.
  - assert (Hleft : forall s, matches (Seq (derive c r1) r2) s ->
                              matches (Seq r1 r2) (c :: s)).
    { intros s' Hm. apply matches_seq_inv in Hm as (s1 & s2 & -> & H1 & H2).
      apply IH1 in H1. by apply (matches_seq _ _ (c :: s1) s2). }
    assert (Hback : forall s, matches (Seq r1 r2) (c :: s) ->
                     matches (Seq (derive c r1) r2) s \/
                     (matches r1 [] /\ matches r2 (c :: s))).
    { intros s' Hm. apply matches_seq_inv in Hm as (s1 & s2 & Heq & H1 & H2).
      destruct s1 as [|c1 s1]; simpl in Heq.
      - right. by subst.
      - injection Heq as <- ->. left. constructor; [by apply IH1|done]. }
    destruct (nullable r1) eqn:Hn.
    + split.
      * intros Hm. apply matches_alt_inv in Hm as [Hm|Hm]; [by apply Hleft|].
        apply nullable_matches in Hn.
        apply (matches_seq _ _ [] (c :: s)); [done|by apply IH2].
      * intros Hm. destruct (Hback s Hm) as [H|[_ H]].
        -- by apply matches_alt_l.
        -- apply matches_alt_r. by apply IH2.
    + split; [apply Hleft|].
      intros Hm. destruct (Hback s Hm) as [H|[H _]]; [done|].
      apply nullable_matches in H. congruence.
  - split; intros Hm; apply matches_alt_inv in Hm as [Hm|Hm].
    + apply matches_alt_l. by apply IH1.
    + apply matches_alt_r. by apply IH2.
    + apply matches_alt_l. by apply IH1.
    + apply matches_alt_r. by apply IH2.
  - split.
    + intros Hm. apply matches_seq_inv in Hm as (s1 & s2 & -> & H1 & H2).
      apply IH in H1. by apply (matches_star_cons _ (c :: s1) s2).
    + intros Hm. apply matches_star_inv in Hm as (s1 & s2 & -> & H1 & H2).
      constructor; [by apply IH|done].
Qed.

Lemma test_matches (r : regex) (s : jsstring) : test r s = true <-> matches r s.
Proof.
  revert r. induction s as [|c s IH]; intros r; simpl.
  - apply nullable_matches.
  - rewrite IH. apply derive_matches.
Qed.

Lemma matches_star_class (p : N -> bool) (s : jsstring) :
  matches (Star (Chars p)) s <-> Forall (fun c => p c = true) s.
Proof.
  split.
  - intros Hm. remember (Star (Chars p)) as r eqn:Hr. revert Hr.
    induction Hm as [| | | | | |r0 s1 s2 H1 _ H2 IH2]; intros Hr; try discriminate.
    + constructor.
    + injection Hr as ->. apply matches_class_inv in H1 as (c & -> & Hc).
      constructor; [done|by apply IH2].
  - induction 1 as [|c s Hc _ IH]; [constructor|].
    apply (matches_star_cons _ [c] s); [by constructor|done].
Qed.

Lemma matches_plus_class (p : N -> bool) (s : jsstring) :
  matches (Plus (Chars p)) s <-> s <> [] /\ Forall (fun c => p c = true) s.
Proof.
  unfold Plus. split.
  - intros Hm. apply matches_seq_inv in Hm as (s1 & s2 & -> & H1 & H2).
    apply matches_class_inv in H1 as (c & -> & Hc).
    apply matches_star_class in H2. split; [done|by constructor].
  - intros [Hne Hall]. destruct Hall as [|c s Hc Hs]; [done|].
    apply (matches_seq _ _ [c] s); [by constructor|by apply matches_star_class].
Qed.

Lemma matches_char (k : N) (s : jsstring) : matches (Chars (N.eqb k)) s <-> s = [k].
Proof.
  split.
  - intros Hm. apply matches_class_inv in Hm as (c & -> & Hc).
    apply N.eqb_eq in Hc. by subst.
  - intros ->. constructor. apply N.eqb_refl.
Qed.

Lemma address_part_matches (s : jsstring) :
  matches (Plus (Chars not_space_nor_at)) s <-> address_part s.
Proof.
  rewrite matches_plus_class. unfold address_part, not_space_nor_at.
  apply and_iff_compat_l. apply Forall_iff. intros c.
  rewrite negb_true_iff, orb_false_iff, N.eqb_neq. tauto.
Qed.

(** X16.  isValidEmail accepts exactly the strings of the form
    user@domain.suffix in which the three parts are not empty and hold
    neither white space nor "@"; they may hold dots. *)
Theorem isValidEmail_iff (email : jsstring) :
  isValidEmail email = true <->
  exists user domain suffix,
    email = user ++ 64%N :: domain ++ 46%N :: suffix /\
    address_part user /\ address_part domain /\ address_part suffix.
Proof.
  unfold isValidEmail, emailRegex. rewrite test_matches. split.
  - intros Hm.
    apply matches_seq_inv in Hm as (user & s1 & -> & Huser & Hm).
    apply matches_seq_inv in Hm as (at_ & s2 & -> & Hat & Hm).
    apply matches_seq_inv in Hm as (domain & s3 & -> & Hdomain & Hm).
    apply matches_seq_inv in Hm as (dot & suffix & -> & Hdot & Hsuffix).
    apply matches_char in Hat, Hdot. subst.
    exists user, domain, suffix. rewrite !address_part_matches in *. done.
  - intros (user & domain & suffix & -> & Huser & Hdomain & Hsuffix).
    rewrite <- address_part_matches in Huser, Hdomain, Hsuffix.
    constructor; [done|].
    apply (matches_seq _ _ [64%N]); [by apply matches_char|].
    constructor; [done|].
    apply (matches_seq _ _ [46%N]); [by apply matches_char|done].
Qed.

(** A few addresses: consecutive dots pass, a missing suffix does not. *)
Example isValidEmail_examples :
  isValidEmail (js "jean.dupont@email.com") = true /\
  isValidEmail (js "a@b..c") = true /\
  isValidEmail (js "a@b") = false /\
  isValidEmail (js "a@b.") = false /\
  isValidEmail (js "a b@c.d") = false /\
  isValidEmail (js "a@b@c.d") = false /\
  isValidEmail (js "") = false.
Proof. vm_compute. repeat split. Qed.

(** ** Authentication *)

Ltac run_sdk :=
  unfold catch, await, pure, raise; cbv beta.

(** X17.  Sign-up, sign-in and password reset refuse an address that is not
    of the form user@domain.suffix, without calling the authentication
    service. *)
Theorem malformed_email_rejected `{AuthSdk} (email : jsstring) (st : Auth) :
  isValidEmail email = false ->
  (forall password displayName,
     refused "Format d'email invalide" (signUpWithEmail email password displayName) st) /\
  (forall password,
     refused "Format d'email invalide" (signInWithEmail email password) st) /\
  refused "Format d'email invalide" (sendReset email) st.
Proof.
  intros Hemail.
  repeat split; intros; unfold refused, signUpWithEmail, signInWithEmail, sendReset;
    rewrite Hemail; reflexivity.
Qed.

Lemma malformed_email_rejected_witness :
  isValidEmail (js "ada.kinaru.app") = false /\
  refused "Format d'email invalide"
    (signInWithEmail (H := in_memory_auth) (js "ada.kinaru.app") (js "s3cret"))
    ada_signed_in.
Proof.
  split; [reflexivity|].
  apply (malformed_email_rejected (H := in_memory_auth)
           (js "ada.kinaru.app") ada_signed_in eq_refl).
Defined.

(** X18.  With a well-formed address, sign-up and sign-in refuse a password
    that is empty or white space only, without calling the authentication
    service. *)
Theorem blank_password_rejected `{AuthSdk} (email password : jsstring) (st : Auth) :
  isValidEmail email = true -> blank password ->
  (forall displayName,
     refused "Le mot de passe ne peut pas être vide"
       (signUpWithEmail email password displayName) st) /\
  refused "Le mot de passe ne peut pas être vide" (signInWithEmail email password) st.
Proof.
  intros Hemail Hpassword. apply isValidString_false_iff in Hpassword.
  split; intros; unfold refused, signUpWithEmail, signInWithEmail;
    rewrite Hemail, Hpassword; reflexivity.
Qed.

Lemma blank_password_rejected_witness :
  refused "Le mot de passe ne peut pas être vide"
    (signInWithEmail (H := in_memory_auth) (js "ada@kinaru.app") (js "  "))
    ada_signed_in.
Proof.
  assert (Hblank : blank (js "  ")) by (by apply isValidString_false_iff).
  assert (Hemail : isValidEmail (js "ada@kinaru.app") = true) by (vm_compute; reflexivity).
  apply (blank_password_rejected (H := in_memory_auth)
           (js "ada@kinaru.app") (js "  ") ada_signed_in Hemail Hblank).
Defined.

(** X19.  Without a signed-in user, updateUserDisplayName and
    getCurrentUserToken return null and call nothing; the display name is
    not even looked at. *)
Theorem without_a_current_user_null `{AuthSdk} (st : Auth) :
  currentUser st = None ->
  (forall displayName, updateUserDisplayName displayName st = (Return None, st)) /\
  getCurrentUserToken st = (Return None, st).
Proof.
  intros Hnone. split; intros; unfold updateUserDisplayName, getCurrentUserToken;
    rewrite Hnone; reflexivity.
Qed.

Lemma without_a_current_user_null_witness :
  updateUserDisplayName (H := in_memory_auth) [] nobody = (Return None, nobody) /\
  getCurrentUserToken (H := in_memory_auth) nobody = (Return None, nobody).
Proof.
  destruct (without_a_current_user_null (H := in_memory_auth) nobody eq_refl)
    as [Hname Htoken].
  split; [apply Hname|exact Htoken].
Defined.

(** X20.  A blank display name is an error only when somebody is signed in:
    the session is tested first. *)
Theorem blank_display_name_rejected_when_signed_in `{AuthSdk}
    (displayName : jsstring) (st : Auth) :
  blank displayName ->
  match currentUser st with
  | Some _ =>
      refused "Le nom d'affichage ne peut pas être vide"
        (updateUserDisplayName displayName) st
  | None => updateUserDisplayName displayName st = (Return None, st)
  end.
Proof.
  intros Hblank. apply isValidString_false_iff in Hblank.
  unfold refused, updateUserDisplayName.
  destruct (currentUser st); [rewrite Hblank|]; reflexivity.
Qed.

Lemma blank_display_name_rejected_when_signed_in_witness :
  refused "Le nom d'affichage ne peut pas être vide"
    (updateUserDisplayName (H := in_memory_auth) (js " ")) ada_signed_in.
Proof.
  assert (Hblank : blank (js " ")) by (by apply isValidString_false_iff).
  exact (blank_display_name_rejected_when_signed_in (H := in_memory_auth)
           (js " ") ada_signed_in Hblank).
Defined.

(** X21.  signUpWithEmail creates the account first and updates the profile
    only for a display name that is a string with a visible character. When
    that update fails the caller gets the sign-up error although the account
    exists: the state is the one the two calls left. *)
Theorem signUpWithEmail_creates_then_names `{AuthSdk}
    (email password : jsstring) (displayName : value) (st st1 : Auth)
    (credential : UserCredential) :
  isValidEmail email = true -> ~ blank password ->
  createUserWithEmailAndPassword email password st = (Return credential, st1) ->
  (isValidString displayName = false ->
   signUpWithEmail email password displayName st
     = (Return (credential_user credential), st1)) /\
  (isValidString displayName = true ->
   signUpWithEmail email password displayName st =
     match updateProfile (credential_user credential) displayName st1 with
     | (Return _, st2) => (Return (credential_user credential), st2)
     | (Throw e, st2) =>
         (Throw (error (js "Échec de l'inscription : " ++ message e)), st2)
     end).
Proof.
  intros Hemail Hpassword Hcreate. apply isValidString_true_iff in Hpassword.
  unfold signUpWithEmail. rewrite Hemail, Hpassword. cbn [negb].
  run_sdk. rewrite Hcreate. split; intros ->; [reflexivity|].
  by destruct (updateProfile _ _ _) as [[[]|e] st2].
Qed.

Lemma signUpWithEmail_creates_then_names_witness :
  let outcome :=
    signUpWithEmail (H := in_memory_auth) (js "bob@kinaru.app") (js "pass")
      (JStr (js "Robert the Third")) nobody in
  fst outcome = Throw (error (js "Échec de l'inscription : auth/invalid-display-name")) /\
  session (snd outcome) = Some (js "bob@kinaru.app").
Proof.
  assert (Hpassword : ~ blank (js "pass")) by (by apply isValidString_true_iff).
  assert (Hemail : isValidEmail (js "bob@kinaru.app") = true) by (vm_compute; reflexivity).
  assert (Hname : isValidString (JStr (js "Robert the Third")) = true)
    by (vm_compute; reflexivity).
  destruct (signUpWithEmail_creates_then_names (H := in_memory_auth)
              (js "bob@kinaru.app") (js "pass") (JStr (js "Robert the Third")) nobody _ _
              Hemail Hpassword eq_refl) as [_ Hnamed].
  cbv zeta. rewrite (Hnamed Hname). vm_compute. split; reflexivity.
Defined.

(** ** Storage *)

(** X22.  The storage wrappers check their inputs before calling the storage
    service: a path that is empty or white space only is refused by
    uploadFile, getFileURL and deleteFile, and uploadFile refuses, for a
    valid path, what is neither a File nor a Blob. *)
Theorem storage_inputs_checked_first `{StorageSdk} (path : jsstring)
    (fileOrBlob : Upload) (st : Storage) :
  blank path \/ instanceof_Blob fileOrBlob = false ->
  refused (if isValidString (JStr path) then "Un fichier ou Blob est requis"
           else "Chemin de stockage invalide")
    (uploadFile path fileOrBlob) st /\
  (blank path ->
   refused "Chemin de stockage invalide" (getFileURL path) st /\
   refused "Chemin de stockage invalide" (deleteFile path) st).
Proof.
  intros Hbad. split.
  - unfold refused, uploadFile.
    destruct (isValidString (JStr path)) eqn:Hpath; [|reflexivity].
    destruct Hbad as [Hblank|Hblob].
    + apply isValidString_false_iff in Hblank. congruence.
    + by destruct fileOrBlob.
  - intros Hblank. apply isValidString_false_iff in Hblank.
    split; unfold refused, getFileURL, deleteFile; rewrite Hblank; reflexivity.
Qed.

Lemma storage_inputs_checked_first_witness :
  refused "Un fichier ou Blob est requis"
    (uploadFile (H := in_memory_storage) (js "cni/recto.jpg") (NoBlob (JStr (js "recto"))))
    ∅.
Proof.
  destruct (storage_inputs_checked_first (H := in_memory_storage) (js "cni/recto.jpg")
              (NoBlob (JStr (js "recto"))) ∅ (or_intror eq_refl)) as [Hupload _].
  assert (Hpath : isValidString (JStr (js "cni/recto.jpg")) = true)
    by (vm_compute; reflexivity).
  rewrite Hpath in Hupload. exact Hupload.
Defined.

(** X23.  uploadFile uploads, then asks for the URL of what it uploaded. A
    failed upload is reported and no URL is asked for; a failure to get the
    URL is reported as a failed upload although the object is stored. *)
Theorem uploadFile_uploads_then_asks_the_url `{StorageSdk}
    (path : jsstring) (fileOrBlob : Upload) (st st0 : Storage)
    (storageRef : StorageReference) :
  ~ blank path -> instanceof_Blob fileOrBlob = true ->
  ref path st = (Return storageRef, st0) ->
  uploadFile path fileOrBlob st =
    match uploadBytes storageRef fileOrBlob st0 with
    | (Return _, st1) =>
        match getDownloadURL storageRef st1 with
        | (Return url, st2) => (Return url, st2)
        | (Throw e, st2) =>
            (Throw (error (js "Échec du téléchargement du fichier : " ++ message e)), st2)
        end
    | (Throw e, st1) =>
        (Throw (error (js "Échec du téléchargement du fichier : " ++ message e)), st1)
    end.
Proof.
  intros Hpath Hblob Href. apply isValidString_true_iff in Hpath.
  unfold uploadFile. rewrite Hpath, Hblob, orb_true_r. cbn [negb].
  run_sdk. rewrite Href.
  destruct (uploadBytes _ _ _) as [[[]|e] st1]; [|reflexivity].
  by destruct (getDownloadURL _ _) as [[url|e] st2].
Qed.

Lemma uploadFile_uploads_then_asks_the_url_witness :
  uploadFile (H := in_memory_storage) (js "cni/recto.jpg") (ABlob [255; 216]%N) ∅
    = (Return (js "https://storage.kinaru.app/cni/recto.jpg"),
       {[ js "cni/recto.jpg" := ABlob [255; 216]%N ]}).
Proof.
  assert (Hpath : ~ blank (js "cni/recto.jpg")) by (by apply isValidString_true_iff).
  rewrite (uploadFile_uploads_then_asks_the_url (H := in_memory_storage)
             (js "cni/recto.jpg") (ABlob [255; 216]%N) ∅ ∅ (js "cni/recto.jpg")
             Hpath eq_refl eq_refl).
  reflexivity.
Defined.

(** ** What the wrappers add to the SDK calls *)

(** X24.  With inputs that pass the checks, each wrapper does what the call
    of the SDK does, state included, and an error of the SDK comes out as a
    new Error whose message is the wrapper's prefix followed by the message
    of the SDK. This holds for the sign-in, reset, Google, sign-out, token
    and display-name wrappers, for getFileURL and deleteFile, and for
    runFsTransaction. *)
Theorem wrappers_relay_the_sdk {authSdk : AuthSdk} {storageSdk : StorageSdk}
    (email password displayName path : jsstring)
    (auth : Auth) (bucket : Storage) (st : Backend) :
  isValidEmail email = true -> ~ blank password -> ~ blank displayName ->
  ~ blank path ->
  relays "Échec de la connexion : "
    (signInWithEmailAndPassword email password) (signInWithEmail email password) auth /\
  relays "Échec de la réinitialisation du mot de passe : "
    (sendPasswordResetEmail email) (sendReset email) auth /\
  relays "Échec de la connexion Google : " signInWithPopup signInWithGoogle auth /\
  relays "Échec de la déconnexion : " signOut logout auth /\
  (forall user, currentUser auth = Some user ->
     relays "Échec de la récupération du jeton : "
       (await (getIdToken user true) (fun token => pure (Some token)))
       getCurrentUserToken auth /\
     relays "Échec de la mise à jour du nom d'affichage : "
       (await (updateProfile user (JStr displayName)) (fun _ => pure (Some tt)))
       (updateUserDisplayName displayName) auth) /\
  relays "Échec de la récupération de l'URL du fichier : "
    (await (ref path) getDownloadURL) (getFileURL path) bucket /\
  relays "Échec de la suppression du fichier : "
    (await (ref path) deleteObject) (deleteFile path) bucket /\
  (forall runTransaction handle,
     relays "Échec de la transaction : " (runTransaction (JFun handle))
       (runFsTransaction runTransaction (JFun handle)) st).
Proof.
  intros Hemail Hpassword Hname Hpath.
  apply isValidString_true_iff in Hpassword, Hname, Hpath.
  unfold relays, signInWithEmail, sendReset, signInWithGoogle, logout,
    getFileURL, deleteFile.
  rewrite Hemail, Hpassword, Hpath. cbn [negb]. run_sdk.
  split; [by destruct (signInWithEmailAndPassword _ _ _) as [[c|e] st']|].
  split; [by destruct (sendPasswordResetEmail _ _) as [[c|e] st']|].
  split; [by destruct (signInWithPopup _) as [[c|e] st']|].
  split; [by destruct (signOut _) as [[c|e] st']|].
  split.
  { intros user Huser. unfold getCurrentUserToken, updateUserDisplayName.
    rewrite Huser, Hname. cbn [negb]. run_sdk.
    split.
    - by destruct (getIdToken _ _ _) as [[c|e] st'].
    - by destruct (updateProfile _ _ _) as [[c|e] st']. }
  split.
  { destruct (ref path bucket) as [[r|e] st0]; [|reflexivity].
    by destruct (getDownloadURL _ _) as [[c|e] st']. }
  split.
  { destruct (ref path bucket) as [[r|e] st0]; [|reflexivity].
    by destruct (deleteObject _ _) as [[c|e] st']. }
  intros runTransaction handle. unfold runFsTransaction.
  rewrite typeof_function. cbn [negb].
  unfold try_catch, throw. by destruct (runTransaction _ _) as [[v|e] st'].
Qed.

Lemma wrappers_relay_the_sdk_witness :
  signInWithEmail (H := in_memory_auth) (js "ada@kinaru.app") (js "guess") nobody
    = (Throw (error (js "Échec de la connexion : auth/invalid-credential")), nobody) /\
  deleteFile (H := in_memory_storage) (js "cni/recto.jpg") ∅
    = (Throw (error (js "Échec de la suppression du fichier : storage/object-not-found")), ∅).
Proof.
  assert (Hpassword : ~ blank (js "guess")) by (by apply isValidString_true_iff).
  assert (Hname : ~ blank (js "Ada")) by (by apply isValidString_true_iff).
  assert (Hpath : ~ blank (js "cni/recto.jpg")) by (by apply isValidString_true_iff).
  assert (Hemail : isValidEmail (js "ada@kinaru.app") = true) by (vm_compute; reflexivity).
  destruct (wrappers_relay_the_sdk (authSdk := in_memory_auth)
              (storageSdk := in_memory_storage)
              (js "ada@kinaru.app") (js "guess") (js "Ada") (js "cni/recto.jpg")
              nobody ∅ (backend five_users) Hemail Hpassword Hname Hpath)
    as (Hin & _ & _ & _ & _ & _ & Hdelete & _).
  rewrite Hin, Hdelete. vm_compute. split; reflexivity.
Defined.

(** ** The handlers of the user-management screen *)

Lemma assign_statut (user : User) (v : value) :
  Screen.assign user {[ js "statut" := v ]} = with_statut v user.
Proof.
  unfold Screen.assign, with_statut.
  rewrite lookup_singleton_eq.
  rewrite !lookup_singleton_ne by (intros Hk; vm_compute in Hk; discriminate).
  reflexivity.
Qed.

Lemma update_status_written (userId action : jsstring) (code : Z) (old : object)
    (s : Screen.State) (st : Backend) :
  ~ blank userId -> failure st = None ->
  let r := {| ref_collection := js "Users"; ref_id := userId |} in
  let payload := <[js "updatedAt" := JServerTimestamp]>
                   {[ js "statut" := JNum (Int code) ]} in
  stored (documents st) r = Some old ->
  Screen.update_status userId action {[ js "statut" := JNum (Int code) ]} s st =
    (Screen.setUsers
       (map (fun user => if Screen.is_string (uid user) userId
                         then with_statut (JNum (Int code)) user else user)
            (Screen.users s)) s,
     with_documents (with_request st (ReqWrite (WUpdate r payload)))
       (put (documents st) r ((resolve (clock st) <$> payload) ∪ old))).
Proof.
  intros Hid Hup r payload Hold.
  assert (Hname : ~ blank (js "Users")) by (by apply isValidString_true_iff).
  assert (Hdata : ~ no_object (JObj {[ js "statut" := JNum (Int code) ]})).
  { intros [Hd|Hd]; [discriminate|]. by apply Hd. }
  unfold Screen.update_status.
  rewrite (updateDocument_writes (js "Users") userId _ st Hname Hid Hdata Hup).
  fold r. rewrite Hold. cbn [spread]. fold payload.
  assert (Hmap :
            map (fun user => if Screen.is_string (uid user) userId
                             then Screen.assign user {[ js "statut" := JNum (Int code) ]}
                             else user) (Screen.users s)
            = map (fun user => if Screen.is_string (uid user) userId
                               then with_statut (JNum (Int code)) user else user)
                  (Screen.users s)).
  { apply map_ext. intros user. by rewrite assign_statut. }
  rewrite Hmap. reflexivity.
Qed.

Lemma update_status_failed (userId action : jsstring) (updateData : object)
    (s : Screen.State) (st : Backend) :
  blank userId \/ failure st <> None \/
  stored (documents st) {| ref_collection := js "Users"; ref_id := userId |} = None ->
  exists st',
    Screen.update_status userId action updateData s st =
      (Screen.setError (Some (action_failed action)) s, st') /\
    documents st' = documents st.
Proof.
  intros Hbad. unfold Screen.update_status, action_failed.
  assert (Hthrow : exists e st',
            updateDocument (js "Users") userId (JObj updateData) st = (Throw e, st') /\
            documents st' = documents st).
  { destruct Hbad as [Hid|[Hdown|Hmissing]].
    - apply isValidString_false_iff in Hid. unfold updateDocument.
      assert (Hname : isValidString (JStr (js "Users")) = true)
        by (vm_compute; reflexivity).
      rewrite Hname, Hid. cbn [negb]. by eexists _, _.
    - destruct (failure st) as [msg|] eqn:Hfail; [|done].
      unfold updateDocument.
      destruct (isValidString (JStr (js "Users"))); [|by eexists _, _].
      destruct (isValidString (JStr userId)); [|by eexists _, _].
      change (not_an_object (JObj updateData)) with false. cbn [negb].
      run_facade. rewrite Hfail. by eexists _, _.
    - by apply updateDocument_missing. }
  destruct Hthrow as (e & st' & -> & Hdocs).
  exists st'. split; [reflexivity|exact Hdocs].
Qed.

Lemma handleUserAction_status (userId action : jsstring) (code : Z) (label : jsstring)
    (s : Screen.State) (st : Backend) :
  (action, code, label) ∈ status_actions ->
  Screen.handleUserAction userId action s st =
    (let (s', st') :=
       Screen.update_status userId action {[ js "statut" := JNum (Int code) ]}
         (Screen.setActionLoading (Some userId) s) st in
     (Screen.setActionLoading None s', st')) /\
  getStatusLabel (Int code) = JStr label.
Proof.
  unfold status_actions. rewrite !elem_of_cons, elem_of_nil.
  intros [[= -> -> ->]|[[= -> -> ->]|[[= -> -> ->]|[]]]];
    (split; [|vm_compute; reflexivity]);
    unfold Screen.handleUserAction; decide_closed; reflexivity.
Qed.

(** X25.  Approving, rejecting and banning write the status 1, 2 and 0
    (shown as actif, en_attente and banni: a rejected user is a pending
    one). When the user has a stored document and the backend answers, the
    stored document gets that status and the time of the call as updatedAt
    and keeps its other fields, no other document changes, and the listed
    users with that uid, and only they, get the status; the error of the
    screen is untouched and no action is left loading. *)
Theorem handleUserAction_sets_the_status (userId action : jsstring) (code : Z)
    (label : jsstring) (old : object) (s : Screen.State) (st : Backend) :
  (action, code, label) ∈ status_actions ->
  ~ blank userId -> failure st = None ->
  let r := {| ref_collection := js "Users"; ref_id := userId |} in
  stored (documents st) r = Some old ->
  let s' := fst (Screen.handleUserAction userId action s st) in
  let st' := snd (Screen.handleUserAction userId action s st) in
  getStatusLabel (Int code) = JStr label /\
  (exists new,
     stored (documents st') r = Some new /\
     new !! js "statut" = Some (JNum (Int code)) /\
     new !! js "updatedAt" = Some (JTimestamp (clock st)) /\
     forall k, k <> js "statut" -> k <> js "updatedAt" -> new !! k = old !! k) /\
  (forall r', r' <> r -> stored (documents st') r' = stored (documents st) r') /\
  Screen.users s' =
    map (fun user => if Screen.is_string (uid user) userId
                     then with_statut (JNum (Int code)) user else user)
        (Screen.users s) /\
  Screen.error s' = Screen.error s /\
  Screen.editUser s' = Screen.editUser s /\
  Screen.actionLoading s' = None.
Proof.
  intros Haction Hid Hup r Hold s' st'.
  destruct (handleUserAction_status userId action code label s st Haction)
    as [Hrun Hlabel].
  split; [exact Hlabel|].
  unfold s', st'. rewrite Hrun.
  rewrite (update_status_written userId action code old _ st Hid Hup Hold).
  cbn [fst snd documents with_documents Screen.users Screen.setUsers
       Screen.setActionLoading Screen.error Screen.editUser Screen.actionLoading].
  fold r. split; [|split; [|by repeat split]].
  - eexists. split; [apply stored_put|]. split; [|split].
    + apply lookup_union_Some_l. rewrite lookup_fmap.
      rewrite lookup_insert_ne by (intros Hk; vm_compute in Hk; discriminate).
      by rewrite lookup_singleton_eq.
    + apply lookup_union_Some_l. by rewrite lookup_fmap, lookup_insert_eq.
    + intros k Hs Hu. rewrite lookup_union, lookup_fmap.
      rewrite lookup_insert_ne, lookup_singleton_ne by done.
      simpl. by destruct (old !! k).
  - intros r' Hne. by apply stored_put_ne.
Qed.

Lemma handleUserAction_sets_the_status_witness :
  let s' := fst (Screen.handleUserAction (js "u2") (js "reject") two_listed
                   (backend five_users)) in
  statut <$> Screen.users s' = [JNum (Int 1); JNum (Int 2)] /\
  getStatusLabel (Int 2) = JStr (js "en_attente").
Proof.
  assert (Hid : ~ blank (js "u2")) by (by apply isValidString_true_iff).
  assert (Haction : (js "reject", 2, js "en_attente") ∈ status_actions).
  { unfold status_actions. rewrite !elem_of_cons. right; left; reflexivity. }
  destruct (handleUserAction_sets_the_status (js "u2") (js "reject") 2
              (js "en_attente") (named "Bob") two_listed (backend five_users)
              Haction Hid eq_refl ltac:(vm_compute; reflexivity))
    as (Hlabel & _ & _ & Husers & _).
  cbv zeta. rewrite Husers. split; [vm_compute; reflexivity|exact Hlabel].
Defined.

(** X26.  When the update of an approve, reject or ban cannot be made (blank
    user id, failing backend, no stored document for the user), the handler
    shows the error of the action and changes neither the listed users nor
    the stored documents; no action is left loading. *)
Theorem handleUserAction_failure_changes_nothing (userId action : jsstring)
    (code : Z) (label : jsstring) (s : Screen.State) (st : Backend) :
  (action, code, label) ∈ status_actions ->
  blank userId \/ failure st <> None \/
  stored (documents st) {| ref_collection := js "Users"; ref_id := userId |} = None ->
  let s' := fst (Screen.handleUserAction userId action s st) in
  let st' := snd (Screen.handleUserAction userId action s st) in
  Screen.users s' = Screen.users s /\
  documents st' = documents st /\
  Screen.error s' = Some (action_failed action) /\
  Screen.editUser s' = Screen.editUser s /\
  Screen.actionLoading s' = None.
Proof.
  intros Haction Hbad s' st'.
  destruct (handleUserAction_status userId action code label s st Haction)
    as [Hrun _].
  unfold s', st'. rewrite Hrun.
  destruct (update_status_failed userId action {[ js "statut" := JNum (Int code) ]}
              (Screen.setActionLoading (Some userId) s) st Hbad)
    as (st1 & -> & Hdocs).
  by repeat split.
Qed.

Lemma handleUserAction_failure_changes_nothing_witness :
  let s' := fst (Screen.handleUserAction (js "u9") (js "ban") two_listed
                   (backend five_users)) in
  Screen.users s' = Screen.users two_listed /\
  Screen.error s' = Some (js "Erreur lors de l'action ban. Veuillez réessayer.").
Proof.
  assert (Haction : (js "ban", 0, js "banni") ∈ status_actions).
  { unfold status_actions. rewrite !elem_of_cons. right; right; left; reflexivity. }
  assert (Hmissing :
            stored (documents (backend five_users))
              {| ref_collection := js "Users"; ref_id := js "u9" |} = None)
    by (vm_compute; reflexivity).
  destruct (handleUserAction_failure_changes_nothing (js "u9") (js "ban") 0
              (js "banni") two_listed (backend five_users) Haction
              (or_intror (or_intror Hmissing)))
    as (Husers & _ & Herror & _).
  cbv zeta. split; [exact Husers|]. rewrite Herror. vm_compute. reflexivity.
Defined.

(** X27.  Any other action sends nothing to the backend and leaves the
    listed users and the error as they are, with no action left loading.
    Only "edit" touches the screen: it opens the first listed user whose uid
    is the given id, and nothing when there is none. *)
Theorem handleUserAction_other_actions_write_nothing (userId action : jsstring)
    (s : Screen.State) (st : Backend) :
  action ∉ [js "approve"; js "reject"; js "ban"] ->
  let s' := fst (Screen.handleUserAction userId action s st) in
  snd (Screen.handleUserAction userId action s st) = st /\
  Screen.users s' = Screen.users s /\
  Screen.error s' = Screen.error s /\
  Screen.actionLoading s' = None /\
  (action <> js "edit" -> Screen.editUser s' = Screen.editUser s) /\
  (action = js "edit" ->
   (forall before user after,
      Screen.users s = before ++ user :: after ->
      Forall (fun u => uid u <> JStr userId) before -> uid user = JStr userId ->
      Screen.editUser s' = Some user) /\
   (Forall (fun u => uid u <> JStr userId) (Screen.users s) ->
    Screen.editUser s' = Screen.editUser s)).
Proof.
  rewrite !not_elem_of_cons. intros (Ha & Hr & Hb & _) s'.
  unfold s', Screen.handleUserAction.
  rewrite !bool_decide_eq_false_2 by done.
  destruct (decide (action = js "edit")) as [->|He].
  - rewrite bool_decide_eq_true_2 by done.
    cbn [Screen.users Screen.setActionLoading].
    assert (Hfind : forall l,
              match find (fun u => Screen.is_string (uid u) userId) l with
              | Some user =>
                  exists before after, l = before ++ user :: after /\
                    Forall (fun u => uid u <> JStr userId) before /\
                    uid user = JStr userId
              | None => Forall (fun u => uid u <> JStr userId) l
              end).
    { induction l as [|u l IH]; simpl; [constructor|].
      destruct (Screen.is_string (uid u) userId) eqn:Hu.
      - exists [], l. split; [reflexivity|]. split; [constructor|].
        unfold Screen.is_string in Hu. destruct (uid u); try discriminate.
        apply bool_decide_eq_true in Hu. by subst.
      - assert (Hne : uid u <> JStr userId).
        { intros Heq. rewrite Heq in Hu. simpl in Hu.
          by rewrite bool_decide_eq_true_2 in Hu. }
        destruct (find _ l) as [user|].
        + destruct IH as (before & after & -> & Hbefore & Huser).
          exists (u :: before), after. split; [reflexivity|]. by split; [constructor|].
        + by constructor. }
    specialize (Hfind (Screen.users s)).
    destruct (find _ (Screen.users s)) as [found|]; cbn [fst snd].
    + destruct Hfind as (before0 & after0 & Hsplit & Hbefore0 & Hfound).
      repeat split; try done.
      * intros before user after Hsplit' Hbefore Huser.
        cbn [Screen.editUser Screen.setEditUser Screen.setActionLoading]. f_equal.
        rewrite Hsplit in Hsplit'. clear Hsplit.
        revert before Hsplit' Hbefore.
        induction before0 as [|b before0 IH]; intros [|b' before] Heq Hb';
          simpl in Heq; injection Heq as -> Heq.
        -- reflexivity.
        -- by apply Forall_cons in Hb' as [Hb' _].
        -- by apply Forall_cons in Hbefore0 as [Hbefore0 _].
        -- apply Forall_cons in Hbefore0 as [_ Hbefore0].
           apply Forall_cons in Hb' as [_ Hb']. by apply (IH Hbefore0 before).
      * intros Hall. rewrite Hsplit in Hall.
        apply Forall_app in Hall as [_ Hall]. by apply Forall_cons in Hall as [Hall _].
    + repeat split; try done.
      intros before user after Hsplit _ Huser. rewrite Hsplit in Hfind.
      apply Forall_app in Hfind as [_ Hfind].
      by apply Forall_cons in Hfind as [Hfind _].
  - rewrite bool_decide_eq_false_2 by done. by repeat split.
Qed.

Lemma handleUserAction_other_actions_write_nothing_witness :
  let s' := fst (Screen.handleUserAction (js "u2") (js "edit") two_listed
                   (backend five_users)) in
  Screen.editUser s' = Some (listed "u2" "Bob" 2) /\
  snd (Screen.handleUserAction (js "u2") (js "edit") two_listed (backend five_users))
    = backend five_users.
Proof.
  assert (Haction : js "edit" ∉ [js "approve"; js "reject"; js "ban"]).
  { rewrite !not_elem_of_cons. repeat split; try discriminate. apply not_elem_of_nil. }
  destruct (handleUserAction_other_actions_write_nothing (js "u2") (js "edit")
              two_listed (backend five_users) Haction)
    as (Hbackend & _ & _ & _ & _ & Hedit).
  destruct (Hedit eq_refl) as [Hopen _].
  cbv zeta. split; [|exact Hbackend].
  apply (Hopen [listed "u1" "Ada" 3] (listed "u2" "Bob" 2) []); [reflexivity| |reflexivity].
  constructor; [discriminate|constructor].
Defined.

(** X28.  The add dialog cannot create a user: it writes with
    updateDocument, which needs a stored document. When no document is
    stored under the uid of the form (the email, or the clock when the email
    is empty), the submit shows the creation error; the listed users, the
    form, the dialog and the stored documents are as before. *)
Theorem submitNewUser_never_creates (now : Z) (isoNow : jsstring)
    (s : Screen.State) (st : Backend) :
  (forall id,
     field (Screen.userData (Screen.newUser s) now isoNow) (js "uid") = JStr id ->
     stored (documents st) {| ref_collection := js "Users"; ref_id := id |} = None) ->
  let s' := fst (Screen.submitNewUser now isoNow s st) in
  let st' := snd (Screen.submitNewUser now isoNow s st) in
  Screen.users s' = Screen.users s /\
  documents st' = documents st /\
  Screen.error s' =
    Some (js "Erreur lors de la création de l’utilisateur. Veuillez réessayer.") /\
  Screen.newUser s' = Screen.newUser s /\
  Screen.showAddModal s' = Screen.showAddModal s.
Proof.
  intros Hfresh s' st'. unfold s', st', Screen.submitNewUser, Screen.updateUser.
  destruct (field (Screen.userData (Screen.newUser s) now isoNow) (js "uid"))
    as [| |b|n|id|t| |items|fields|h] eqn:Huid; try (by repeat split).
  destruct (updateDocument_missing (js "Users") id
              (JObj (Screen.userData (Screen.newUser s) now isoNow)) st
              (Hfresh id eq_refl)) as (e & st1 & -> & Hdocs).
  by repeat split.
Qed.

Lemma submitNewUser_never_creates_witness :
  let s' := fst (Screen.submitNewUser 1735689600000 (js "2025-01-01T00:00:00.000Z")
                   two_listed (backend five_users)) in
  Screen.users s' = Screen.users two_listed /\
  Screen.showAddModal s' = true.
Proof.
  destruct (submitNewUser_never_creates 1735689600000 (js "2025-01-01T00:00:00.000Z")
              two_listed (backend five_users)) as (Husers & _ & _ & _ & Hmodal).
  - intros id Hid. vm_compute in Hid. injection Hid as <-. vm_compute. reflexivity.
  - cbv zeta. split; [exact Husers|exact Hmodal].
Defined.

(** ** The mock transactions and contracts *)

Lemma lt_of_mul_lt (a b c : Z) : 0 < c -> a * c < b * c -> a < b.
Proof. intros Hc H. nia. Qed.

(** [Math.floor(Math.random() * n)] is one of 0, ..., n - 1: the product of
    a double below 1 by n, rounded to nearest, stays below n. *)
Lemma floor_times (r : double) (n : Z) :
  unit_interval r -> 1 <= n < 2 ^ 52 -> 0 <= Mock.floor (times r n) < n.
Proof.
  destruct r as [m e]. unfold unit_interval, times, Mock.floor, round.
  cbn [mant expo].
  intros ([Hm0 Hm53] & He & Hr) [Hn1 Hn52].
  destruct (Z.eq_dec m 0) as [->|Hmz].
  { change (0 * n) with 0. change (Z.log2 0 - 52 <=? 0) with true.
    cbv iota. cbn [mant expo].
    destruct (0 <=? e) eqn:H0e; [rewrite Z.mul_0_l; lia|].
    rewrite Z.div_0_l; [lia|]. apply Z.pow_nonzero; lia. }
  destruct Hr as [->|[Hneg Hlt]]; [done|].
  assert (Hpow : 0 < 2 ^ (- e)) by (apply Z.pow_pos_nonneg; lia).
  assert (HM : 0 < m * n) by nia.
  assert (HMlt : m * n < n * 2 ^ (- e)) by nia.
  destruct (Z.log2 (m * n) - 52 <=? 0) eqn:Hs; cbv iota; cbn [mant expo].
  - assert (H0e : (0 <=? e) = false) by lia. rewrite H0e.
    split; [apply Z.div_pos; lia|].
    apply Z.div_lt_upper_bound; lia.
  - apply Z.leb_gt in Hs.
    set (s := Z.log2 (m * n) - 52) in *.
    assert (Hlow : 2 ^ (52 + s) <= m * n).
    { apply Z.log2_le_pow2; lia. }
    assert (Hsplit53 : 2 ^ (52 + s) = 2 ^ 53 * 2 ^ (s - 1)).
    { rewrite <- Z.pow_add_r by lia. f_equal. lia. }
    set (P := 2 ^ (s - 1)) in *.
    assert (HP : 0 < P) by (apply Z.pow_pos_nonneg; lia).
    assert (H2P : 2 ^ s = 2 * P).
    { unfold P. replace s with (1 + (s - 1)) at 1 by lia.
      rewrite Z.pow_add_r by lia. reflexivity. }
    assert (HPn : P < n) by nia.
    assert (Hse : s < - e).
    { destruct (Z_lt_le_dec s (- e)) as [|Hge]; [done|exfalso].
      assert (2 ^ (- e) <= 2 ^ s) by (apply Z.pow_le_mono_r; lia).
      nia. }
    assert (H0e : (0 <=? e + s) = false) by lia. rewrite H0e.
    replace (- (e + s)) with (- e - s) by lia.
    assert (Hsplit : 2 ^ (- e) = 2 ^ (- e - s) * 2 ^ s).
    { rewrite <- Z.pow_add_r by lia. f_equal. lia. }
    set (K := 2 ^ (- e - s)) in *.
    assert (HK : 0 < K) by (apply Z.pow_pos_nonneg; lia).
    rewrite H2P in *.
    pose proof (Z.div_mod (m * n) (2 * P)) as Hdm.
    pose proof (Z.mod_pos_bound (m * n) (2 * P)) as Hmod.
    set (q := m * n / (2 * P)) in *. set (rr := (m * n) mod (2 * P)) in *.
    assert (Hq : 0 <= q) by (apply Z.div_pos; lia).
    assert (Hbound : m * n <= n * (K * (2 * P)) - n) by nia.
    assert (Hmant : 0 <= (if (P <? rr) || ((rr =? P) && Z.odd q)
                          then q + 1 else q) < n * K).
    { destruct ((P <? rr) || ((rr =? P) && Z.odd q)) eqn:Hup.
      - assert (Hrr : P <= rr).
        { apply orb_true_iff in Hup as [Hup|Hup]; [lia|].
          apply andb_true_iff in Hup as [Hup _]. lia. }
        split; [lia|]. apply (lt_of_mul_lt _ _ (2 * P)); [lia|]. nia.
      - split; [lia|]. apply (lt_of_mul_lt _ _ (2 * P)); [lia|]. nia. }
    split; [apply Z.div_pos; lia|].
    apply Z.div_lt_upper_bound; lia.
Qed.

Lemma pick_range random (k : nat) (n : Z) :
  (forall j, unit_interval (random j)) -> 1 <= n < 2 ^ 52 ->
  0 <= pick random k n < n.
Proof. intros Hrandom Hn. by apply floor_times. Qed.

Lemma at_index_elem_of (array : list jsstring) (i : Z) :
  0 <= i < Z.of_nat (length array) -> at_index array i ∈ JStr <$> array.
Proof.
  intros Hi. unfold at_index.
  assert (Hneg : (i <? 0) = false) by lia. rewrite Hneg.
  destruct (lookup_lt_is_Some_2 array (Z.to_nat i)) as [s Hs]; [lia|].
  rewrite Hs. simpl. apply list_elem_of_fmap. exists s. split; [reflexivity|].
  by eapply list_elem_of_lookup_2.
Qed.

(** One turn of the loop. *)
Lemma pushes_unfold {A} (body : Z -> nat -> A) (draws : nat) (hi i : Z)
    (st : list A * nat) :
  pushes body draws hi i st =
    if decide (i <= hi)
    then pushes body draws hi (i + 1)
           (fst st ++ [body i (snd st)], (snd st + draws)%nat)
    else st.
Proof.
  rewrite pushes_equation_1.
  destruct (decide (i <= hi)); [apply pushes_clause_1_equation_1|reflexivity].
Qed.

(** The loop started at [i] pushes one record for each index from [i] to
    [hi], in order, each built from the next [draws] outcomes. *)
Lemma pushes_spec {A} (body : Z -> nat -> A) (draws : nat) (hi : Z) (n : nat)
    (i : Z) (st : list A * nat) :
  Z.to_nat (hi + 1 - i) = n ->
  pushes body draws hi i st =
    (fst st ++ map (fun j => body (i + Z.of_nat j) (snd st + draws * j)%nat) (seq 0 n),
     (snd st + draws * n)%nat).
Proof.
  revert i st. induction n as [|n IH]; intros i [l k] Hn;
    rewrite pushes_unfold; cbn [fst snd].
  - rewrite decide_False by lia. simpl. rewrite app_nil_r. f_equal. lia.
  - rewrite decide_True by lia. rewrite IH by lia. cbn [fst snd].
    rewrite <- app_assoc. f_equal; [|lia]. f_equal. simpl. f_equal.
    + f_equal; lia.
    + rewrite <- seq_shift, map_map. apply map_ext. intros j.
      f_equal; lia.
Qed.

(** The uids of the mock users are the decimal numbers 1 to 40. *)
Lemma mockUsers_uids random (u : Z) :
  1 <= u <= 40 -> JStr (digits u) ∈ uid <$> mockUsers random.
Proof.
  intros Hu. unfold mockUsers.
  rewrite (generate_spec random 39) by reflexivity. cbn [fst snd app].
  rewrite fmap_cons, elem_of_cons.
  destruct (decide (u = 1)) as [->|Hne]; [left; reflexivity|right].
  apply list_elem_of_fmap. exists (generated random u (0 + 11 * Z.to_nat (u - 2))%nat).
  split; [reflexivity|].
  apply list_elem_of_In, in_map_iff. exists (Z.to_nat (u - 2)). split.
  - f_equal. lia.
  - apply in_seq. lia.
Qed.

Lemma transaction_sound random (i : Z) (k : nat) :
  (forall j, unit_interval (random j)) ->
  let t := transaction random i k in
  Transaction.id t = JStr (digits i) /\
  (exists a, Transaction.amount t = JNum (Int a) /\ 100 <= a <= 5099) /\
  Transaction.type t ∈
    [JStr (js "loyer"); JStr (js "frais_reservation"); JStr (js "abonnement");
     JStr (js "commission")] /\
  Transaction.status t ∈ [JStr (js "paye"); JStr (js "en_attente"); JStr (js "annule")] /\
  (exists d, Transaction.date t = JStr (js "2025-01-" ++ digits d) /\ 1 <= d <= 27) /\
  Transaction.userId t ∈ uid <$> mockUsers random /\
  (exists p, Transaction.propertyId t = JStr (digits p) /\ 1 <= p <= 25).
Proof.
  intros Hrandom t. unfold t, transaction.
  cbn [Transaction.id Transaction.amount Transaction.type Transaction.status
       Transaction.date Transaction.userId Transaction.propertyId].
  split; [reflexivity|].
  split.
  { eexists. split; [reflexivity|].
    pose proof (pick_range random k 5000 Hrandom). lia. }
  split.
  { apply (at_index_elem_of [_; _; _; _]). by apply pick_range. }
  split.
  { apply (at_index_elem_of [_; _; _]). by apply pick_range. }
  split.
  { eexists. split; [reflexivity|].
    pose proof (pick_range random (k + 2) 27 Hrandom). lia. }
  split.
  { apply mockUsers_uids. pose proof (pick_range random (k + 4) 40 Hrandom). lia. }
  eexists. split; [reflexivity|].
  pose proof (pick_range random (k + 5) 25 Hrandom). lia.
Qed.

(** X29.  Whatever the outcomes of Math.random() (each a double at least 0
    and below 1), mockTransactions holds exactly 50 records with the ids 1
    to 50 in order; each has an integral amount from 100 to 5099, one of the
    four types and one of the three statuses, a date from 2025-01-1 to
    2025-01-27 (the day without leading zero), the uid of one of the mock
    users as userId and a propertyId from 1 to 25. *)
Theorem mockTransactions_generated (random : nat -> double) :
  (forall n, unit_interval (random n)) ->
  Transaction.id <$> mockTransactions random
    = (fun i => JStr (digits (Z.of_nat i))) <$> seq 1 50 /\
  Forall (fun t =>
            (exists a, Transaction.amount t = JNum (Int a) /\ 100 <= a <= 5099) /\
            Transaction.type t ∈
              [JStr (js "loyer"); JStr (js "frais_reservation");
               JStr (js "abonnement"); JStr (js "commission")] /\
            Transaction.status t ∈
              [JStr (js "paye"); JStr (js "en_attente"); JStr (js "annule")] /\
            (exists d, Transaction.date t = JStr (js "2025-01-" ++ digits d) /\
                       1 <= d <= 27) /\
            Transaction.userId t ∈ uid <$> mockUsers random /\
            (exists p, Transaction.propertyId t = JStr (digits p) /\ 1 <= p <= 25))
         (mockTransactions random).
Proof.
  intros Hrandom. unfold mockTransactions, transactions_loop.
  rewrite (pushes_spec _ 6 50 50) by reflexivity. cbn [fst snd app].
  split.
  - rewrite <- seq_shift. rewrite <- !list_fmap_compose.
    apply list_fmap_ext. intros _ j _. simpl.
    f_equal. f_equal. lia.
  - apply Forall_forall. intros t Ht.
    apply list_elem_of_In, in_map_iff in Ht as (j & <- & _).
    by apply transaction_sound.
Qed.

Lemma mockTransactions_generated_witness :
  length (Transaction.id <$> mockTransactions always_half) = 50%nat.
Proof.
  assert (Hhalf : forall n, unit_interval (always_half n)).
  { intros n. unfold unit_interval, always_half; cbn [mant expo]. lia. }
  destruct (mockTransactions_generated always_half Hhalf) as [Hids _].
  rewrite Hids. reflexivity.
Defined.

Lemma contract_sound random (i : Z) (k : nat) :
  (forall j, unit_interval (random j)) ->
  let c := contract random i k in
  Contract.id c = JStr (digits i) /\
  Contract.tenantId c ∈ uid <$> mockUsers random /\
  Contract.ownerId c ∈ uid <$> mockUsers random /\
  (exists p, Contract.propertyId c = JStr (digits p) /\ 1 <= p <= 25) /\
  (exists d, Contract.startDate c = JStr (js "2025-01-" ++ digits d) /\ 1 <= d <= 27) /\
  (exists d, Contract.endDate c = JStr (js "2025-12-" ++ digits d) /\ 1 <= d <= 27) /\
  (exists a, Contract.monthlyRent c = JNum (Int a) /\ 500 <= a <= 3499) /\
  Contract.status c ∈ [JStr (js "actif"); JStr (js "expire"); JStr (js "resilié")] /\
  Contract.signatureStatus c ∈ [JStr (js "signe"); JStr (js "en_attente")].
Proof.
  intros Hrandom c. unfold c, contract.
  cbn [Contract.id Contract.tenantId Contract.ownerId Contract.propertyId
       Contract.startDate Contract.endDate Contract.monthlyRent Contract.status
       Contract.signatureStatus].
  split; [reflexivity|].
  split.
  { apply mockUsers_uids. pose proof (pick_range random k 40 Hrandom). lia. }
  split.
  { apply mockUsers_uids. pose proof (pick_range random (k + 1) 40 Hrandom). lia. }
  split.
  { eexists. split; [reflexivity|].
    pose proof (pick_range random (k + 2) 25 Hrandom). lia. }
  split.
  { eexists. split; [reflexivity|].
    pose proof (pick_range random (k + 3) 27 Hrandom). lia. }
  split.
  { eexists. split; [reflexivity|].
    pose proof (pick_range random (k + 4) 27 Hrandom). lia. }
  split.
  { eexists. split; [reflexivity|].
    pose proof (pick_range random (k + 5) 3000 Hrandom). lia. }
  split.
  { apply (at_index_elem_of [_; _; _]). by apply pick_range. }
  unfold toss. rewrite !elem_of_cons.
  destruct (above_half _); [by left|by right; left].
Qed.

(** X30.  Whatever the outcomes of Math.random(), mockContracts holds
    exactly 20 records with the ids 1 to 20 in order; tenant and owner are
    uids of mock users (nothing keeps them apart), the propertyId is from 1
    to 25, the monthly rent is integral from 500 to 3499, the start is a day
    of January and the end a day of December 2025, the status is one of the
    three and the signature status is signe or en_attente. *)
Theorem mockContracts_generated (random : nat -> double) :
  (forall n, unit_interval (random n)) ->
  Contract.id <$> mockContracts random
    = (fun i => JStr (digits (Z.of_nat i))) <$> seq 1 20 /\
  Forall (fun c =>
            Contract.tenantId c ∈ uid <$> mockUsers random /\
            Contract.ownerId c ∈ uid <$> mockUsers random /\
            (exists p, Contract.propertyId c = JStr (digits p) /\ 1 <= p <= 25) /\
            (exists d, Contract.startDate c = JStr (js "2025-01-" ++ digits d) /\
                       1 <= d <= 27) /\
            (exists d, Contract.endDate c = JStr (js "2025-12-" ++ digits d) /\
                       1 <= d <= 27) /\
            (exists a, Contract.monthlyRent c = JNum (Int a) /\ 500 <= a <= 3499) /\
            Contract.status c ∈
              [JStr (js "actif"); JStr (js "expire"); JStr (js "resilié")] /\
            Contract.signatureStatus c ∈ [JStr (js "signe"); JStr (js "en_attente")])
         (mockContracts random).
Proof.
  intros Hrandom. unfold mockContracts.
  rewrite (pushes_spec _ 8 20 20) by reflexivity. cbn [fst snd app].
  split.
  - rewrite <- seq_shift. rewrite <- !list_fmap_compose.
    apply list_fmap_ext. intros _ j _. simpl.
    f_equal. f_equal. lia.
  - apply Forall_forall. intros c Hc.
    apply list_elem_of_In, in_map_iff in Hc as (j & <- & _).
    by apply contract_sound.
Qed.

Lemma mockContracts_generated_witness :
  length (Contract.id <$> mockContracts always_half) = 20%nat.
Proof.
  assert (Hhalf : forall n, unit_interval (always_half n)).
  { intros n. unfold unit_interval, always_half; cbn [mant expo]. lia. }
  destruct (mockContracts_generated always_half Hhalf) as [Hids _].
  rewrite Hids. reflexivity.
Defined.
